(** * ShikakuUtsu (bot.py): preference store, notification scheduler and
      reply composition.

    A shallow embedding of the stateful core of [bot.py]:

    - [load_data], [atomic_write_json], [save_bot_data] and [DEFAULT_DATA]
      (the durable store, lines 36-66 and 264-273);
    - the preference commands [set_name_cmd] ... [reset_my_settings_cmd]
      and [memo_add] (lines 428-519);
    - [check_timers], [timer_cmd], [alarm_cmd] (the scheduler, lines 302-321
      and 658-706);
    - [reply_helper] (the reply composer, lines 339-353);
    - [__init__] (lines 246-262), the memo commands [memo_show],
      [memo_list], [memo_forget] and the two administration commands
      [all_erase_cmd], [memory_read_cmd] (lines 521-623);
    - [on_message] with its keyword table, [chat_cmd] and
      [ask_gemini_async] (lines 74-144 and 327-425);
    - [dice_cmd], [rps_cmd], [which_cmd] (lines 851-942).

    Python values are modelled as follows.  A [str] is the list of its code
    points.  A [dict] is an association list in insertion order.  The
    dictionaries that the program shares and mutates in place (the five
    preference maps) are objects in a heap and are named by their location;
    everything below them is kept by value.  Exceptions are results
    ([Raise]), never silent.  The libraries the program calls ([json],
    text files in UTF-8, [datetime]/[zoneinfo], discord.py) are modelled
    just far enough to run the program's own code on them.

    Limits of the model.  One run of [check_timers] is one step: no command
    is interleaved at its [await]s.  An instant is an integer number of
    microseconds; the range of [datetime] and its [OverflowError] are not
    modelled.  The newline translation of text files is the identity.  A
    JSON number is kept as its literal.  The limits of the interpreter
    (memory, recursion depth) are not modelled.  A handler runs as one
    step.  An answer that carries an embed or a file is the value the
    handler returns ([reply]); the switches of [chat_cmd] are passed to the
    handlers that read them; the random draws, the language model and the
    typing indicator are given by a [world].  The weather commands, the
    fortune command and the help text are not modelled. *)

From Stdlib Require Import ZArith NArith Lia String Ascii List.
From stdpp Require Import base option list.
From Stdlib Require DecimalPos DecimalN.

Local Open Scope N_scope.

(** A Python [str]: the sequence of its code points (each below 0x110000). *)
Abbreviation str := (list N) (only parsing).
(** The content of a file: a sequence of bytes (each below 256). *)
Abbreviation bytes := (list N) (only parsing).

(* ===================================================================== *)
(** ** UTF-8, the encoding of [open(..., encoding="utf-8")] *)
(* ===================================================================== *)

Module Utf8.

Definition is_surrogate (c : N) : bool := (0xD800 <=? c) && (c <=? 0xDFFF).

(** A continuation byte, 10xxxxxx. *)
Definition is_cont (b : N) : bool := (0x80 <=? b) && (b <? 0xC0).

(** The strict encoder: a lone surrogate is a [UnicodeEncodeError]
    ([None]). *)
Definition encode_char (c : N) : option bytes :=
  if c <? 0x80 then Some [c]
  else if c <? 0x800 then Some [0xC0 + c / 64; 0x80 + c mod 64]
  else if c <? 0x10000 then
    if is_surrogate c then None
    else Some [0xE0 + c / 4096; 0x80 + (c / 64) mod 64; 0x80 + c mod 64]
  else if c <? 0x110000 then
    Some [0xF0 + c / 262144; 0x80 + (c / 4096) mod 64;
          0x80 + (c / 64) mod 64; 0x80 + c mod 64]
  else None.

Fixpoint encode (s : str) : option bytes :=
  match s with
  | [] => Some []
  | c :: s' =>
      match encode_char c, encode s' with
      | Some b, Some bs => Some (b ++ bs)
      | _, _ => None
      end
  end.

(** The strict decoder: overlong forms, surrogates, values above
    0x10FFFF, stray continuation bytes and truncated sequences are a
    [UnicodeDecodeError] ([None]). *)
Fixpoint decode (bs : bytes) : option str :=
  match bs with
  | [] => Some []
  | b0 :: r0 =>
      if b0 <? 0x80 then cons b0 <$> decode r0
      else if b0 <? 0xC2 then None
      else if b0 <? 0xE0 then
        match r0 with
        | b1 :: r1 =>
            if is_cont b1
            then cons ((b0 - 0xC0) * 64 + (b1 - 0x80)) <$> decode r1
            else None
        | _ => None
        end
      else if b0 <? 0xF0 then
        match r0 with
        | b1 :: b2 :: r2 =>
            let c := ((b0 - 0xE0) * 64 + (b1 - 0x80)) * 64 + (b2 - 0x80) in
            if is_cont b1 && is_cont b2 && (0x800 <=? c)
               && negb (is_surrogate c)
            then cons c <$> decode r2
            else None
        | _ => None
        end
      else if b0 <? 0xF5 then
        match r0 with
        | b1 :: b2 :: b3 :: r3 =>
            let c := (((b0 - 0xF0) * 64 + (b1 - 0x80)) * 64
                      + (b2 - 0x80)) * 64 + (b3 - 0x80) in
            if is_cont b1 && is_cont b2 && is_cont b3
               && (0x10000 <=? c) && (c <? 0x110000)
            then cons c <$> decode r3
            else None
        | _ => None
        end
      else None
  end.



End Utf8.

(* ===================================================================== *)
(** ** Python strings, integers and dictionaries *)
(* ===================================================================== *)

Definition bytes_of_string (s : string) : bytes :=
  map N_of_ascii (list_ascii_of_string s).

(** A string literal of the source, written here in UTF-8 like there. *)
Definition lit (s : string) : str :=
  default [] (Utf8.decode (bytes_of_string s)).

Fixpoint uint_digits (u : Decimal.uint) : str :=
  match u with
  | Decimal.Nil => []
  | Decimal.D0 u => 48 :: uint_digits u
  | Decimal.D1 u => 49 :: uint_digits u
  | Decimal.D2 u => 50 :: uint_digits u
  | Decimal.D3 u => 51 :: uint_digits u
  | Decimal.D4 u => 52 :: uint_digits u
  | Decimal.D5 u => 53 :: uint_digits u
  | Decimal.D6 u => 54 :: uint_digits u
  | Decimal.D7 u => 55 :: uint_digits u
  | Decimal.D8 u => 56 :: uint_digits u
  | Decimal.D9 u => 57 :: uint_digits u
  end.

(** [str(n)] for an [int]. *)
Definition str_of_int (z : Z) : str :=
  match z with
  | Zneg p => 45 :: uint_digits (Pos.to_uint p)
  | _ => uint_digits (N.to_uint (Z.to_N z))
  end.

(** [f"{n:02d}"]. *)
Definition format_02d (z : Z) : str :=
  let d := str_of_int z in
  match d with
  | [_] => 48 :: d
  | _ => d
  end.

(** [s.startswith(prefix)]. *)
Fixpoint startswith (s prefix : str) {struct prefix} : bool :=
  match prefix, s with
  | [], _ => true
  | p :: prefix', c :: s' => (c =? p) && startswith s' prefix'
  | _ :: _, [] => false
  end.

(** A [dict] with [str] keys: the items in insertion order, no key twice. *)
Abbreviation pydict V := (list (list N * V)) (only parsing).

Section Dict.
Context {V : Type}.

(** [d.get(k)]: [None] when the key is absent. *)
Fixpoint dict_get (k : str) (d : pydict V) : option V :=
  match d with
  | [] => None
  | (k', v) :: d' => if decide (k = k') then Some v else dict_get k d'
  end.

(** [d[k] = v]: an existing key keeps its place. *)
Fixpoint dict_set (k : str) (v : V) (d : pydict V) : pydict V :=
  match d with
  | [] => [(k, v)]
  | (k', v') :: d' =>
      if decide (k = k') then (k', v) :: d' else (k', v') :: dict_set k v d'
  end.

(** [d.pop(k, None)] and [del d[k]], as far as the dictionary goes: the
    item of key [k] goes (a dictionary has one at most). *)
Fixpoint dict_pop (k : str) (d : pydict V) : pydict V :=
  match d with
  | [] => []
  | (k', v') :: d' =>
      if decide (k = k') then dict_pop k d' else (k', v') :: dict_pop k d'
  end.

(** [dict(pairs)]. *)
Definition dict_of_pairs (pairs : list (str * V)) : pydict V :=
  fold_left (fun d kv => dict_set kv.1 kv.2 d) pairs [].

Definition dict_keys (d : pydict V) : list str := map fst d.
End Dict.

(* ===================================================================== *)
(** ** The [json] module: values, [json.dump(..., ensure_ascii=False,
       indent=2)] and [json.load] *)
(* ===================================================================== *)

Module Json.

(** What [json.load] builds.  A number is kept as its literal: the
    documents the program writes hold none, and the program computes
    with none. *)
#[warnings="-register-all"]
Inductive jval :=
| JNull
| JBool (b : bool)
| JNum (literal : str)
| JStr (s : str)
| JArr (items : list jval)
| JObj (members : list (str * jval)).

(** *** Encoder *)

Definition hex_digit (n : N) : N := if n <? 10 then 48 + n else 87 + n.

(** [ESCAPE_DCT] of json.encoder: the quote, the backslash and the
    control characters. *)
Definition escape_char (c : N) : str :=
  if c =? 34 then [92; 34]
  else if c =? 92 then [92; 92]
  else if c =? 10 then [92; 110]
  else if c =? 13 then [92; 114]
  else if c =? 9 then [92; 116]
  else if c =? 8 then [92; 98]
  else if c =? 12 then [92; 102]
  else if c <? 32 then [92; 117; 48; 48; hex_digit (c / 16); hex_digit (c mod 16)]
  else [c].

Fixpoint escape (s : str) : str :=
  match s with
  | [] => []
  | c :: s' => escape_char c ++ escape s'
  end.

(** [py_encode_basestring]. *)
Definition encode_basestring (s : str) : str := 34 :: escape s ++ [34].

(** A line break and the indentation of nesting level [lvl]. *)
Definition newline_indent (lvl : nat) : str := 10 :: repeat 32 (2 * lvl)%nat.

Definition NULL : str := Eval vm_compute in lit "null".
Definition TRUE : str := Eval vm_compute in lit "true".
Definition FALSE : str := Eval vm_compute in lit "false".

(** [_iterencode] with [indent=2], item separator "," and key separator
    ": ", the chunks concatenated. *)
Fixpoint iterencode (lvl : nat) (v : jval) : str :=
  match v with
  | JNull => NULL
  | JBool true => TRUE
  | JBool false => FALSE
  | JNum literal => literal
  | JStr s => encode_basestring s
  | JArr [] => [91; 93]
  | JArr (x :: xs) =>
      91 :: newline_indent (S lvl) ++ iterencode (S lvl) x
      ++ (fix items (l : list jval) : str :=
            match l with
            | [] => []
            | y :: l' =>
                44 :: newline_indent (S lvl) ++ iterencode (S lvl) y
                ++ items l'
            end) xs
      ++ newline_indent lvl ++ [93]
  | JObj [] => [123; 125]
  | JObj ((k, x) :: ms) =>
      123 :: newline_indent (S lvl)
      ++ encode_basestring k ++ [58; 32] ++ iterencode (S lvl) x
      ++ (fix items (l : list (str * jval)) : str :=
            match l with
            | [] => []
            | (k', y) :: l' =>
                44 :: newline_indent (S lvl)
                ++ encode_basestring k' ++ [58; 32] ++ iterencode (S lvl) y
                ++ items l'
            end) ms
      ++ newline_indent lvl ++ [125]
  end.

Definition dumps (v : jval) : str := iterencode 0 v.

(** *** Decoder *)

Inductive scan (A : Type) :=
| Done (a : A) (rest : str)
| Malformed                      (* JSONDecodeError *)
| OutOfFuel.
Arguments Done {A}.
Arguments Malformed {A}.
Arguments OutOfFuel {A}.

Definition is_ws (c : N) : bool :=
  (c =? 32) || (c =? 9) || (c =? 10) || (c =? 13).

Fixpoint skip_ws (s : str) : str :=
  match s with
  | c :: r => if is_ws c then skip_ws r else s
  | [] => []
  end.

Definition is_digit (c : N) : bool := (48 <=? c) && (c <=? 57).

Definition hex_val (c : N) : option N :=
  if (48 <=? c) && (c <=? 57) then Some (c - 48)
  else if (97 <=? c) && (c <=? 102) then Some (c - 87)
  else if (65 <=? c) && (c <=? 70) then Some (c - 55)
  else None.

Definition hex4 (a b c d : N) : option N :=
  match hex_val a, hex_val b, hex_val c, hex_val d with
  | Some a, Some b, Some c, Some d => Some (((a * 16 + b) * 16 + c) * 16 + d)
  | _, _, _, _ => None
  end.

(** [BACKSLASH] of json.decoder. *)
Definition unescape (e : N) : option N :=
  if e =? 34 then Some 34
  else if e =? 92 then Some 92
  else if e =? 47 then Some 47
  else if e =? 98 then Some 8
  else if e =? 102 then Some 12
  else if e =? 110 then Some 10
  else if e =? 114 then Some 13
  else if e =? 116 then Some 9
  else None.

Definition is_high_surrogate (c : N) : bool := (0xD800 <=? c) && (c <=? 0xDBFF).
Definition is_low_surrogate (c : N) : bool := (0xDC00 <=? c) && (c <=? 0xDFFF).

Definition push (c : N) (r : option (str * str)) : option (str * str) :=
  match r with
  | Some (t, rest) => Some (c :: t, rest)
  | None => None
  end.

(** [scanstring] in strict mode, from the character after the opening
    quote: the string and what follows its closing quote. *)
Fixpoint scanstring (s : str) : option (str * str) :=
  match s with
  | [] => None
  | c :: r =>
      if c =? 34 then Some ([], r)
      else if c =? 92 then
        match r with
        | [] => None
        | e :: r1 =>
            if e =? 117 then
              match r1 with
              | a :: b :: c4 :: d :: r2 =>
                  match hex4 a b c4 d with
                  | None => None
                  | Some uni =>
                      if is_high_surrogate uni then
                        match r2 with
                        | e1 :: e2 :: a' :: b' :: c' :: d' :: r3 =>
                            if (e1 =? 92) && (e2 =? 117) then
                              match hex4 a' b' c' d' with
                              | None => None
                              | Some uni2 =>
                                  if is_low_surrogate uni2
                                  then push (0x10000 + (uni - 0xD800) * 1024
                                             + (uni2 - 0xDC00))
                                            (scanstring r3)
                                  else push uni (scanstring r2)
                              end
                            else push uni (scanstring r2)
                        | _ => push uni (scanstring r2)
                        end
                      else push uni (scanstring r2)
                  end
              | _ => None
              end
            else
              match unescape e with
              | Some ch => push ch (scanstring r1)
              | None => None
              end
        end
      else if c <? 32 then None
      else push c (scanstring r)
  end.

Fixpoint span_digits (s : str) : str * str :=
  match s with
  | c :: r =>
      if is_digit c then let '(ds, r') := span_digits r in (c :: ds, r')
      else ([], s)
  | [] => ([], [])
  end.

(** [NUMBER_RE]: an optional minus sign; a zero, or a digit from 1 to 9
    and any digits; optionally a point and one digit or more; optionally
    an exponent mark, a sign and one digit or more.  Each optional part is
    taken only when it is complete. *)
Definition match_number (s : str) : option (str * str) :=
  let '(sign, s1) :=
    match s with
    | c :: r => if c =? 45 then ([45], r) else ([], s)
    | [] => ([], s)
    end in
  match s1 with
  | [] => None
  | d :: r =>
      if negb (is_digit d) then None
      else
        let '(int, s2) :=
          if d =? 48 then ([48], r)
          else let '(ds, r') := span_digits r in (d :: ds, r') in
        let '(frac, s3) :=
          match s2 with
          | p :: r2 =>
              if p =? 46 then
                match span_digits r2 with
                | ([], _) => ([], s2)
                | (ds, r2') => (46 :: ds, r2')
                end
              else ([], s2)
          | [] => ([], s2)
          end in
        let '(exp, s4) :=
          match s3 with
          | e :: r3 =>
              if (e =? 101) || (e =? 69) then
                let '(sg, r4) :=
                  match r3 with
                  | g :: r3' =>
                      if (g =? 45) || (g =? 43) then ([g], r3') else ([], r3)
                  | [] => ([], r3)
                  end in
                match span_digits r4 with
                | ([], _) => ([], s3)
                | (ds, r4') => (e :: sg ++ ds, r4')
                end
              else ([], s3)
          | [] => ([], s3)
          end in
        Some (sign ++ int ++ frac ++ exp, s4)
  end.

(** [s[idx:idx+len(word)] == word], with what follows. *)
Definition keyword (word s : str) : option str :=
  if startswith s word then Some (drop (length word) s) else None.

Definition NAN : str := Eval vm_compute in lit "NaN".
Definition INFINITY : str := Eval vm_compute in lit "Infinity".
Definition NEG_INFINITY : str := Eval vm_compute in lit "-Infinity".

(** [scan_once], [JSONObject] and [JSONArray] of json.decoder/scanner.
    [object_items] starts at the opening quote of a key, [array_items] at
    the first character of an element. *)
Fixpoint scan_once (fuel : nat) (s : str) : scan jval :=
  match fuel with
  | O => OutOfFuel
  | S fuel =>
      match s with
      | [] => Malformed
      | c :: r =>
          if c =? 34 then
            match scanstring r with
            | Some (t, r') => Done (JStr t) r'
            | None => Malformed
            end
          else if c =? 123 then
            match skip_ws r with
            | c1 :: r1 =>
                if c1 =? 125 then Done (JObj []) r1
                else if c1 =? 34 then object_items fuel (c1 :: r1) []
                else Malformed
            | [] => Malformed
            end
          else if c =? 91 then
            match skip_ws r with
            | c1 :: r1 =>
                if c1 =? 93 then Done (JArr []) r1
                else array_items fuel (c1 :: r1) []
            | [] => Malformed
            end
          else
            match keyword NULL s, keyword TRUE s, keyword FALSE s with
            | Some r', _, _ => Done JNull r'
            | _, Some r', _ => Done (JBool true) r'
            | _, _, Some r' => Done (JBool false) r'
            | None, None, None =>
                match match_number s with
                | Some (literal, r') => Done (JNum literal) r'
                | None =>
                    match keyword NAN s, keyword INFINITY s,
                          keyword NEG_INFINITY s with
                    | Some r', _, _ => Done (JNum NAN) r'
                    | _, Some r', _ => Done (JNum INFINITY) r'
                    | _, _, Some r' => Done (JNum NEG_INFINITY) r'
                    | None, None, None => Malformed
                    end
                end
            end
      end
  end

with object_items (fuel : nat) (s : str) (pairs : list (str * jval))
  : scan jval :=
  match fuel with
  | O => OutOfFuel
  | S fuel =>
      match s with
      | [] => Malformed
      | q :: r =>
          if negb (q =? 34) then Malformed
          else
            match scanstring r with
            | None => Malformed
            | Some (key, r1) =>
                match skip_ws r1 with
                | [] => Malformed
                | colon :: r2 =>
                    if negb (colon =? 58) then Malformed
                    else
                      match scan_once fuel (skip_ws r2) with
                      | Malformed => Malformed
                      | OutOfFuel => OutOfFuel
                      | Done v r3 =>
                          match skip_ws r3 with
                          | [] => Malformed
                          | c :: r4 =>
                              if c =? 125
                              then Done (JObj (dict_of_pairs
                                                 (pairs ++ [(key, v)]))) r4
                              else if c =? 44
                              then object_items fuel (skip_ws r4)
                                                (pairs ++ [(key, v)])
                              else Malformed
                          end
                      end
                end
            end
      end
  end

with array_items (fuel : nat) (s : str) (values : list jval) : scan jval :=
  match fuel with
  | O => OutOfFuel
  | S fuel =>
      match scan_once fuel s with
      | Malformed => Malformed
      | OutOfFuel => OutOfFuel
      | Done v r =>
          match skip_ws r with
          | [] => Malformed
          | c :: r1 =>
              if c =? 93 then Done (JArr (values ++ [v])) r1
              else if c =? 44
              then array_items fuel (skip_ws r1) (values ++ [v])
              else Malformed
          end
      end
  end.

(** [json.loads]: [None] is a [JSONDecodeError].  A call of one of the
    three functions above is on a text shorter than its caller's, or gets
    to one within two calls, so the fuel given here is never used up
    ([scan_once_fuel] below).  The interpreter's limits (recursion depth,
    digits of an integer) are not modelled. *)
Definition loads (s : str) : option jval :=
  match scan_once (S (2 * length s)) (skip_ws s) with
  | Done v r => match skip_ws r with [] => Some v | _ :: _ => None end
  | Malformed => None
  | OutOfFuel => None
  end.

End Json.

Import Json.

(* ===================================================================== *)
(** ** The process: heap, files, journal and the client object *)
(* ===================================================================== *)

(** The exceptions that can reach the code modelled here. *)
Inductive exn :=
| OSError
| JSONDecodeError
| UnicodeDecodeError
| UnicodeEncodeError
| AttributeError
| TypeError.

Inductive res (A : Type) :=
| Ok (a : A)
| Raise (e : exn).
Arguments Ok {A}.
Arguments Raise {A}.

(** A value as the client holds it: a dictionary object, named by its
    location in the heap, or a value of another type, kept as it is. *)
Inductive pyval :=
| Ref (l : nat)
| PNone
| PBool (b : bool)
| PNum (literal : str)
| PStr (s : str)
| PList (items : list jval).

(** What [load_data] returns: a dictionary (the document) or, when the file
    holds some other JSON value, that value. *)
Inductive loaded :=
| Doc (d : pydict pyval)
| NotADict (j : jval).

Inductive send_outcome :=
| Delivered
| Forbidden (msg : str)          (* discord.Forbidden *)
| Failed (msg : str).            (* any other exception *)

(** What the process does to the outside, in order. *)
Inductive event :=
| Send (channel : Z) (text : str) (outcome : send_outcome)
| Respond (text : str) (ephemeral : bool)
| Print (text : str).

(** An entry of [active_timers]: the dictionary with the keys "time",
    "channel_id", "user_id" and "message" that [timer_cmd] and [alarm_cmd]
    build.  [time] is an instant: microseconds since the epoch, UTC. *)
Record timer := Timer {
  time : Z;
  channel_id : Z;
  user_id : Z;
  message : str
}.

Global Instance timer_eq_dec : EqDecision timer.
Proof. solve_decision. Defined.

Global Instance jval_eq_dec : EqDecision jval.
Proof.
  refine (fix go (x y : jval) {struct x} : Decision (x = y) :=
    match x, y with
    | JNull, JNull => left _
    | JBool a, JBool b => cast_if (decide (a = b))
    | JNum a, JNum b => cast_if (decide (a = b))
    | JStr a, JStr b => cast_if (decide (a = b))
    | JArr a, JArr b =>
        cast_if ((fix items (l1 l2 : list jval) {struct l1}
                    : Decision (l1 = l2) :=
                    match l1, l2 with
                    | [], [] => left _
                    | x1 :: l1', x2 :: l2' =>
                        cast_if_and (go x1 x2) (items l1' l2')
                    | _, _ => right _
                    end) a b)
    | JObj a, JObj b =>
        cast_if ((fix items (l1 l2 : list (str * jval)) {struct l1}
                    : Decision (l1 = l2) :=
                    match l1, l2 with
                    | [], [] => left _
                    | (k1, x1) :: l1', (k2, x2) :: l2' =>
                        cast_if_and3 (decide (k1 = k2)) (go x1 x2)
                                     (items l1' l2')
                    | _, _ => right _
                    end) a b)
    | _, _ => right _
    end); clear go; try clear items; congruence.
Defined.

(** The client object ([ShikakuUtsu], lines 246-262) together with what it
    lives in.  [chat_switch], [default_chat_on] and [session] only gate
    [on_message] and the weather command and are left out. *)
Record state := State {
  (** the dictionaries with an identity, by location *)
  heap : list (pydict jval);
  (** the files of the working directory, by path *)
  files : pydict bytes;
  (** what has been sent and printed *)
  journal : list event;
  bot_data : pydict pyval;
  nicknames : pyval;
  greeting_prefs : pyval;
  silent_prefs : pyval;
  memos : pyval;
  model_prefs : pyval;
  active_timers : list timer
}.

Definition with_heap (h : list (pydict jval)) (st : state) : state :=
  State h (files st) (journal st) (bot_data st) (nicknames st)
        (greeting_prefs st) (silent_prefs st) (memos st) (model_prefs st)
        (active_timers st).

Definition with_files (f : pydict bytes) (st : state) : state :=
  State (heap st) f (journal st) (bot_data st) (nicknames st)
        (greeting_prefs st) (silent_prefs st) (memos st) (model_prefs st)
        (active_timers st).

Definition with_journal (j : list event) (st : state) : state :=
  State (heap st) (files st) j (bot_data st) (nicknames st)
        (greeting_prefs st) (silent_prefs st) (memos st) (model_prefs st)
        (active_timers st).

Definition with_bot_data (d : pydict pyval) (st : state) : state :=
  State (heap st) (files st) (journal st) d (nicknames st)
        (greeting_prefs st) (silent_prefs st) (memos st) (model_prefs st)
        (active_timers st).

Definition with_active_timers (l : list timer) (st : state) : state :=
  State (heap st) (files st) (journal st) (bot_data st) (nicknames st)
        (greeting_prefs st) (silent_prefs st) (memos st) (model_prefs st) l.

Definition emit (e : event) (st : state) : state :=
  with_journal (journal st ++ [e]) st.

(** The dictionary at a location.  Locations come from allocation only, so
    the default is never used. *)
Definition deref (h : list (pydict jval)) (l : nat) : pydict jval :=
  default [] (h !! l).

Inductive channel_type :=
| TextChannel
| Thread
| OtherChannel.

(** A time zone as [datetime] uses it.  A local time is its wall clock
    reading, in microseconds on the naive time line, and its [fold]. *)
Record tzinfo := {
  utcoffset : Z -> bool -> Z;
  fromutc : Z -> Z * bool
}.

(** Everything the program takes from outside and does not decide. *)
Record env := {
  (** a failing system call: opening a file, reading it, writing it,
      [os.replace] *)
  open_fails : str -> bool;
  read_fails : str -> bool;
  write_fails : str -> bool;
  replace_fails : str -> bool;
  (** what is left of a file whose writing was cut short *)
  torn : str -> bytes;
  (** [client.get_channel], [client.get_user(...).mention] *)
  get_channel : Z -> option channel_type;
  get_user : Z -> option str;
  (** [channel.send], given what happened before *)
  send : list event -> Z -> str -> send_outcome;
  (** [str(e)] of an [OSError] *)
  os_error_text : str;
  (** truth value of a number and [str()] of a value that is no string:
      the program stores neither *)
  number_is_true : str -> bool;
  str_of_value : jval -> str;
  (** [TZ = ZoneInfo(DEFAULT_TZ)] *)
  TZ : tzinfo
}.

(* ===================================================================== *)
(** ** The durable store (lines 36-66) *)
(* ===================================================================== *)

Definition DATA_FILE : str := Eval vm_compute in lit "data.json".

Definition K_nicknames : str := Eval vm_compute in lit "nicknames".
Definition K_greeting_prefs : str := Eval vm_compute in lit "greeting_prefs".
Definition K_silent_prefs : str := Eval vm_compute in lit "silent_prefs".
Definition K_memos : str := Eval vm_compute in lit "memos".
Definition K_model_prefs : str := Eval vm_compute in lit "model_prefs".

(** [DEFAULT_DATA]: the module creates five empty dictionaries, at the
    first five locations of the heap, and one dictionary that refers to
    them. *)
Definition DEFAULT_DATA : pydict pyval :=
  [(K_nicknames, Ref 0); (K_greeting_prefs, Ref 1); (K_silent_prefs, Ref 2);
   (K_memos, Ref 3); (K_model_prefs, Ref 4)].

(** The heap once the module is loaded. *)
Definition module_heap : list (pydict jval) := [[]; []; []; []; []].

(** [d.copy()] of a dictionary kept by value: a new outer dictionary, the
    same values, hence the same inner objects. *)
Definition dict_copy (d : pydict pyval) : pydict pyval := d.

(** A parsed value enters the heap: each dictionary directly under the top
    one becomes an object of its own. *)
Definition alloc (v : jval) (h : list (pydict jval))
  : pyval * list (pydict jval) :=
  match v with
  | JObj d => (Ref (length h), h ++ [d])
  | JNull => (PNone, h)
  | JBool b => (PBool b, h)
  | JNum n => (PNum n, h)
  | JStr s => (PStr s, h)
  | JArr l => (PList l, h)
  end.

Fixpoint alloc_members (ms : list (str * jval)) (h : list (pydict jval))
  : pydict pyval * list (pydict jval) :=
  match ms with
  | [] => ([], h)
  | (k, v) :: ms' =>
      let '(x, h1) := alloc v h in
      let '(doc, h2) := alloc_members ms' h1 in
      ((k, x) :: doc, h2)
  end.

Definition from_json (v : jval) (h : list (pydict jval))
  : loaded * list (pydict jval) :=
  match v with
  | JObj ms => let '(doc, h') := alloc_members ms h in (Doc doc, h')
  | _ => (NotADict v, h)
  end.

(** The way back, for [json.dump]. *)
Definition to_json_value (h : list (pydict jval)) (v : pyval) : jval :=
  match v with
  | Ref l => JObj (deref h l)
  | PNone => JNull
  | PBool b => JBool b
  | PNum n => JNum n
  | PStr s => JStr s
  | PList l => JArr l
  end.

Definition to_json (h : list (pydict jval)) (d : pydict pyval) : jval :=
  JObj (map (fun kv => (kv.1, to_json_value h kv.2)) d).

(** [os.path.exists]. *)
Definition path_exists (path : str) (st : state) : bool :=
  bool_decide (is_Some (dict_get path (files st))).

(** [with open(path, "r", encoding="utf-8") as f: json.load(f)]. *)
Definition json_load (E : env) (path : str) (st : state) : res jval :=
  if open_fails E path then Raise OSError
  else
    match dict_get path (files st) with
    | None => Raise OSError
    | Some content =>
        if read_fails E path then Raise OSError
        else
          match Utf8.decode content with
          | None => Raise UnicodeDecodeError
          | Some text =>
              match loads text with
              | None => Raise JSONDecodeError
              | Some v => Ok v
              end
          end
    end.

(** [load_data] (lines 50-58). *)
Definition load_data (E : env) (st : state) : res loaded * state :=
  if path_exists DATA_FILE st then
    match json_load E DATA_FILE st with
    | Ok v =>
        let '(r, h) := from_json v (heap st) in (Ok r, with_heap h st)
    | Raise JSONDecodeError | Raise OSError =>
        (Ok (Doc (dict_copy DEFAULT_DATA)), st)
    | Raise e => (Raise e, st)
    end
  else (Ok (Doc (dict_copy DEFAULT_DATA)), st).

(** [atomic_write_json] (lines 61-66). *)
Definition atomic_write_json (E : env) (path : str) (data : pydict pyval)
    (st : state) : res unit * state :=
  let tmp := path ++ lit ".tmp" in
  if open_fails E tmp then (Raise OSError, st)
  else
    let text := dumps (to_json (heap st) data) in
    match Utf8.encode text with
    | None =>
        (Raise UnicodeEncodeError,
         with_files (dict_set tmp (torn E text) (files st)) st)
    | Some content =>
        if write_fails E tmp
        then (Raise OSError,
              with_files (dict_set tmp (torn E text) (files st)) st)
        else
          let st1 := with_files (dict_set tmp content (files st)) st in
          if replace_fails E tmp then (Raise OSError, st1)
          else
            (Ok tt,
             with_files (dict_set path content (dict_pop tmp (files st1)))
                        st1)
    end.

(* ===================================================================== *)
(** ** State and exceptions threaded through a command *)
(* ===================================================================== *)

Definition M (A : Type) : Type := state -> res A * state.

Definition ret {A} (a : A) : M A := fun st => (Ok a, st).

Definition raise {A} (e : exn) : M A := fun st => (Raise e, st).

Definition bind {A B} (m : M A) (k : A -> M B) : M B :=
  fun st =>
    match m st with
    | (Ok a, st') => k a st'
    | (Raise e, st') => (Raise e, st')
    end.

Notation "x <- m ;; k" := (bind m (fun x => k))
  (at level 100, m at next level, right associativity).
Notation "m ;; k" := (bind m (fun _ => k))
  (at level 100, right associativity).

Definition update (f : state -> state) : M unit := fun st => (Ok tt, f st).

(** [interaction.response.send_message(text, ephemeral=...)]. *)
Definition respond (text : str) (ephemeral : bool) : M unit :=
  update (emit (Respond text ephemeral)).

Definition print (text : str) : M unit := update (emit (Print text)).

(** *** Methods of a dictionary, called on whatever the attribute holds *)

(** [o.get(k, dflt)]; only a dictionary has the method. *)
Definition get_or (o : pyval) (k : str) (dflt : jval) : M jval :=
  fun st =>
    match o with
    | Ref l => (Ok (default dflt (dict_get k (deref (heap st) l))), st)
    | _ => (Raise AttributeError, st)
    end.

(** [o[k] = v]. *)
Definition setitem (o : pyval) (k : str) (v : jval) : M unit :=
  fun st =>
    match o with
    | Ref l =>
        (Ok tt,
         with_heap (<[l := dict_set k v (deref (heap st) l)]> (heap st)) st)
    | _ => (Raise TypeError, st)
    end.

(** [o.pop(k, None)]; [list.pop] takes one argument at most. *)
Definition pop (o : pyval) (k : str) : M unit :=
  fun st =>
    match o with
    | Ref l =>
        (Ok tt,
         with_heap (<[l := dict_pop k (deref (heap st) l)]> (heap st)) st)
    | PList _ => (Raise TypeError, st)
    | _ => (Raise AttributeError, st)
    end.

(* ===================================================================== *)
(** ** The client object (lines 244-273) *)
(* ===================================================================== *)

(** The process before the client exists: the module's heap and the files
    found on disk. *)
Definition boot (fs : pydict bytes) : state :=
  State module_heap fs [] [] PNone PNone PNone PNone PNone [].

(** [self.bot_data.get(key, {})] in [__init__]. *)
Definition get_or_new (key : str) (d : pydict pyval) : M pyval :=
  fun st =>
    match dict_get key d with
    | Some v => (Ok v, st)
    | None => (Ok (Ref (length (heap st))), with_heap (heap st ++ [[]]) st)
    end.

(** [ShikakuUtsu.__init__] (lines 246-262). *)
Definition init (E : env) : M unit :=
  r <- load_data E ;;
  match r with
  | NotADict _ => raise AttributeError
  | Doc d =>
      n <- get_or_new K_nicknames d ;;
      g <- get_or_new K_greeting_prefs d ;;
      s <- get_or_new K_silent_prefs d ;;
      m <- get_or_new K_memos d ;;
      p <- get_or_new K_model_prefs d ;;
      update (fun st =>
                State (heap st) (files st) (journal st) d n g s m p [])
  end.

Definition STORAGE_FAILED : str :=
  Eval vm_compute in lit "[Storage] failed to save data: ".

(** [save_bot_data] (lines 264-273). *)
Definition save_bot_data (E : env) : M unit :=
  fun st =>
    let d := dict_set K_model_prefs (model_prefs st)
               (dict_set K_memos (memos st)
                  (dict_set K_silent_prefs (silent_prefs st)
                     (dict_set K_greeting_prefs (greeting_prefs st)
                        (dict_set K_nicknames (nicknames st) (bot_data st)))))
    in
    let st1 := with_bot_data d st in
    match atomic_write_json E DATA_FILE d st1 with
    | (Raise OSError, st2) =>
        print (STORAGE_FAILED ++ os_error_text E) st2
    | r => r
    end.

(* ===================================================================== *)
(** ** Preference commands (lines 428-480) *)
(* ===================================================================== *)

Definition ON : str := Eval vm_compute in lit "on".

Definition SET_NAME_1 : str := Eval vm_compute in lit "わかった！これからは『".
Definition SET_NAME_2 : str := Eval vm_compute in lit "』って呼ぶね。".

(** [set_name_cmd] (lines 430-434); [user] is [interaction.user.id]. *)
Definition set_name_cmd (E : env) (user : Z) (nickname : str) : M unit :=
  (fun st => setitem (nicknames st) (str_of_int user) (JStr nickname) st) ;;
  save_bot_data E ;;
  respond (SET_NAME_1 ++ nickname ++ SET_NAME_2) true.

Definition GREETING_ON : str := Eval vm_compute in lit "これからは名前を呼ぶね！".
Definition GREETING_OFF : str :=
  Eval vm_compute in lit "わかった、名前は呼ばないようにするね。".

(** [set_greeting_cmd] (lines 439-445). *)
Definition set_greeting_cmd (E : env) (user : Z) (mode : str) : M unit :=
  let on := bool_decide (mode = ON) in
  (fun st => setitem (greeting_prefs st) (str_of_int user) (JBool on) st) ;;
  save_bot_data E ;;
  respond (if on then GREETING_ON else GREETING_OFF) true.

Definition SILENT_ON : str :=
  Eval vm_compute in lit "返信をサイレントモードにしたよ。通知は飛ばないはず！".
Definition SILENT_OFF : str := Eval vm_compute in lit "サイレントモードを解除したよ。".

(** [set_silent_cmd] (lines 450-456). *)
Definition set_silent_cmd (E : env) (user : Z) (mode : str) : M unit :=
  let on := bool_decide (mode = ON) in
  (fun st => setitem (silent_prefs st) (str_of_int user) (JBool on) st) ;;
  save_bot_data E ;;
  respond (if on then SILENT_ON else SILENT_OFF) true.

Definition SET_MODEL_1 : str := Eval vm_compute in lit "わかった！これからの会話は `".
Definition SET_MODEL_2 : str := Eval vm_compute in lit "` を使うね！".

(** [set_model_cmd] (lines 461-467). *)
Definition set_model_cmd (E : env) (user : Z) (model : str) : M unit :=
  let user_id := str_of_int user in
  (fun st => setitem (model_prefs st) user_id (JStr model) st) ;;
  save_bot_data E ;;
  respond (SET_MODEL_1 ++ model ++ SET_MODEL_2) true.

Definition RESET_DONE : str :=
  Eval vm_compute in lit "わかった！あなたの設定を全部忘れちゃった！".

(** [reset_my_settings_cmd] (lines 472-480). *)
Definition reset_my_settings_cmd (E : env) (user : Z) : M unit :=
  let user_id := str_of_int user in
  (fun st => pop (nicknames st) user_id st) ;;
  (fun st => pop (greeting_prefs st) user_id st) ;;
  (fun st => pop (silent_prefs st) user_id st) ;;
  (fun st => pop (model_prefs st) user_id st) ;;
  save_bot_data E ;;
  respond RESET_DONE true.

Definition MEMO_ADD_1 : str := Eval vm_compute in lit "「".
Definition MEMO_ADD_2 : str := Eval vm_compute in lit "」は「".
Definition MEMO_ADD_3 : str := Eval vm_compute in lit "」だね。覚えた！".

(** [memo_add] (lines 511-519).  A receiver that is no dictionary fails
    with a [TypeError] at the membership test or at the first item
    assignment. *)
Definition memo_add (E : env) (user : Z) (keyword content : str) : M unit :=
  let user_id := str_of_int user in
  (fun st =>
     match memos st with
     | Ref l =>
         let d := deref (heap st) l in
         let d1 := match dict_get user_id d with
                   | Some _ => d
                   | None => dict_set user_id (JObj []) d
                   end in
         match dict_get user_id d1 with
         | Some (JObj m) =>
             (Ok tt,
              with_heap (<[l := dict_set user_id
                                   (JObj (dict_set keyword (JStr content) m))
                                   d1]> (heap st)) st)
         | _ => (Raise TypeError, with_heap (<[l := d1]> (heap st)) st)
         end
     | _ => (Raise TypeError, st)
     end) ;;
  save_bot_data E ;;
  respond (MEMO_ADD_1 ++ keyword ++ MEMO_ADD_2 ++ content ++ MEMO_ADD_3) true.

(** *** The reads of one user's preferences *)

Definition NOT_YET : str := Eval vm_compute in lit "まだ覚えてないよ".
Definition DEFAULT_MODEL : str := Eval vm_compute in lit "gemini-1.5-flash".

(** [my_status_cmd], lines 486-489: the four values it shows. *)
Definition my_status (user : Z) : M (jval * jval * jval * jval) :=
  let user_id := str_of_int user in
  nickname <- (fun st => get_or (nicknames st) user_id (JStr NOT_YET) st) ;;
  greeting_on <- (fun st => get_or (greeting_prefs st) user_id (JBool false) st) ;;
  silent_on <- (fun st => get_or (silent_prefs st) user_id (JBool false) st) ;;
  model_name <- (fun st => get_or (model_prefs st) user_id (JStr DEFAULT_MODEL) st) ;;
  ret (nickname, greeting_on, silent_on, model_name).

(** [on_message], line 395: [self.memos.get(author_id_str, {})]. *)
Definition user_memos (user : Z) : M jval :=
  fun st => get_or (memos st) (str_of_int user) (JObj []) st.

(* ===================================================================== *)
(** ** The reply composer ([reply_helper], lines 339-353) *)
(* ===================================================================== *)

(** Truth value of a stored value, as [if] takes it. *)
Definition truthy (E : env) (v : jval) : bool :=
  match v with
  | JNull => false
  | JBool b => b
  | JNum n => number_is_true E n
  | JStr s => negb (bool_decide (s = []))
  | JArr l => negb (bool_decide (l = []))
  | JObj d => negb (bool_decide (d = []))
  end.

(** A value inside an f-string. *)
Definition format_value (E : env) (v : jval) : str :=
  match v with
  | JStr s => s
  | _ => str_of_value E v
  end.

(** The ideographic comma of [f"{nickname}、{final_reply}"]. *)
Definition IDEOGRAPHIC_COMMA : N := 0x3001.

(** The literal ["@silent\n"]. *)
Definition SILENT_MARKER : str := Eval vm_compute in lit "@silent" ++ [10].

(** Lines 340-347: the text that [reply_helper] sends. *)
Definition final_reply (E : env) (author_id_str display_name reply_text : str)
  : M str :=
  greeting <- (fun st => get_or (greeting_prefs st) author_id_str (JBool false) st) ;;
  greeted <-
    (if truthy E greeting then
       nickname <- (fun st => get_or (nicknames st) author_id_str
                                     (JStr display_name) st) ;;
       ret (format_value E nickname ++ IDEOGRAPHIC_COMMA :: reply_text)
     else ret reply_text) ;;
  silent <- (fun st => get_or (silent_prefs st) author_id_str (JBool false) st) ;;
  ret (if truthy E silent then
         if startswith greeted SILENT_MARKER then greeted
         else SILENT_MARKER ++ greeted
       else greeted).

Definition SEND_FORBIDDEN : str :=
  Eval vm_compute in lit "[Send] Forbidden: Missing permissions in channel".
Definition SEND_FAILED : str := Eval vm_compute in lit "[Send] Failed: ".

(** [reply_helper]; [channel] is [message.channel]. *)
Definition reply_helper (E : env) (channel : Z)
    (author_id_str display_name reply_text : str) : M unit :=
  text <- final_reply E author_id_str display_name reply_text ;;
  fun st =>
    let outcome := send E (journal st) channel text in
    let st1 := emit (Send channel text outcome) st in
    match outcome with
    | Delivered => (Ok tt, st1)
    | Forbidden _ => print SEND_FORBIDDEN st1
    | Failed msg => print (SEND_FAILED ++ msg) st1
    end.

(* ===================================================================== *)
(** ** The notification scheduler (lines 302-321, 658-706) *)
(* ===================================================================== *)

Local Open Scope Z_scope.

Definition TIMER_SEND_FAILED : str :=
  Eval vm_compute in lit "[Timer] send failed: ".

(** The condition of the comprehension, line 307.  Every entry has a
    "time", and a [datetime] is always true. *)
Definition is_due (now : Z) (t : timer) : bool := time t <=? now.

(** [l.remove(x)]: the first item equal to [x] goes; [None] is the
    [ValueError] of a list without one. *)
Fixpoint list_remove {A} `{EqDecision A} (x : A) (l : list A)
  : option (list A) :=
  match l with
  | [] => None
  | y :: l' =>
      if decide (x = y) then Some l'
      else match list_remove x l' with
           | Some r => Some (y :: r)
           | None => None
           end
  end.

(** [self.active_timers.remove(t)] under [try ... except ValueError: pass]. *)
Definition remove_timer (t : timer) (l : list timer) : list timer :=
  match list_remove t l with
  | Some l' => l'
  | None => l
  end.

(** The body of the loop, lines 310-321. *)
Definition fire (E : env) (t : timer) (st : state) : state :=
  let st1 :=
    match get_channel E (channel_id t) with
    | Some TextChannel | Some Thread =>
        let mention :=
          match get_user E (user_id t) with
          | Some m => m
          | None => lit "<@" ++ str_of_int (user_id t) ++ lit ">"
          end in
        let text := mention ++ 32%N :: message t in
        let outcome := send E (journal st) (channel_id t) text in
        let st' := emit (Send (channel_id t) text outcome) st in
        match outcome with
        | Delivered => st'
        | Forbidden msg | Failed msg => emit (Print (TIMER_SEND_FAILED ++ msg)) st'
        end
    | _ => st
    end in
  with_active_timers (remove_timer t (active_timers st1)) st1.

(** [check_timers] (lines 302-321), one run of the loop body of
    [tasks.loop]; [now] is [datetime.now(timezone.utc)]. *)
Definition check_timers (E : env) (now : Z) : M unit :=
  fun st =>
    let due := List.filter (is_due now) (active_timers st) in
    (Ok tt, fold_left (fun s t => fire E t s) due st).

Definition HOUR : Z := 3600000000.
Definition MINUTE : Z := 60000000.
Definition DAY : Z := 86400000000.

(** [message or dflt]. *)
Definition message_or (message : option str) (dflt : str) : str :=
  match message with
  | None | Some [] => dflt
  | Some m => m
  end.

Definition TIMER_ZERO : str := Eval vm_compute in lit "0時間0分は設定できないよ。".
Definition TIMER_DEFAULT : str := Eval vm_compute in lit "時間だよ！".
Definition TIMER_OK_1 : str := Eval vm_compute in lit "タイマーOK。".
Definition TIMER_OK_2 : str := Eval vm_compute in lit "時間".
Definition TIMER_OK_3 : str := Eval vm_compute in lit "分後に知らせるね。".

(** [timer_cmd] (lines 660-677).  [channel] and [user] are
    [interaction.channel.id] and [interaction.user.id]; [now] is
    [datetime.now(timezone.utc)].  The range of [datetime] (years 1 to
    9999) is not modelled. *)
Definition timer_cmd (now channel user hours minutes : Z)
    (message : option str) : M unit :=
  if (hours =? 0) && (minutes =? 0) then respond TIMER_ZERO true
  else
    let delta := hours * HOUR + minutes * MINUTE in
    let target_utc := now + delta in
    update (fun st =>
      with_active_timers
        (active_timers st
         ++ [Timer target_utc channel user (message_or message TIMER_DEFAULT)])
        st) ;;
    respond (TIMER_OK_1 ++ str_of_int hours ++ TIMER_OK_2
             ++ str_of_int minutes ++ TIMER_OK_3) false.

(** Month and day of a day number (days since 1970-01-01), for
    [strftime("%m/%d")]. *)
Definition month_day (days : Z) : Z * Z :=
  let z := days + 719468 in
  let era := z / 146097 in
  let doe := z - era * 146097 in
  let yoe := (doe - doe / 1460 + doe / 36524 - doe / 146096) / 365 in
  let doy := doe - (365 * yoe + yoe / 4 - yoe / 100) in
  let mp := (5 * doy + 2) / 153 in
  let d := doy - (153 * mp + 2) / 5 + 1 in
  let m := if mp <? 10 then mp + 3 else mp - 9 in
  (m, d).

(** [dt.replace(hour=..., minute=..., second=0, microsecond=0)] on the wall
    clock; [None] is the [ValueError] of a field out of range. *)
Definition replace_time (wall hour minute : Z) : option Z :=
  if (0 <=? hour) && (hour <? 24) && (0 <=? minute) && (minute <? 60)
  then Some (wall / DAY * DAY + hour * HOUR + minute * MINUTE)
  else None.

(** [dt.astimezone(timezone.utc)] of a local time of zone [tz]. *)
Definition astimezone_utc (tz : tzinfo) (local : Z * bool) : Z :=
  local.1 - utcoffset tz local.1 local.2.

(** Lines 686-697: the local time the alarm is set to.  Two local times of
    the same zone compare by their wall clocks; adding a [timedelta] moves
    the wall clock and leaves [fold] at 0. *)
Definition alarm_target (tz : tzinfo) (now hour minute : Z)
  : option (Z * bool) :=
  let now_local := fromutc tz now in
  match replace_time now_local.1 hour minute with
  | None => None
  | Some wall =>
      Some (if wall <=? now_local.1 then (wall + DAY, false)
            else (wall, now_local.2))
  end.

Definition ALARM_BAD : str := Eval vm_compute in lit "その時刻はおかしいかも。".
Definition ALARM_DEFAULT : str := Eval vm_compute in lit "起きて！".
Definition ALARM_OK_1 : str := Eval vm_compute in lit "アラームOK。".
Definition ALARM_OK_2 : str := Eval vm_compute in lit " に知らせるね。".

(** [alarm_cmd] (lines 682-706). *)
Definition alarm_cmd (E : env) (now channel user hour minute : Z)
    (message : option str) : M unit :=
  match alarm_target (TZ E) now hour minute with
  | None => respond ALARM_BAD true
  | Some target_local =>
      let target_utc := astimezone_utc (TZ E) target_local in
      update (fun st =>
        with_active_timers
          (active_timers st
           ++ [Timer target_utc channel user (message_or message ALARM_DEFAULT)])
          st) ;;
      let '(m, d) := month_day (target_local.1 / DAY) in
      let disp_day := format_02d m ++ 47%N :: format_02d d in
      respond (ALARM_OK_1 ++ disp_day ++ 32%N :: format_02d hour
               ++ 58%N :: format_02d minute ++ ALARM_OK_2) false
  end.

(* ===================================================================== *)
(** ** A concrete outside world, for examples *)
(* ===================================================================== *)

(** Asia/Tokyo, the default of [BOT_TZ]: nine hours ahead of UTC, no
    daylight saving time. *)
Definition tokyo : tzinfo :=
  {| utcoffset := fun _ _ => 9 * HOUR;
     fromutc := fun u => (u + 9 * HOUR, false) |}.

(** No system call fails, every message is delivered, channel 1 is a text
    channel and no other channel is known. *)
Definition calm : env :=
  {| open_fails := fun _ => false;
     read_fails := fun _ => false;
     write_fails := fun _ => false;
     replace_fails := fun _ => false;
     torn := fun _ => [];
     get_channel := fun c => if c =? 1 then Some TextChannel else None;
     get_user := fun _ => None;
     send := fun _ _ _ => Delivered;
     os_error_text := [];
     number_is_true := fun _ => true;
     str_of_value := fun _ => [];
     TZ := tokyo |}.

(** The client started in an empty directory. *)
Definition started : state := (init calm (boot [])).2.

(** User 42 is called Aki and wants to be greeted. *)
Definition aki : state :=
  (set_greeting_cmd calm 42 ON (set_name_cmd calm 42 (lit "Aki") started).2).2.

(** The same user, in silent mode as well. *)
Definition aki_silent : state := (set_silent_cmd calm 42 ON aki).2.

(** How many times the silent marker stands at the head of a text. *)
Fixpoint marker_count (s : str) : nat :=
  match s with
  | _ :: _ :: _ :: _ :: _ :: _ :: _ :: _ :: rest =>
      if startswith s SILENT_MARKER then S (marker_count rest) else O
  | _ => O
  end.

(* ===================================================================== *)
(** ** Notions used in the statements *)
(* ===================================================================== *)

(** What lines 340-347 compute, once the three reads are done. *)
Definition compose (greeting : bool) (name : str) (silent : bool)
    (reply_text : str) : str :=
  let greeted :=
    if greeting then name ++ IDEOGRAPHIC_COMMA :: reply_text
    else reply_text in
  if silent then
    if startswith greeted SILENT_MARKER then greeted
    else SILENT_MARKER ++ greeted
  else greeted.

(** Removing the entries of [ts] from [l], one after the other. *)
Definition remove_all (ts l : list timer) : list timer :=
  fold_left (fun l t => remove_timer t l) ts l.

(** Whether line 311 lets the entry through. *)
Definition deliverable (E : env) (t : timer) : bool :=
  match get_channel E (channel_id t) with
  | Some TextChannel | Some Thread => true
  | _ => false
  end.

(** The text of line 315. *)
Definition notification (E : env) (t : timer) : str :=
  match get_user E (user_id t) with
  | Some m => m
  | None => lit "<@" ++ str_of_int (user_id t) ++ lit ">"
  end ++ 32%N :: message t.

(** The delivery attempts recorded in a journal. *)
Fixpoint attempts (j : list event) : list (Z * str) :=
  match j with
  | [] => []
  | Send c text _ :: j' => (c, text) :: attempts j'
  | _ :: j' => attempts j'
  end.

(** The sends that raised, and the lines [check_timers] prints for them. *)
Fixpoint failed_sends (j : list event) : nat :=
  match j with
  | [] => O
  | Send _ _ (Forbidden _) :: j' | Send _ _ (Failed _) :: j' =>
      S (failed_sends j')
  | _ :: j' => failed_sends j'
  end.

Fixpoint timer_logs (j : list event) : nat :=
  match j with
  | [] => O
  | Print text :: j' =>
      if startswith text TIMER_SEND_FAILED then S (timer_logs j')
      else timer_logs j'
  | _ :: j' => timer_logs j'
  end.

(** The heap after [k] was popped at each location of [ls] in turn. *)
Definition popped_heap (k : str) (ls : list nat) (h : list (pydict jval))
  : list (pydict jval) :=
  fold_left (fun h l => <[l := dict_pop k (deref h l)]> h) ls h.

(** The temporary file of [atomic_write_json DATA_FILE]. *)
Definition TMP_FILE : str := DATA_FILE ++ lit ".tmp".

(** No system call on the two files fails. *)
Definition disk_works (E : env) : Prop :=
  open_fails E TMP_FILE = false /\ write_fails E TMP_FILE = false
  /\ replace_fails E TMP_FILE = false
  /\ open_fails E DATA_FILE = false /\ read_fails E DATA_FILE = false.

(** What [save_bot_data] binds in [bot_data]: the five attributes. *)
Definition bound_document (st : state) : pydict pyval :=
  dict_set K_model_prefs (model_prefs st)
    (dict_set K_memos (memos st)
       (dict_set K_silent_prefs (silent_prefs st)
          (dict_set K_greeting_prefs (greeting_prefs st)
             (dict_set K_nicknames (nicknames st) (bot_data st))))).

(** [load_data] takes the default: no file, or an exception that line 56
    catches. *)
Definition falls_back (E : env) (st : state) : Prop :=
  path_exists DATA_FILE st = false
  \/ json_load E DATA_FILE st = Raise OSError
  \/ json_load E DATA_FILE st = Raise JSONDecodeError.

(** The disk refuses [os.replace]: a save fails and leaves the data file
    as it was. *)
Definition read_only : env :=
  {| open_fails := open_fails calm;
     read_fails := read_fails calm;
     write_fails := write_fails calm;
     replace_fails := fun _ => true;
     torn := torn calm;
     get_channel := get_channel calm;
     get_user := get_user calm;
     send := send calm;
     os_error_text := os_error_text calm;
     number_is_true := number_is_true calm;
     str_of_value := str_of_value calm;
     TZ := TZ calm |}.

Local Open Scope N_scope.






(** *** The preference document of the specification *)







Local Open Scope Z_scope.

(** The client of user 42 after a memo was added. *)
Definition remembering : state :=
  (memo_add calm 42 (lit "k") (lit "v") aki_silent).2.





(* ===================================================================== *)
(** ** Text, as the handlers below take it apart *)
(* ===================================================================== *)

Section Text.
Local Open Scope N_scope.

(** [sub in s], for two strings. *)
Fixpoint contains (s sub : str) : bool :=
  startswith s sub
  || match s with
     | [] => false
     | _ :: s' => contains s' sub
     end.

(** [c.isspace()]: the characters that [str.strip()] removes and that the
    class [\s] of a regular expression matches. *)
Definition isspace (c : N) : bool :=
  ((0x09 <=? c) && (c <=? 0x0D)) || ((0x1C <=? c) && (c <=? 0x20))
  || (c =? 0x85) || (c =? 0xA0) || (c =? 0x1680)
  || ((0x2000 <=? c) && (c <=? 0x200A))
  || (c =? 0x2028) || (c =? 0x2029) || (c =? 0x202F) || (c =? 0x205F)
  || (c =? 0x3000).

Fixpoint lstrip (s : str) : str :=
  match s with
  | c :: r => if isspace c then lstrip r else s
  | [] => []
  end.

(** [s.strip()]. *)
Definition strip (s : str) : str := rev (lstrip (rev (lstrip s))).

(** [sep.join(items)]. *)
Fixpoint str_join (sep : str) (items : list str) : str :=
  match items with
  | [] => []
  | [x] => x
  | x :: rest => x ++ sep ++ str_join sep rest
  end.

(** The characters of the class in [r"[|,、\s]+"]. *)
Definition is_sep (c : N) : bool :=
  (c =? 124) || (c =? 44) || (c =? 0x3001) || isspace c.

(** [re.split(r"[|,、\s]+", s)]: what stands between the runs of
    separators, with an empty string before a leading run and after a
    trailing one. *)
Fixpoint re_split (s : str) : list str :=
  match s with
  | [] => [[]]
  | c :: r =>
      match re_split r with
      | p :: ps =>
          if is_sep c then
            match r with
            | c' :: _ => if is_sep c' then p :: ps else [] :: p :: ps
            | [] => [] :: p :: ps
            end
          else (c :: p) :: ps
      | [] => [[c]]
      end
  end.

End Text.

(** A dictionary with [int] keys. *)
Section IntDict.
Context {V : Type}.

Fixpoint int_get (k : Z) (d : list (Z * V)) : option V :=
  match d with
  | [] => None
  | (k', v) :: d' => if decide (k = k') then Some v else int_get k d'
  end.

Fixpoint int_set (k : Z) (v : V) (d : list (Z * V)) : list (Z * V) :=
  match d with
  | [] => [(k, v)]
  | (k', v') :: d' =>
      if decide (k = k') then (k', v) :: d' else (k', v') :: int_set k v d'
  end.
End IntDict.

(* ===================================================================== *)
(** ** What else the handlers take from outside *)
(* ===================================================================== *)

(** What a call of [model.generate_content] comes to, seen from
    [_run_sync]. *)
Inductive generation :=
| Parts (text : str)             (* [response.parts], and [response.text] *)
| NoParts (finish_reason : str)  (* no parts; the reason, as printed *)
| GenerationError (e : str).     (* an exception, as printed *)

Record world := {
  (** [client.user.name], [client.user.display_name] *)
  user_name : str;
  user_display_name : str;
  (** [message.channel.typing()] raises *)
  typing_fails : Z -> bool;
  (** the environment variable; the import and [genai.configure], with the
      exception they raise, if any; the request, given the model, the
      system instruction and the text *)
  GEMINI_API_KEY : option str;
  configure_error : option str;
  generate : jval -> str -> str -> generation;
  (** [str(e)] of the [AttributeError] of [v.items()] *)
  items_error : jval -> str;
  (** [random.random()] is [random_random / 2^53]; the calls of
      [_randbelow(n)] of one handler, by position; [random.sample] *)
  random_random : N;
  randbelow : nat -> nat -> nat;
  sample : list str -> nat -> list str
}.

(** [random.choice(seq)], the [i]-th draw of the handler: an item of the
    sequence, at a position below its length. *)
Definition choice {A} (W : world) (i : nat) (seq : list A) (dflt : A) : A :=
  nth (randbelow W i (length seq) mod length seq)%nat seq dflt.

(** [random.randint(a, b)]: [None] is the [ValueError] of an empty range. *)
Definition randint (W : world) (i : nat) (a b : Z) : option Z :=
  if b <? a then None
  else
    let width := Z.to_nat (b - a + 1) in
    Some (a + Z.of_nat (randbelow W i width mod width)%nat).

(** [random.random() < 0.30]: the float 0.30 is 5404319552844595 / 2^54. *)
Definition below_030 (W : world) : bool :=
  (random_random W * 2 <? 5404319552844595)%N.

(** What a command answers with, when it is more than a text. *)
Inductive colour := green | purple | teal | blurple.

Record embed_field := EmbedField {
  field_name : str;
  field_value : str;
  field_inline : bool
}.

Record embed := Embed {
  embed_title : str;
  embed_description : option str;
  embed_colour : colour;
  embed_fields : list embed_field;
  embed_footer : option str
}.

Inductive reply :=
| Message (content : str) (ephemeral : bool)
| Embedded (e : embed) (ephemeral : bool)
| Attached (content filename : str) (data : bytes) (ephemeral : bool).

(* ===================================================================== *)
(** ** Memos (lines 522-560) *)
(* ===================================================================== *)

(** [v.get(k)] on a stored value: only a dictionary has the method. *)
Definition jget (v : jval) (k : str) : res jval :=
  match v with
  | JObj d => Ok (default JNull (dict_get k d))
  | _ => Raise AttributeError
  end.

(** [x in v] for a string [x]: a key of a dictionary, an item of a list, a
    part of a string; the other values are not iterable. *)
Definition str_in (x : str) (v : jval) : res bool :=
  match v with
  | JObj d => Ok (bool_decide (is_Some (dict_get x d)))
  | JArr l => Ok (bool_decide (JStr x ∈ l))
  | JStr s => Ok (contains s x)
  | _ => Raise TypeError
  end.

Definition MEMO_SHOW_3 : str := Eval vm_compute in lit "」だよ！".
Definition MEMO_UNKNOWN_1 : str := Eval vm_compute in lit "ごめん、「".
Definition MEMO_UNKNOWN_2 : str :=
  Eval vm_compute in lit "」についてはまだ知らないや…".

(** [memo_show] (lines 524-532). *)
Definition memo_show (E : env) (user : Z) (keyword : str) : M unit :=
  let user_id := str_of_int user in
  user_memos <- (fun st => get_or (memos st) user_id (JObj []) st) ;;
  match jget user_memos keyword with
  | Raise e => raise e
  | Ok content =>
      if truthy E content
      then respond (MEMO_ADD_1 ++ keyword ++ MEMO_ADD_2
                    ++ format_value E content ++ MEMO_SHOW_3) true
      else respond (MEMO_UNKNOWN_1 ++ keyword ++ MEMO_UNKNOWN_2) true
  end.

Definition MEMO_NONE : str := Eval vm_compute in lit "まだ何も覚えてないよ！".
Definition MEMO_LIST_TITLE : str := Eval vm_compute in lit "さんから教わったこと".

(** [memo_list] (lines 536-546); [display_name] is
    [interaction.user.display_name].  The answer is the value returned. *)
Definition memo_list (E : env) (user : Z) (display_name : str) : M reply :=
  let user_id := str_of_int user in
  user_memos <- (fun st => get_or (memos st) user_id (JObj []) st) ;;
  if negb (truthy E user_memos) then ret (Message MEMO_NONE true)
  else
    match user_memos with
    | JObj d =>
        let memo_list_text :=
          str_join [10%N] (map (fun key => [45%N; 32%N] ++ key) (dict_keys d)) in
        ret (Embedded (Embed (display_name ++ MEMO_LIST_TITLE)
                             (Some memo_list_text) purple [] None) true)
    | _ => raise AttributeError
    end.

Definition MEMO_FORGET_2 : str := Eval vm_compute in lit "」のこと、忘れちゃった！".
Definition MEMO_NEVER_2 : str :=
  Eval vm_compute in lit "」については元から知らなかったみたい…".

(** [memo_forget] (lines 551-560).  Subscripting or [del] on a value that
    is no dictionary is a [TypeError]. *)
Definition memo_forget (E : env) (user : Z) (keyword : str) : M unit :=
  let user_id := str_of_int user in
  let never := respond (MEMO_UNKNOWN_1 ++ keyword ++ MEMO_NEVER_2) true in
  fun st =>
    match str_in user_id (to_json_value (heap st) (memos st)) with
    | Raise e => (Raise e, st)
    | Ok false => never st
    | Ok true =>
        match memos st with
        | Ref l =>
            let d := deref (heap st) l in
            let mine := default JNull (dict_get user_id d) in
            match str_in keyword mine with
            | Raise e => (Raise e, st)
            | Ok false => never st
            | Ok true =>
                match mine with
                | JObj m =>
                    (update (with_heap
                               (<[l := dict_set user_id
                                         (JObj (dict_pop keyword m)) d]>
                                  (heap st))) ;;
                     save_bot_data E ;;
                     respond (MEMO_ADD_1 ++ keyword ++ MEMO_FORGET_2) true) st
                | _ => (Raise TypeError, st)
                end
            end
        | _ => (Raise TypeError, st)
        end
    end.

(* ===================================================================== *)
(** ** The commands of the administrators (lines 568-623) *)
(* ===================================================================== *)

(** Lines 570-573 and 588-591.  [guild] is [interaction.guild], given by
    the id of its owner; [manage_guild] is the permission of the member. *)
Definition is_admin (user : Z) (guild : option Z) (manage_guild : bool)
  : bool :=
  match guild with
  | Some owner_id => (user =? owner_id) || manage_guild
  | None => false
  end.

(** [o.clear()] on the attribute bound under [key]: a dictionary is emptied
    in place; so is a list, which is the object that [bot_data] holds under
    the key; nothing else has the method. *)
Definition clear (key : str) (o : pyval) (rebind : pyval -> state -> state)
  : M unit :=
  fun st =>
    match o with
    | Ref l => (Ok tt, with_heap (<[l := []]> (heap st)) st)
    | PList _ =>
        let d := match dict_get key (bot_data st) with
                 | Some _ => dict_set key (PList []) (bot_data st)
                 | None => bot_data st
                 end in
        (Ok tt, rebind (PList []) (with_bot_data d st))
    | _ => (Raise AttributeError, st)
    end.

Definition with_nicknames (o : pyval) (st : state) : state :=
  State (heap st) (files st) (journal st) (bot_data st) o
        (greeting_prefs st) (silent_prefs st) (memos st) (model_prefs st)
        (active_timers st).

Definition with_greeting_prefs (o : pyval) (st : state) : state :=
  State (heap st) (files st) (journal st) (bot_data st) (nicknames st)
        o (silent_prefs st) (memos st) (model_prefs st) (active_timers st).

Definition with_silent_prefs (o : pyval) (st : state) : state :=
  State (heap st) (files st) (journal st) (bot_data st) (nicknames st)
        (greeting_prefs st) o (memos st) (model_prefs st) (active_timers st).

Definition with_memos (o : pyval) (st : state) : state :=
  State (heap st) (files st) (journal st) (bot_data st) (nicknames st)
        (greeting_prefs st) (silent_prefs st) o (model_prefs st)
        (active_timers st).

Definition with_model_prefs (o : pyval) (st : state) : state :=
  State (heap st) (files st) (journal st) (bot_data st) (nicknames st)
        (greeting_prefs st) (silent_prefs st) (memos st) o (active_timers st).

Definition ADMIN_ONLY : str := Eval vm_compute in lit "このコマンドは管理者専用だよ！".
Definition ALL_CLEAR : str := Eval vm_compute in lit "オールクリア！まっさらにしたよ。".

(** [all_erase_cmd] (lines 569-583). *)
Definition all_erase_cmd (E : env) (user : Z) (guild : option Z)
    (manage_guild : bool) : M unit :=
  if negb (is_admin user guild manage_guild) then respond ADMIN_ONLY true
  else
    (fun st => clear K_nicknames (nicknames st) with_nicknames st) ;;
    (fun st => clear K_greeting_prefs (greeting_prefs st)
                     with_greeting_prefs st) ;;
    (fun st => clear K_silent_prefs (silent_prefs st) with_silent_prefs st) ;;
    (fun st => clear K_memos (memos st) with_memos st) ;;
    (fun st => clear K_model_prefs (model_prefs st) with_model_prefs st) ;;
    save_bot_data E ;;
    respond ALL_CLEAR true.

Definition K_scope : str := Eval vm_compute in lit "scope".
Definition SCOPE_ALL : str := Eval vm_compute in lit "all".
Definition SCOPE_SELF : str := Eval vm_compute in lit "self".

(** [{uid: o.get(uid)} if uid in o else {}], lines 598-600 and 607-612. *)
Definition own_entry (o : pyval) (uid : str) (dflt : jval) : M jval :=
  fun st =>
    match str_in uid (to_json_value (heap st) o) with
    | Raise e => (Raise e, st)
    | Ok false => (Ok (JObj []), st)
    | Ok true =>
        (v <- get_or o uid dflt ;; ret (JObj [(uid, v)])) st
    end.

(** [{uid: o.get(uid, False)}], lines 601-606. *)
Definition own_flag (o : pyval) (uid : str) : M jval :=
  v <- get_or o uid (JBool false) ;; ret (JObj [(uid, v)]).

(** Lines 588-613: the dictionary [data]. *)
Definition memory_read_data (user : Z) (guild : option Z)
    (manage_guild : bool) : M (pydict jval) :=
  let can_view_all := is_admin user guild manage_guild in
  let uid := str_of_int user in
  if can_view_all then
    fun st =>
      (Ok (fold_left (fun d kv => dict_set kv.1 (to_json_value (heap st) kv.2) d)
                     (bot_data st) [(K_scope, JStr SCOPE_ALL)]), st)
  else
    n <- (fun st => own_entry (nicknames st) uid JNull st) ;;
    g <- (fun st => own_flag (greeting_prefs st) uid st) ;;
    s <- (fun st => own_flag (silent_prefs st) uid st) ;;
    m <- (fun st => own_entry (memos st) uid (JObj []) st) ;;
    p <- (fun st => own_entry (model_prefs st) uid JNull st) ;;
    ret (fold_left (fun d kv => dict_set kv.1 kv.2 d)
                   [(K_nicknames, n); (K_greeting_prefs, g);
                    (K_silent_prefs, s); (K_memos, m); (K_model_prefs, p)]
                   [(K_scope, JStr SCOPE_SELF)]).

Definition MEMORY_ATTACHED : str := Eval vm_compute in lit "記憶データを添付したよ。".
Definition MEMORY_FILE : str := Eval vm_compute in lit "shikaku_memory.json".
Definition CODE_OPEN : str := Eval vm_compute in lit "```json" ++ [10%N].
Definition CODE_CLOSE : str := Eval vm_compute in 10%N :: lit "```".

(** [memory_read_cmd] (lines 587-623).  The answer is the value
    returned. *)
Definition memory_read_cmd (user : Z) (guild : option Z)
    (manage_guild : bool) : M reply :=
  data <- memory_read_data user guild manage_guild ;;
  let text := dumps (JObj data) in
  if (1800 <? length text)%nat then
    match Utf8.encode text with
    | Some fp => ret (Attached MEMORY_ATTACHED MEMORY_FILE fp true)
    | None => raise UnicodeEncodeError
    end
  else ret (Message (CODE_OPEN ++ text ++ CODE_CLOSE) true).

(* ===================================================================== *)
(** ** Chatting ([chat_cmd], lines 419-425; [ask_gemini_async], lines
       74-144; [on_message], lines 327-398) *)
(* ===================================================================== *)

Definition CHAT_1 : str := Eval vm_compute in lit "このチャンネルは **".
Definition CHAT_2 : str := Eval vm_compute in lit "** にするね".
Definition CHAT_ON : str := Eval vm_compute in lit "おしゃべり".
Definition CHAT_OFF : str := Eval vm_compute in lit "おしゃべりお休み".

(** [chat_cmd] (lines 419-425).  [chat_switch], which the state leaves out,
    is passed in and returned. *)
Definition chat_cmd (channel : Z) (mode : str) (chat_switch : list (Z * bool))
  : M (list (Z * bool)) :=
  let on := bool_decide (mode = ON) in
  let switched := int_set channel on chat_switch in
  respond (CHAT_1 ++ (if on then CHAT_ON else CHAT_OFF) ++ CHAT_2) true ;;
  ret switched.

(** [default_chat_on], set in line 261 and never changed. *)
Definition default_chat_on : bool := true.

Definition NO_KEY : str :=
  Eval vm_compute in lit "（エラー: GeminiのAPIキーが設定されてないみたい…）".
Definition MEMO_CONTEXT_HEAD : str :=
  Eval vm_compute in
    lit "ユーザーに関する以下の記憶情報を参考にして、会話をよりパーソナルなものにしてください。"
    ++ [10%N].
Definition MEMO_CONTEXT_NONE : str :=
  Eval vm_compute in lit "まだユーザーに関する記憶はありません。" ++ [10%N].
Definition SYSTEM_INSTRUCTION : str :=
  Eval vm_compute in
    lit "あなたは『しかくうつ』という名前のキャラクターです。やさしくて、活発で、少しぽんこつな男の子として、"
    ++ lit "フレンドリーかつ短い文章で返事をしてください。重要：顔文字は使わず、言葉だけで感情を表現してください。"
    ++ [10%N; 10%N].
Definition GEMINI_BLOCKED_LOG : str :=
  Eval vm_compute in lit "[Gemini] Response blocked or empty. Finish reason: ".
Definition GEMINI_BLOCKED : str :=
  Eval vm_compute in
    lit "（ごめん！その言葉、なんだかうまく話せないみたい…別の言い方で聞いてみてくれる？）".
Definition GEMINI_ERROR_LOG : str := Eval vm_compute in lit "[Gemini] error: ".
Definition GEMINI_ERROR : str :=
  Eval vm_compute in lit "（エラー: 今、頭の中がぐるぐるしてる…）".

(** Lines 87-92: [None] is the [AttributeError] of [user_memos.items()]. *)
Definition memo_context (E : env) (user_memos : jval) : option str :=
  if truthy E user_memos then
    match user_memos with
    | JObj d =>
        Some (MEMO_CONTEXT_HEAD
              ++ concat (map (fun kv => [45%N; 32%N] ++ kv.1 ++ [58%N; 32%N]
                                        ++ format_value E kv.2 ++ [10%N]) d))
    | _ => None
    end
  else Some (MEMO_CONTEXT_HEAD ++ MEMO_CONTEXT_NONE).

(** [ask_gemini_async] (lines 74-144). *)
Definition ask_gemini_async (E : env) (W : world) (message_text : str)
    (user_memos model_name : jval) : M str :=
  match GEMINI_API_KEY W with
  | None | Some [] => ret NO_KEY
  | Some _ =>
      let failed e := print (GEMINI_ERROR_LOG ++ e) ;; ret GEMINI_ERROR in
      match configure_error W with
      | Some e => failed e
      | None =>
          match memo_context E user_memos with
          | None => failed (items_error W user_memos)
          | Some context =>
              match generate W model_name (SYSTEM_INSTRUCTION ++ context)
                             message_text with
              | Parts text => ret text
              | NoParts reason =>
                  print (GEMINI_BLOCKED_LOG ++ reason) ;; ret GEMINI_BLOCKED
              | GenerationError e => failed e
              end
          end
      end
  end.

(** A message as [on_message] reads it. *)
Record incoming := Incoming {
  author_bot : bool;            (* [message.author.bot] *)
  in_guild : bool;              (* [message.guild] is not [None] *)
  msg_channel : Z;              (* [message.channel.id] *)
  content : str;                (* [message.content] *)
  author_id : Z;                (* [message.author.id] *)
  author_display_name : str     (* [message.author.display_name] *)
}.

Definition HAI : str := Eval vm_compute in lit "はい".

(** [dict_map], lines 365-383.  The last key and its value hold the mark
    U+200E between their second and their last character. *)
Definition dict_map : list (str * str) :=
  Eval vm_compute in
  [(lit "カツ丼", lit "いつだってたべたい！だいすき！");
   (lit "おやつ", lit "今日はなに？");
   (lit "アイス", lit "どの味にする？");
   (lit "リンキン・パーク", lit "心が叫んでる！");
   (lit "レイジ", lit "ゲリララジオ！");
   (lit "マリリン・マンソン", lit "かっこいい、あくのカリスマ");
   (lit "ニルヴァーナ", lit "なんだか叫びたい気分かも～");
   (lit "カート・コバーン", lit "とってもリスペクトしてるよ");
   (lit "ロック", lit "じぶんは、じぶんだ！");
   (lit "ギター", lit "今日はどの曲弾く？");
   (lit "へっぽこ", lit "へっぽこじゃない！");
   (lit "こんにちは", lit "ちわ！");
   (lit "やっほ～", lit "ちわ！");
   (lit "やあ", lit "ちわ！");
   (lit "hi", lit "ちわ！");
   (lit "ちわ！", lit "ちわ！");
   ([0x3118; 0x293; 0x200E; 0x301C]%N, [0x3118; 0x293; 0x200E; 0x301C]%N)].

(** The list of line 392. *)
Definition ACKS : list str :=
  Eval vm_compute in
  [lit "うんうん"; lit "なるほど～"; lit "そっかそっか"; lit "へぇ！";
   lit "はぇ～～"; lit "メモした！"].

(** Lines 358-398: the answer to a text, once the typing indicator was
    shown. *)
Definition on_message_answer (E : env) (W : world) (m : incoming) (text : str)
  : M unit :=
  let author_id_str := str_of_int (author_id m) in
  let reply_helper :=
    reply_helper E (msg_channel m) author_id_str (author_display_name m) in
  if bool_decide (text = user_name W)
     || bool_decide (text = user_display_name W)
  then reply_helper HAI
  else
    match List.find (fun kv => contains text kv.1) dict_map with
    | Some (_, v) => reply_helper v
    | None =>
        if below_030 W then reply_helper (choice W 0 ACKS [])
        else
          user_memos <- (fun st => get_or (memos st) author_id_str
                                          (JObj []) st) ;;
          model_name <- (fun st => get_or (model_prefs st) author_id_str
                                          (JStr DEFAULT_MODEL) st) ;;
          reply_text <- ask_gemini_async E W text user_memos model_name ;;
          reply_helper reply_text
    end.

(** How a run of [on_message] ends: it returns or raises, or the typing
    indicator raises, an exception of discord.py. *)
Inductive handled :=
| Handled (r : res unit)
| TypingFailed.

(** [on_message] (lines 327-398). *)
Definition on_message (E : env) (W : world) (chat_switch : list (Z * bool))
    (m : incoming) (st : state) : handled * state :=
  if author_bot m || negb (in_guild m) then (Handled (Ok tt), st)
  else if negb (default default_chat_on (int_get (msg_channel m) chat_switch))
  then (Handled (Ok tt), st)
  else
    let text := strip (content m) in
    if bool_decide (text = []) then (Handled (Ok tt), st)
    else if typing_fails W (msg_channel m) then (TypingFailed, st)
    else
      let '(r, st') := on_message_answer E W m text st in (Handled r, st').

(* ===================================================================== *)
(** ** Games (lines 851-942) *)
(* ===================================================================== *)

Definition DICE_TITLE : str := Eval vm_compute in lit "🎲 ダイス結果".
Definition DICE_FORMULA : str := Eval vm_compute in lit "式".
Definition DICE_TOTAL : str := Eval vm_compute in lit "合計".
Definition DICE_ROLLS : str := Eval vm_compute in lit "出目".
Definition DICE_NONE : str := Eval vm_compute in lit "(なし)".
Definition COMMA_SPACE : str := Eval vm_compute in lit ", ".
Definition ELLIPSIS : str := Eval vm_compute in lit ", …, ".

(** Line 855: [None] is the [ValueError] of [random.randint]. *)
Fixpoint dice_rolls (W : world) (sides : Z) (draws : list nat)
  : option (list Z) :=
  match draws with
  | [] => Some []
  | i :: draws' =>
      match randint W i 1 sides with
      | None => None
      | Some r => cons r <$> dice_rolls W sides draws'
      end
  end.

(** [sum(rolls)]. *)
Definition sum (l : list Z) : Z := fold_left Z.add l 0.

(** Lines 859-864. *)
Definition rolls_text (rolls : list Z) : str :=
  if (50 <? length rolls)%nat then
    let head := str_join COMMA_SPACE (map str_of_int (take 25 rolls)) in
    let tail := str_join COMMA_SPACE
                  (map str_of_int (drop (length rolls - 25) rolls)) in
    head ++ ELLIPSIS ++ tail
  else str_join COMMA_SPACE (map str_of_int rolls).

(** Lines 866-867. *)
Definition mod_text (plus : option Z) : str :=
  match plus with
  | Some p =>
      if 0 <? p then lit " + " ++ str_of_int p
      else if p <? 0 then lit " - " ++ str_of_int (Z.abs p)
      else []
  | None => []
  end.

(** [dice_cmd] (lines 851-872): the answer; [None] is the [ValueError] of
    [random.randint]. *)
Definition dice_cmd (W : world) (count sides : Z) (plus : option Z)
  : option reply :=
  match dice_rolls W sides (seq 0 (Z.to_nat count)) with
  | None => None
  | Some rolls =>
      let total := sum rolls + default 0 plus in
      let text := rolls_text rolls in
      Some (Embedded
              (Embed DICE_TITLE None teal
                 [EmbedField DICE_FORMULA
                    (str_of_int count ++ 100%N :: str_of_int sides
                     ++ mod_text plus) true;
                  EmbedField DICE_TOTAL (str_of_int total) true;
                  EmbedField DICE_ROLLS
                    (match text with [] => DICE_NONE | _ => text end) false]
                 None)
              false)
  end.

Definition ROCK : str := Eval vm_compute in lit "グー".
Definition SCISSORS : str := Eval vm_compute in lit "チョキ".
Definition PAPER : str := Eval vm_compute in lit "パー".

(** [bot_map] and [rules], lines 882 and 887. *)
Definition bot_map : pydict str :=
  Eval vm_compute in
  [(ROCK, lit "✊"); (SCISSORS, lit "✌️"); (PAPER, lit "🖐️")].

Definition rules : pydict str :=
  [(ROCK, SCISSORS); (SCISSORS, PAPER); (PAPER, ROCK)].

Definition RPS_DRAW : str := Eval vm_compute in lit "引き分け！もう一戦いく？".
Definition RPS_WIN : str := Eval vm_compute in lit "勝ち！やるじゃん！".
Definition RPS_LOSE : str := Eval vm_compute in lit "負け！ドンマイ、次は勝とう。".
Definition RPS_TITLE : str := Eval vm_compute in lit "✊✌️🖐️ じゃんけん".
Definition RPS_YOU : str := Eval vm_compute in lit "あなた".
Definition RPS_BOT : str := Eval vm_compute in lit "しかくうつ".
Definition RPS_RESULT : str := Eval vm_compute in lit "結果".

(** Lines 888-893: [None] is the [KeyError] of [rules[you]]. *)
Definition rps_result (you bot : str) : option str :=
  if bool_decide (you = bot) then Some RPS_DRAW
  else
    match dict_get you rules with
    | None => None
    | Some beaten =>
        Some (if bool_decide (beaten = bot) then RPS_WIN else RPS_LOSE)
    end.

(** [rps_cmd] (lines 880-899): the answer; [None] is a [KeyError]. *)
Definition rps_cmd (W : world) (hand : str) : option reply :=
  let you := hand in
  let bot := choice W 0 (dict_keys bot_map) [] in
  match rps_result you bot, dict_get you bot_map, dict_get bot bot_map with
  | Some result, Some you_sign, Some bot_sign =>
      Some (Embedded
              (Embed RPS_TITLE None blurple
                 [EmbedField RPS_YOU (you_sign ++ 32%N :: you) true;
                  EmbedField RPS_BOT (bot_sign ++ 32%N :: bot) true;
                  EmbedField RPS_RESULT result false]
                 None)
              false)
  | _, _, _ => None
  end.

(** Line 914: the candidates. *)
Definition which_items (options : str) : list str :=
  List.filter (fun s => negb (bool_decide (s = [])))
              (map strip (re_split options)).

(** Lines 917-922: [seen] and [dedup]. *)
Fixpoint which_dedup (seen : list str) (items : list str) : list str :=
  match items with
  | [] => []
  | x :: items' =>
      if bool_decide (x ∈ seen) then which_dedup seen items'
      else x :: which_dedup (x :: seen) items'
  end.

Definition WHICH_FEW : str :=
  Eval vm_compute in lit "候補は2つ以上入れてね。例：/which ラーメン, カレー, 寿司".
Definition WHICH_MANY : str :=
  Eval vm_compute in lit "unique=真 のときは、選ぶ数は候補数以下にしてね。".
Definition WHICH_TITLE : str := Eval vm_compute in lit "🎯 ランダムチョイス".
Definition WHICH_CANDIDATES : str := Eval vm_compute in lit "候補".
Definition WHICH_PICKED : str := Eval vm_compute in lit "選ばれたのは…".
Definition WHICH_REPEATS : str := Eval vm_compute in lit "※ 重複ありで選んでいます".
Definition SLASH : str := Eval vm_compute in lit " / ".

(** [which_cmd] (lines 909-942): the answer; [None] is the [ValueError] of
    [random.sample] for a negative [n]. *)
Definition which_cmd (W : world) (options : str) (n : Z) (unique : bool)
  : option reply :=
  let dedup := which_dedup [] (which_items options) in
  if (length dedup <? 2)%nat then Some (Message WHICH_FEW true)
  else if unique && (Z.of_nat (length dedup) <? n)
  then Some (Message WHICH_MANY true)
  else if unique && (n <? 0) then None
  else
    let picks :=
      if unique then sample W dedup (Z.to_nat n)
      else map (fun i => choice W i dedup []) (seq 0 (Z.to_nat n)) in
    Some (Embedded
            (Embed WHICH_TITLE None green
               [EmbedField WHICH_CANDIDATES
                  (take 1000 (str_join COMMA_SPACE dedup)) false;
                EmbedField WHICH_PICKED (str_join SLASH picks) false]
               (if negb unique && (1 <? n) then Some WHICH_REPEATS else None))
            false).

(* ===================================================================== *)
(** ** Notions used in the statements about these handlers *)
(* ===================================================================== *)

(** Two states with the same heap and the same five attributes: every read
    of a preference or of a memo gives the same in both. *)
Definition same_memory (st st' : state) : Prop :=
  heap st' = heap st /\ nicknames st' = nicknames st
  /\ greeting_prefs st' = greeting_prefs st
  /\ silent_prefs st' = silent_prefs st /\ memos st' = memos st
  /\ model_prefs st' = model_prefs st.

(** What the five maps hold for one user; [None] for an attribute that is
    not a dictionary. *)
Definition own_entries (user : Z) (st : state) : list (option (option jval)) :=
  map (fun o => match o with
                | Ref l => Some (dict_get (str_of_int user) (deref (heap st) l))
                | _ => None
                end)
      [nicknames st; greeting_prefs st; silent_prefs st; memos st;
       model_prefs st].

(** What a handler that only sends and prints leaves as it was. *)
Definition untouched (st st' : state) : Prop :=
  same_memory st st' /\ files st' = files st
  /\ bot_data st' = bot_data st /\ active_timers st' = active_timers st.

(** A world for examples: the client is called shikaku, the typing
    indicator works, there is no API key, every random draw is 0. *)
Definition still : world :=
  {| user_name := lit "shikaku";
     user_display_name := lit "shikaku";
     typing_fails := fun _ => false;
     GEMINI_API_KEY := None;
     configure_error := None;
     generate := fun _ _ _ => Parts [];
     items_error := fun _ => [];
     random_random := 0%N;
     randbelow := fun _ _ => 0%nat;
     sample := fun l n => take n l |}.

(** A message of user 42 in channel 1 of a guild. *)
Definition said (text : str) : incoming :=
  Incoming false true 1 text 42 (lit "Aki").

(** A text without a separator of [which_cmd], and a text of separators
    only. *)
Definition sep_free (w : str) : bool := forallb (fun c => negb (is_sep c)) w.

Definition all_sep (s : str) : bool := forallb is_sep s.

Local Open Scope Z_scope.


(* ===================================================================== *)
(** ** Facts about the reply composer *)
(* ===================================================================== *)

Section Reply.
Variable E : env.

Lemma get_or_state o k d st : (get_or o k d st).2 = st.
Proof. destruct o; reflexivity. Qed.

Lemma final_reply_compose author display text st g n s :
  (get_or (greeting_prefs st) author (JBool false) st).1 = Ok g ->
  (truthy E g = true ->
   (get_or (nicknames st) author (JStr display) st).1 = Ok n) ->
  (get_or (silent_prefs st) author (JBool false) st).1 = Ok s ->
  final_reply E author display text st
  = (Ok (compose (truthy E g) (format_value E n) (truthy E s) text), st).
Proof.
  intros Hg Hn Hs. unfold final_reply, bind, ret, compose.
  destruct (greeting_prefs st); try discriminate. simpl in Hg |- *.
  injection Hg as <-.
  destruct (truthy E _) eqn:Tg.
  - specialize (Hn eq_refl).
    destruct (nicknames st); try discriminate. simpl in Hn |- *.
    injection Hn as <-.
    destruct (silent_prefs st); try discriminate. simpl in Hs |- *.
    injection Hs as <-. reflexivity.
  - destruct (silent_prefs st); try discriminate. simpl in Hs |- *.
    injection Hs as <-. reflexivity.
Qed.

(** A successful composition is a [compose], with flags and a name that
    do not depend on the text. *)
Lemma final_reply_inv author display st :
  forall text r,
    (final_reply E author display text st).1 = Ok r ->
    exists g name s,
      forall text',
        final_reply E author display text' st
        = (Ok (compose g name s text'), st).
Proof.
  intros text r. unfold final_reply, bind, ret.
  destruct (greeting_prefs st) as [lg| | | | |]; simpl; try discriminate.
  destruct (truthy E _) eqn:Tg.
  - destruct (nicknames st) as [ln| | | | |]; simpl; try discriminate.
    destruct (silent_prefs st) as [ls| | | | |]; simpl; try discriminate.
    intros _. eexists true, _, _. intros text'. unfold compose. reflexivity.
  - destruct (silent_prefs st) as [ls| | | | |]; simpl; try discriminate.
    intros _. eexists false, [], _. intros text'. unfold compose. reflexivity.
Qed.
End Reply.

Lemma startswith_marker_app s :
  startswith (SILENT_MARKER ++ s) SILENT_MARKER = true.
Proof. reflexivity. Qed.

Lemma marker_count_app s :
  marker_count (SILENT_MARKER ++ s) = S (marker_count s).
Proof. reflexivity. Qed.

Lemma marker_count_none s :
  startswith s SILENT_MARKER = false -> marker_count s = O.
Proof.
  intros H. do 8 (destruct s as [|? s]; [reflexivity|]).
  cbn [marker_count]. rewrite H. reflexivity.
Qed.

Lemma marker_count_unfold a b c d e f g h rest :
  marker_count (a :: b :: c :: d :: e :: f :: g :: h :: rest)
  = if startswith (a :: b :: c :: d :: e :: f :: g :: h :: rest) SILENT_MARKER
    then S (marker_count rest) else O.
Proof. reflexivity. Qed.

Ltac split_tests :=
  repeat match goal with
         | |- context [N.eqb ?a ?b] =>
             lazymatch a with
             | IDEOGRAPHIC_COMMA => fail
             | _ => destruct (N.eqb a b)
             end; cbn [andb]
         end.

(** The comma after the name is no character of the marker, so whether
    the greeted text starts with the marker is decided inside the name. *)
Lemma startswith_greeted name x y :
  startswith (name ++ IDEOGRAPHIC_COMMA :: x) SILENT_MARKER
  = startswith (name ++ IDEOGRAPHIC_COMMA :: y) SILENT_MARKER.
Proof.
  do 8 (destruct name as [|? name];
        [cbn; split_tests; reflexivity|]).
  cbn. reflexivity.
Qed.

Lemma marker_count_greeted name :
  forall x y,
    marker_count (name ++ IDEOGRAPHIC_COMMA :: x)
    = marker_count (name ++ IDEOGRAPHIC_COMMA :: y).
Proof.
  remember (length name) as n eqn:Hn.
  revert name Hn. induction n as [n IH] using lt_wf_ind. intros name Hn x y.
  destruct (startswith (name ++ IDEOGRAPHIC_COMMA :: x) SILENT_MARKER) eqn:Hx.
  - pose proof Hx as Hy. rewrite (startswith_greeted name x y) in Hy.
    revert Hx Hy.
    do 8 (destruct name as [|? name];
          [cbn; split_tests; discriminate|]).
    intros Hx Hy. cbn [app] in *. rewrite !marker_count_unfold.
    rewrite Hx, Hy. f_equal.
    eapply IH; [|reflexivity]. subst n. simpl. lia.
  - rewrite (marker_count_none _ Hx).
    rewrite (startswith_greeted name x y) in Hx.
    rewrite (marker_count_none _ Hx). reflexivity.
Qed.

Lemma compose_twice_count g name s text :
  marker_count (compose g name s (compose g name s text))
  = marker_count (compose g name s text).
Proof.
  unfold compose. destruct g, s.
  - set (g1 := name ++ IDEOGRAPHIC_COMMA :: text).
    destruct (startswith g1 SILENT_MARKER) eqn:H1.
    + rewrite (startswith_greeted name g1 text). fold g1. rewrite H1.
      apply marker_count_greeted.
    + rewrite (startswith_greeted name (SILENT_MARKER ++ g1) text).
      fold g1. rewrite H1. rewrite !marker_count_app. f_equal.
      apply marker_count_greeted.
  - apply marker_count_greeted.
  - destruct (startswith text SILENT_MARKER) eqn:H1.
    + rewrite H1. reflexivity.
    + rewrite startswith_marker_app. reflexivity.
  - reflexivity.
Qed.

(** C2, the claim as written: greeted "Aki", the reply to "hello" is not
    the text "Aki, hello" with an ASCII comma and a space. *)
Lemma greeting_is_not_comma_space :
  (get_or (greeting_prefs aki) (lit "42") (JBool false) aki).1
  = Ok (JBool true)
  /\ (get_or (nicknames aki) (lit "42") (JStr (lit "someone")) aki).1
     = Ok (JStr (lit "Aki"))
  /\ (final_reply calm (lit "42") (lit "someone") (lit "hello") aki).1
     <> Ok (lit "Aki, hello").
Proof. vm_compute. repeat split. discriminate. Qed.

(** C2, amended: for a user whose greeting flag is on and whose stored
    nickname is "Aki", the reply to "hello" is the nickname, the
    ideographic comma U+3001 and the text, nothing between them; when the
    silent flag is on as well, the silent marker comes first, before the
    greeting. *)
Theorem greeting_then_silent (E : env) (author display : str) (st : state)
    (silent : bool) :
  (get_or (greeting_prefs st) author (JBool false) st).1 = Ok (JBool true) ->
  (get_or (nicknames st) author (JStr display) st).1 = Ok (JStr (lit "Aki")) ->
  (get_or (silent_prefs st) author (JBool false) st).1 = Ok (JBool silent) ->
  (final_reply E author display (lit "hello") st).1
  = Ok (if silent then lit "@silent" ++ 10%N :: lit "Aki、hello"
        else lit "Aki、hello").
Proof.
  intros Hg Hn Hs.
  rewrite (final_reply_compose E author display (lit "hello") st
             (JBool true) (JStr (lit "Aki")) (JBool silent) Hg (fun _ => Hn) Hs).
  destruct silent; reflexivity.
Qed.

Lemma greeting_then_silent_witness :
  (final_reply calm (lit "42") (lit "someone") (lit "hello") aki_silent).1
  = Ok (lit "@silent" ++ 10%N :: lit "Aki、hello").
Proof.
  apply (greeting_then_silent calm (lit "42") (lit "someone") aki_silent true);
    vm_compute; reflexivity.
Defined.

(** C5: whatever the flags and the stored nickname, composing the reply
    once more from a composed reply leaves the number of silent markers at
    its head unchanged. *)
Theorem reply_twice_same_marker_count (E : env) (author display : str)
    (st : state) (text once : str) :
  (final_reply E author display text st).1 = Ok once ->
  exists twice,
    (final_reply E author display once st).1 = Ok twice
    /\ marker_count twice = marker_count once.
Proof.
  intros H1.
  destruct (final_reply_inv E author display st text once H1)
    as (g & name & s & Hall).
  rewrite (Hall text) in H1. injection H1 as <-.
  eexists. split; [rewrite Hall; reflexivity|].
  apply compose_twice_count.
Qed.

Lemma reply_twice_same_marker_count_witness :
  exists twice,
    (final_reply calm (lit "42") (lit "someone")
                 (lit "@silent" ++ 10%N :: lit "Aki、hello") aki_silent).1
    = Ok twice
    /\ marker_count twice = 1%nat.
Proof.
  apply (reply_twice_same_marker_count calm (lit "42") (lit "someone")
           aki_silent (lit "hello")).
  vm_compute. reflexivity.
Defined.


(* ===================================================================== *)
(** ** Facts about the scheduler *)
(* ===================================================================== *)

Section ListRemove.
Context {A : Type} `{EqDecision A}.

Lemma list_remove_head (x : A) l : list_remove x (x :: l) = Some l.
Proof. simpl. destruct (decide (x = x)); congruence. Qed.

Lemma list_remove_skip (x y : A) l :
  x <> y ->
  list_remove x (y :: l)
  = match list_remove x l with Some r => Some (y :: r) | None => None end.
Proof. intros H. simpl. destruct (decide (x = y)); congruence. Qed.
End ListRemove.

Lemma remove_timer_head t l : remove_timer t (t :: l) = l.
Proof. unfold remove_timer. rewrite list_remove_head. reflexivity. Qed.

Lemma remove_timer_skip t a l :
  t <> a -> remove_timer t (a :: l) = a :: remove_timer t l.
Proof.
  intros H. unfold remove_timer. rewrite (list_remove_skip _ _ _ H).
  destruct (list_remove t l); reflexivity.
Qed.

(** Removing entries that all differ from the head leaves the head. *)
Lemma remove_all_skip ts a l :
  Forall (fun t => t <> a) ts ->
  remove_all ts (a :: l) = a :: remove_all ts l.
Proof.
  intros H. revert l. induction H as [|t ts Ht _ IH]; intros l.
  - reflexivity.
  - cbn [remove_all fold_left]. rewrite (remove_timer_skip _ _ _ Ht).
    apply IH.
Qed.

(** Lines 305-321 on the list alone: removing, one by one, the entries
    selected by a test leaves the entries that fail it. *)
Lemma remove_all_filter (p : timer -> bool) l :
  remove_all (List.filter p l) l = List.filter (fun t => negb (p t)) l.
Proof.
  induction l as [|a l IH].
  - reflexivity.
  - cbn [List.filter]. destruct (p a) eqn:Pa; cbn [negb].
    + cbn [remove_all fold_left]. rewrite remove_timer_head. exact IH.
    + rewrite remove_all_skip.
      * f_equal. exact IH.
      * apply List.Forall_forall. intros t Ht.
        apply List.filter_In in Ht as [_ Pt]. congruence.
Qed.

Section Scheduler.
Variable E : env.

Lemma attempts_app j1 j2 : attempts (j1 ++ j2) = attempts j1 ++ attempts j2.
Proof.
  induction j1 as [|e j1 IH]; [reflexivity|].
  destruct e; simpl; rewrite IH; reflexivity.
Qed.

Lemma fire_timers t st :
  active_timers (fire E t st) = remove_timer t (active_timers st).
Proof.
  unfold fire.
  destruct (get_channel E (channel_id t)) as [[| |]|]; try reflexivity;
    destruct (send E _ _ _); reflexivity.
Qed.

Lemma fire_frame t st :
  heap (fire E t st) = heap st /\ files (fire E t st) = files st
  /\ bot_data (fire E t st) = bot_data st
  /\ nicknames (fire E t st) = nicknames st
  /\ greeting_prefs (fire E t st) = greeting_prefs st
  /\ silent_prefs (fire E t st) = silent_prefs st
  /\ memos (fire E t st) = memos st
  /\ model_prefs (fire E t st) = model_prefs st.
Proof.
  unfold fire.
  destruct (get_channel E (channel_id t)) as [[| |]|]; cbn;
    try (destruct (send E _ _ _); cbn); repeat split.
Qed.

Lemma fire_attempts t st :
  attempts (journal (fire E t st))
  = attempts (journal st)
    ++ (if deliverable E t then [(channel_id t, notification E t)] else []).
Proof.
  unfold fire, deliverable, notification.
  destruct (get_channel E (channel_id t)) as [[| |]|]; cbn;
    try (symmetry; apply app_nil_r);
    destruct (send E _ _ _); cbn; rewrite ?attempts_app; cbn;
    rewrite ?app_nil_r; reflexivity.
Qed.

Lemma fire_all_timers ts st :
  active_timers (fold_left (fun s t => fire E t s) ts st)
  = remove_all ts (active_timers st).
Proof.
  revert st. induction ts as [|t ts IH]; intros st; [reflexivity|].
  cbn [fold_left remove_all]. rewrite IH, fire_timers. reflexivity.
Qed.

Lemma fire_all_attempts ts st :
  attempts (journal (fold_left (fun s t => fire E t s) ts st))
  = attempts (journal st)
    ++ map (fun t => (channel_id t, notification E t))
           (List.filter (deliverable E) ts).
Proof.
  revert st. induction ts as [|t ts IH]; intros st.
  - cbn. rewrite app_nil_r. reflexivity.
  - cbn [fold_left List.filter]. rewrite IH, fire_attempts.
    destruct (deliverable E t); cbn; rewrite <- ?app_assoc, ?app_nil_r;
      reflexivity.
Qed.

Lemma fire_all_frame ts st :
  let st' := fold_left (fun s t => fire E t s) ts st in
  heap st' = heap st /\ files st' = files st
  /\ bot_data st' = bot_data st /\ nicknames st' = nicknames st
  /\ greeting_prefs st' = greeting_prefs st
  /\ silent_prefs st' = silent_prefs st
  /\ memos st' = memos st /\ model_prefs st' = model_prefs st.
Proof.
  revert st. induction ts as [|t ts IH]; intros st; cbn.
  - repeat split.
  - specialize (IH (fire E t st)). cbn in IH.
    destruct IH as (H1 & H2 & H3 & H4 & H5 & H6 & H7 & H8).
    destruct (fire_frame t st) as (F1 & F2 & F3 & F4 & F5 & F6 & F7 & F8).
    rewrite H1, H2, H3, H4, H5, H6, H7, H8. repeat split; assumption.
Qed.
End Scheduler.



Section Logging.
Variable E : env.

Lemma startswith_timer_log msg :
  startswith (TIMER_SEND_FAILED ++ msg) TIMER_SEND_FAILED = true.
Proof. reflexivity. Qed.

Local Arguments startswith : simpl never.

Lemma failed_sends_app j1 j2 :
  failed_sends (j1 ++ j2) = (failed_sends j1 + failed_sends j2)%nat.
Proof.
  induction j1 as [|e j1 IH]; [reflexivity|].
  destruct e as [c t o| |]; try destruct o; simpl; rewrite IH; reflexivity.
Qed.

Lemma timer_logs_app j1 j2 :
  timer_logs (j1 ++ j2) = (timer_logs j1 + timer_logs j2)%nat.
Proof.
  induction j1 as [|e j1 IH]; [reflexivity|].
  destruct e as [| |text]; simpl; try (rewrite IH; reflexivity).
  destruct (startswith text TIMER_SEND_FAILED); rewrite IH; reflexivity.
Qed.

Lemma fire_logged t st :
  (failed_sends (journal (fire E t st)) + timer_logs (journal st)
   = failed_sends (journal st) + timer_logs (journal (fire E t st)))%nat.
Proof.
  unfold fire.
  destruct (get_channel E (channel_id t)) as [[| |]|]; cbn; try reflexivity;
    destruct (send E _ _ _); cbn;
    rewrite ?failed_sends_app, ?timer_logs_app; cbn;
    try match goal with
        | |- context [startswith ?a TIMER_SEND_FAILED] =>
            change (startswith a TIMER_SEND_FAILED) with true
        end; cbn iota; lia.
Qed.

Lemma fire_all_logged ts st :
  let st' := fold_left (fun s t => fire E t s) ts st in
  (failed_sends (journal st') + timer_logs (journal st)
   = failed_sends (journal st) + timer_logs (journal st'))%nat.
Proof.
  revert st. induction ts as [|t ts IH]; intros st; cbn [fold_left];
    [reflexivity|].
  specialize (IH (fire E t st)). cbn zeta in IH |- *.
  pose proof (fire_logged t st). lia.
Qed.
End Logging.

(** C9, the claim as written: a due entry whose channel is not known to
    the client is removed and no delivery is attempted for it. *)
Lemma due_entry_removed_without_attempt :
  let st := (timer_cmd 0 2 7 0 1 None started).2 in
  let st' := (check_timers calm MINUTE st).2 in
  active_timers st = [Timer MINUTE 2 7 TIMER_DEFAULT]
  /\ is_due MINUTE (Timer MINUTE 2 7 TIMER_DEFAULT) = true
  /\ active_timers st' = []
  /\ attempts (journal st') = attempts (journal st).
Proof. vm_compute. repeat split. Qed.

(** C9, amended: [check_timers] never raises; it attempts one delivery
    for each due entry whose channel is a text channel or a thread, and
    none for the other due entries; a due entry is removed whether or not a
    delivery was attempted for it; a failed attempt is printed, once. *)
Theorem check_timers_attempts (E : env) (now : Z) (st : state) :
  let st' := (check_timers E now st).2 in
  (check_timers E now st).1 = Ok tt
  /\ attempts (journal st')
     = attempts (journal st)
       ++ map (fun t => (channel_id t, notification E t))
              (List.filter (deliverable E)
                 (List.filter (is_due now) (active_timers st)))
  /\ (forall t, In t (active_timers st) -> is_due now t = true ->
                deliverable E t = true ->
                In (channel_id t, notification E t) (attempts (journal st')))
  /\ (forall t, is_due now t = true -> ~ In t (active_timers st'))
  /\ (failed_sends (journal st') + timer_logs (journal st)
      = failed_sends (journal st) + timer_logs (journal st'))%nat.
Proof.
  cbn. split; [reflexivity|].
  assert (Ha := fire_all_attempts E (List.filter (is_due now) (active_timers st)) st).
  split; [exact Ha|]. split; [|split].
  - intros t Hin Hdue Hdel. rewrite Ha. apply List.in_or_app. right.
    apply (List.in_map (fun t => (channel_id t, notification E t))).
    apply List.filter_In. split; [|exact Hdel].
    apply List.filter_In. split; assumption.
  - intros t Hdue Hin. rewrite fire_all_timers, remove_all_filter in Hin.
    apply List.filter_In in Hin as [_ Hnot]. rewrite Hdue in Hnot. discriminate.
  - apply fire_all_logged.
Qed.

(** C6: [timer_cmd] with 0 hours and 0 minutes answers that this cannot
    be set and does nothing else: no entry is added, heap and files stay as
    they are; with 1 hour and 30 minutes at instant [now] it appends one
    entry, due at [now] plus 90 minutes. *)
Theorem timer_cmd_zero_and_ninety (now channel user : Z)
    (message : option str) (st : state) :
  timer_cmd now channel user 0 0 message st
  = (Ok tt, emit (Respond TIMER_ZERO true) st)
  /\ active_timers (timer_cmd now channel user 0 0 message st).2
     = active_timers st
  /\ heap (timer_cmd now channel user 0 0 message st).2 = heap st
  /\ files (timer_cmd now channel user 0 0 message st).2 = files st
  /\ (timer_cmd now channel user 1 30 message st).1 = Ok tt
  /\ active_timers (timer_cmd now channel user 1 30 message st).2
     = active_timers st
       ++ [Timer (now + 90 * MINUTE) channel user
                 (message_or message TIMER_DEFAULT)].
Proof.
  repeat split.
Qed.


(* ===================================================================== *)
(** ** Facts about dictionaries and the heap *)
(* ===================================================================== *)

Section DictFacts.
Context {V : Type}.
Implicit Types (d : pydict V) (k : str).

Lemma dict_get_set_same k (v : V) d : dict_get k (dict_set k v d) = Some v.
Proof.
  induction d as [|[k' v'] d IH]; simpl.
  - destruct (decide (k = k)); congruence.
  - destruct (decide (k = k')) as [->|Hne]; simpl.
    + destruct (decide (k' = k')); congruence.
    + destruct (decide (k = k')); [congruence|exact IH].
Qed.

Lemma dict_get_set_other k k' (v : V) d :
  k <> k' -> dict_get k (dict_set k' v d) = dict_get k d.
Proof.
  intros Hne. induction d as [|[k2 v2] d IH]; simpl.
  - destruct (decide (k = k')); congruence.
  - destruct (decide (k' = k2)) as [->|H2]; simpl.
    + destruct (decide (k = k2)); congruence.
    + destruct (decide (k = k2)); [reflexivity|exact IH].
Qed.

Lemma dict_get_pop_same k d : dict_get k (dict_pop k d) = None.
Proof.
  induction d as [|[k' v'] d IH]; simpl; [reflexivity|].
  destruct (decide (k = k')) as [->|Hne]; simpl; [exact IH|].
  destruct (decide (k = k')); [congruence|exact IH].
Qed.

Lemma dict_get_pop_other k k' d :
  k <> k' -> dict_get k (dict_pop k' d) = dict_get k d.
Proof.
  intros Hne. induction d as [|[k2 v2] d IH]; simpl; [reflexivity|].
  destruct (decide (k' = k2)) as [->|H2]; simpl.
  - destruct (decide (k = k2)); [congruence|exact IH].
  - destruct (decide (k = k2)); [reflexivity|exact IH].
Qed.
End DictFacts.

Lemma deref_insert_same (h : list (pydict jval)) l d :
  (l < length h)%nat -> deref (<[l := d]> h) l = d.
Proof. intros H. unfold deref. rewrite list_lookup_insert_eq; done. Qed.

Lemma deref_insert_other (h : list (pydict jval)) l l' d :
  l <> l' -> deref (<[l' := d]> h) l = deref h l.
Proof. intros H. unfold deref. rewrite list_lookup_insert_ne; done. Qed.

Lemma deref_out_of_range (h : list (pydict jval)) l :
  (length h <= l)%nat -> deref h l = [].
Proof. intros H. unfold deref. rewrite lookup_ge_None_2; done. Qed.

(** Once a key is popped at one location it is absent there, and stays
    absent wherever it was absent. *)
Lemma popped_absent (h : list (pydict jval)) k l l' :
  l = l' \/ dict_get k (deref h l) = None ->
  dict_get k (deref (<[l' := dict_pop k (deref h l')]> h) l) = None.
Proof.
  intros H. destruct (decide (l = l')) as [->|Hne].
  - destruct (decide (l' < length h)%nat) as [Hlt|Hge].
    + rewrite deref_insert_same by assumption. apply dict_get_pop_same.
    + rewrite deref_out_of_range; [reflexivity|].
      rewrite length_insert. lia.
  - rewrite deref_insert_other by assumption.
    destruct H; [contradiction|assumption].
Qed.

(* ===================================================================== *)
(** ** Facts about the durable store *)
(* ===================================================================== *)

Lemma atomic_write_json_ok E d st content :
  disk_works E ->
  Utf8.encode (dumps (to_json (heap st) d)) = Some content ->
  exists fs,
    atomic_write_json E DATA_FILE d st = (Ok tt, with_files fs st)
    /\ dict_get DATA_FILE fs = Some content.
Proof.
  intros (Ho & Hw & Hr & _) Henc. unfold atomic_write_json.
  fold TMP_FILE. rewrite Ho, Henc, Hw, Hr. eexists. split; [reflexivity|].
  cbn. apply dict_get_set_same.
Qed.

Lemma atomic_write_json_heap E path d st :
  heap (atomic_write_json E path d st).2 = heap st.
Proof.
  unfold atomic_write_json. destruct (open_fails E _); [reflexivity|].
  destruct (Utf8.encode _); [|reflexivity].
  destruct (write_fails E _); [reflexivity|].
  destruct (replace_fails E _); reflexivity.
Qed.

Lemma bound_document_full st :
  let d := bound_document st in
  dict_get K_nicknames d = Some (nicknames st)
  /\ dict_get K_greeting_prefs d = Some (greeting_prefs st)
  /\ dict_get K_silent_prefs d = Some (silent_prefs st)
  /\ dict_get K_memos d = Some (memos st)
  /\ dict_get K_model_prefs d = Some (model_prefs st).
Proof.
  cbn zeta. unfold bound_document.
  repeat split;
    repeat first
      [ apply dict_get_set_same
      | rewrite dict_get_set_other by (vm_compute; discriminate) ].
Qed.

Lemma save_bot_data_memory E st :
  let st' := (save_bot_data E st).2 in
  heap st' = heap st /\ bot_data st' = bound_document st
  /\ nicknames st' = nicknames st /\ greeting_prefs st' = greeting_prefs st
  /\ silent_prefs st' = silent_prefs st /\ memos st' = memos st
  /\ model_prefs st' = model_prefs st /\ active_timers st' = active_timers st.
Proof.
  cbn zeta. unfold save_bot_data. fold (bound_document st).
  unfold atomic_write_json. cbn.
  destruct (open_fails E _); [repeat split|].
  destruct (Utf8.encode _); [|repeat split].
  destruct (write_fails E _); [repeat split|].
  destruct (replace_fails E _); repeat split.
Qed.

Lemma save_bot_data_ok E st content :
  disk_works E ->
  Utf8.encode (dumps (to_json (heap st) (bound_document st))) = Some content ->
  (save_bot_data E st).1 = Ok tt
  /\ dict_get DATA_FILE (files (save_bot_data E st).2) = Some content.
Proof.
  intros HE Henc. unfold save_bot_data. fold (bound_document st).
  destruct (atomic_write_json_ok E (bound_document st)
              (with_bot_data (bound_document st) st) content HE Henc)
    as (fs & -> & Hfs).
  split; [reflexivity|exact Hfs].
Qed.


Lemma popped_heap_cons k l ls h :
  popped_heap k (l :: ls) h
  = popped_heap k ls (<[l := dict_pop k (deref h l)]> h).
Proof. reflexivity. Qed.

Lemma popped_heap_absent k ls : forall h l,
  In l ls \/ dict_get k (deref h l) = None ->
  dict_get k (deref (popped_heap k ls h) l) = None.
Proof.
  induction ls as [|l' ls IH]; intros h l H.
  - destruct H as [[]|H]. exact H.
  - rewrite popped_heap_cons. apply IH.
    destruct H as [[->|H]|H].
    + right. apply popped_absent. left. reflexivity.
    + left. exact H.
    + right. apply popped_absent. right. exact H.
Qed.

Lemma popped_heap_other k ls : forall h l,
  ~ In l ls -> deref (popped_heap k ls h) l = deref h l.
Proof.
  induction ls as [|l' ls IH]; intros h l H; [reflexivity|].
  rewrite popped_heap_cons, IH.
  - apply deref_insert_other. intros ->. apply H. left. reflexivity.
  - intros Hin. apply H. right. exact Hin.
Qed.

(** The command on a client whose four settings are dictionaries: four
    pops, the save, the answer. *)
Lemma reset_my_settings_run E user st ln lg ls lp :
  nicknames st = Ref ln -> greeting_prefs st = Ref lg ->
  silent_prefs st = Ref ls -> model_prefs st = Ref lp ->
  let st4 := with_heap (popped_heap (str_of_int user) [ln; lg; ls; lp]
                                    (heap st)) st in
  reset_my_settings_cmd E user st
  = match save_bot_data E st4 with
    | (Ok _, s) => (Ok tt, emit (Respond RESET_DONE true) s)
    | (Raise e, s) => (Raise e, s)
    end.
Proof.
  destruct st as [h fs j bd n g s m p ts]. cbn [nicknames greeting_prefs
    silent_prefs model_prefs heap]. intros -> -> -> ->. reflexivity.
Qed.

Lemma my_status_defaults user st ln lg ls lp :
  nicknames st = Ref ln -> greeting_prefs st = Ref lg ->
  silent_prefs st = Ref ls -> model_prefs st = Ref lp ->
  (forall l, In l [ln; lg; ls; lp] ->
             dict_get (str_of_int user) (deref (heap st) l) = None) ->
  my_status user st
  = (Ok (JStr NOT_YET, JBool false, JBool false, JStr DEFAULT_MODEL), st).
Proof.
  intros Hn Hg Hs Hp Habs. unfold my_status, bind, ret, get_or.
  rewrite Hn, Hg, Hs, Hp.
  rewrite !Habs by (cbn; tauto). reflexivity.
Qed.

(** C1, the claim as written: after [memo_add] and then
    [reset_my_settings_cmd] for the same user, the user's memos are still
    there; reading them does not give the default. *)
Lemma reset_my_settings_keeps_memos :
  let st := (memo_add calm 42 (lit "k") (lit "v") started).2 in
  let st' := (reset_my_settings_cmd calm 42 st).2 in
  (reset_my_settings_cmd calm 42 st).1 = Ok tt
  /\ (user_memos 42 st').1 = Ok (JObj [(lit "k", JStr (lit "v"))])
  /\ (user_memos 42 st').1 <> Ok (JObj []).
Proof. vm_compute. repeat split. discriminate. Qed.

(** C1, amended: on a client whose four settings are dictionaries,
    [reset_my_settings_cmd] removes the user's entry from the nicknames,
    the greeting flags, the silent flags and the model choices, so that
    the four reads of [my_status_cmd] give their defaults afterwards; the
    memos are not touched; the save binds all five maps in [bot_data] and,
    when no system call fails and the text can be encoded, leaves that
    whole document in the data file. *)
Theorem reset_my_settings_clears_settings (E : env) (user : Z) (st : state)
    (ln lg ls lp : nat) :
  nicknames st = Ref ln -> greeting_prefs st = Ref lg ->
  silent_prefs st = Ref ls -> model_prefs st = Ref lp ->
  let st' := (reset_my_settings_cmd E user st).2 in
  my_status user st'
  = (Ok (JStr NOT_YET, JBool false, JBool false, JStr DEFAULT_MODEL), st')
  /\ (forall lm, memos st = Ref lm -> ~ In lm [ln; lg; ls; lp] ->
        memos st' = Ref lm /\ deref (heap st') lm = deref (heap st) lm)
  /\ (dict_get K_nicknames (bot_data st') = Some (nicknames st')
      /\ dict_get K_greeting_prefs (bot_data st') = Some (greeting_prefs st')
      /\ dict_get K_silent_prefs (bot_data st') = Some (silent_prefs st')
      /\ dict_get K_memos (bot_data st') = Some (memos st')
      /\ dict_get K_model_prefs (bot_data st') = Some (model_prefs st'))
  /\ (forall content,
        disk_works E ->
        Utf8.encode (dumps (to_json (heap st') (bot_data st'))) = Some content ->
        (reset_my_settings_cmd E user st).1 = Ok tt
        /\ dict_get DATA_FILE (files st') = Some content).
Proof.
  intros Hn Hg Hs Hp. cbn zeta.
  rewrite (reset_my_settings_run E user st ln lg ls lp Hn Hg Hs Hp).
  cbn zeta.
  set (k := str_of_int user).
  set (h4 := popped_heap k [ln; lg; ls; lp] (heap st)).
  set (st4 := with_heap h4 st).
  destruct (save_bot_data_memory E st4)
    as (Hh & Hbd & Hn' & Hg' & Hs' & Hm' & Hp' & _).
  pose proof (bound_document_full st4) as Hfull. cbn zeta in Hfull.
  pose proof (save_bot_data_ok E st4) as Hok.
  destruct (save_bot_data E st4) as [[[]|e] s5] eqn:Hsave;
    cbn [fst snd] in *.
  all: assert (Hheap : heap s5 = h4) by (rewrite Hh; reflexivity).
  all: assert (Hattr : nicknames s5 = Ref ln /\ greeting_prefs s5 = Ref lg
                       /\ silent_prefs s5 = Ref ls /\ model_prefs s5 = Ref lp
                       /\ memos s5 = memos st)
         by (rewrite Hn', Hg', Hs', Hp', Hm'; cbn; auto).
  all: destruct Hattr as (An & Ag & As & Ap & Am).
  all: assert (Habs : forall l, In l [ln; lg; ls; lp] ->
                                dict_get k (deref h4 l) = None)
         by (intros l Hl; apply popped_heap_absent; left; exact Hl).
  all: split; [|split; [|split]].
  (* the four reads *)
  1, 5: apply (my_status_defaults user _ ln lg ls lp); try assumption;
        cbn [heap emit with_journal]; rewrite Hheap; exact Habs.
  (* the memos *)
  1, 4: intros lm Hm Hnot; cbn [memos heap emit with_journal];
        rewrite Am, Hheap; split; [exact Hm|];
        apply popped_heap_other; exact Hnot.
  (* the document in memory *)
  1, 3: cbn [bot_data nicknames greeting_prefs silent_prefs memos
             model_prefs emit with_journal];
        rewrite Hbd, Hn', Hg', Hs', Hm', Hp'; exact Hfull.
  (* the file *)
  - intros content HE Henc. cbn [heap bot_data files emit with_journal] in *.
    rewrite Hbd in Henc. rewrite Hh in Henc.
    destruct (Hok content HE Henc) as [_ Hfile]. split; [reflexivity|exact Hfile].
  - intros content HE Henc. cbn [heap bot_data files emit with_journal] in *.
    rewrite Hbd in Henc. rewrite Hh in Henc.
    destruct (Hok content HE Henc) as [Hr _]. discriminate.
Qed.


Lemma load_data_fallback E st :
  falls_back E st -> load_data E st = (Ok (Doc DEFAULT_DATA), st).
Proof.
  unfold falls_back, load_data. intros [H|[H|H]]; rewrite ?H.
  - reflexivity.
  - destruct (path_exists DATA_FILE st); reflexivity.
  - destruct (path_exists DATA_FILE st); reflexivity.
Qed.

Lemma path_exists_get path st content :
  dict_get path (files st) = Some content -> path_exists path st = true.
Proof.
  intros H. unfold path_exists. apply bool_decide_eq_true. rewrite H. eauto.
Qed.

(** C3: when the data file exists, can be opened and read, and its bytes
    are not UTF-8, [load_data] raises [UnicodeDecodeError] instead of
    returning the default: line 56 catches [json.JSONDecodeError] and
    [OSError] only. *)
Theorem load_data_raises_on_bad_utf8 (E : env) (st : state) (content : bytes) :
  dict_get DATA_FILE (files st) = Some content ->
  open_fails E DATA_FILE = false ->
  read_fails E DATA_FILE = false ->
  Utf8.decode content = None ->
  load_data E st = (Raise UnicodeDecodeError, st).
Proof.
  intros Hf Ho Hr Hd. unfold load_data, json_load.
  rewrite (path_exists_get _ _ _ Hf), Ho, Hf, Hr, Hd. reflexivity.
Qed.

Lemma load_data_raises_on_bad_utf8_witness :
  load_data calm (boot [(DATA_FILE, [255%N])])
  = (Raise UnicodeDecodeError, boot [(DATA_FILE, [255%N])]).
Proof.
  apply (load_data_raises_on_bad_utf8 calm (boot [(DATA_FILE, [255%N])])
           [255%N]); reflexivity.
Defined.

(** C10: when [load_data] takes the default (the module being loaded)
    it returns a document that binds each of the five keys to the very
    object [DEFAULT_DATA] binds it to, and allocates nothing; so an item
    set in one of these maps through the returned document shows through
    the constant and through the document of every later defaulted
    [load_data]. *)
Theorem default_document_is_shared (E : env) (st : state) :
  falls_back E st ->
  (5 <= length (heap st))%nat ->
  exists d,
    load_data E st = (Ok (Doc d), st)
    /\ (forall key, dict_get key d = dict_get key DEFAULT_DATA)
    /\ forall key l k v,
         dict_get key d = Some (Ref l) ->
         let st1 := (setitem (Ref l) k v st).2 in
         (exists o, dict_get key DEFAULT_DATA = Some o
                    /\ (get_or o k JNull st1).1 = Ok v)
         /\ forall E' st2,
              falls_back E' st2 ->
              deref (heap st2) l = deref (heap st1) l ->
              exists d' o',
                load_data E' st2 = (Ok (Doc d'), st2)
                /\ dict_get key d' = Some o'
                /\ (get_or o' k JNull st2).1 = Ok v.
Proof.
  intros Hfb Hheap. exists DEFAULT_DATA.
  split; [apply load_data_fallback; exact Hfb|].
  split; [reflexivity|].
  intros key l k v Hkey. cbn zeta.
  assert (Hl : (l < length (heap st))%nat).
  { unfold DEFAULT_DATA in Hkey. cbn [dict_get] in Hkey.
    repeat match type of Hkey with
           | (if ?c then _ else _) = _ => destruct c
           end; try discriminate; injection Hkey as <-; lia. }
  assert (Hcell : dict_get k (deref (heap (setitem (Ref l) k v st).2) l) = Some v).
  { cbn. rewrite deref_insert_same by exact Hl. apply dict_get_set_same. }
  split.
  - exists (Ref l). split; [exact Hkey|]. cbn [get_or fst].
    rewrite Hcell. reflexivity.
  - intros E' st2 Hfb2 Hsame. exists DEFAULT_DATA, (Ref l).
    split; [apply load_data_fallback; exact Hfb2|].
    split; [exact Hkey|]. cbn [get_or fst]. rewrite Hsame, Hcell. reflexivity.
Qed.

Lemma default_document_is_shared_witness :
  exists d,
    load_data calm (boot []) = (Ok (Doc d), boot [])
    /\ dict_get K_nicknames d = Some (Ref 0%nat).
Proof.
  destruct (default_document_is_shared calm (boot [])) as (d & Hload & Hd & _).
  - left. reflexivity.
  - cbn. lia.
  - exists d. split; [exact Hload|]. rewrite Hd. reflexivity.
Defined.

(** A nickname set on a client that started from the default shows in the
    next defaulted document. *)
Example nickname_leaks_into_default :
  let st := (set_name_cmd read_only 42 (lit "Aki") started).2 in
  exists d l,
    (load_data read_only st).1 = Ok (Doc d)
    /\ dict_get K_nicknames d = Some (Ref l)
    /\ deref (heap st) l = [(lit "42", JStr (lit "Aki"))].
Proof. exists DEFAULT_DATA, 0%nat. vm_compute. repeat split. Qed.

Lemma reset_my_settings_clears_settings_witness :
  let st' := (reset_my_settings_cmd calm 42 aki_silent).2 in
  (my_status 42 st').1
  = Ok (JStr NOT_YET, JBool false, JBool false, JStr DEFAULT_MODEL)
  /\ dict_get K_memos (bot_data st') = Some (memos st').
Proof.
  destruct (reset_my_settings_clears_settings calm 42 aki_silent
              0%nat 1%nat 2%nat 4%nat)
    as (Hreads & _ & (_ & _ & _ & Hm & _) & _);
    try (vm_compute; reflexivity).
  cbn zeta. rewrite Hreads. split; [reflexivity|exact Hm].
Defined.

Local Open Scope N_scope.

(* ===================================================================== *)
(** ** UTF-8: decoding undoes encoding *)
(* ===================================================================== *)







(* ===================================================================== *)
(** ** JSON: the decoder reads back what the encoder writes *)
(* ===================================================================== *)

(** *** White space *)




(** *** Strings *)








(** *** Dictionaries built from pairs *)




Section JvalInd.
Variable P : jval -> Prop.
Hypothesis Hnull : P JNull.
Hypothesis Hbool : forall b, P (JBool b).
Hypothesis Hnum : forall n, P (JNum n).
Hypothesis Hstr : forall s, P (JStr s).
Hypothesis Harr : forall l, Forall P l -> P (JArr l).
Hypothesis Hobj : forall ms, Forall (fun kv => P kv.2) ms -> P (JObj ms).

End JvalInd.







(** *** One step of each of the three functions *)






(** *** The items of an array and of an object *)




(** *** The decoder on the encoder's text *)


(** *** The fuel of [loads] is enough *)






(** *** The text of an encodable value is encodable *)












(** *** The fuel of [loads] is never used up *)

Lemma skip_ws_length s : (length (skip_ws s) <= length s)%nat.
Proof.
  induction s as [|c s IH]; [reflexivity|].
  cbn [skip_ws]. destruct (is_ws c); cbn [length]; lia.
Qed.

Lemma push_some c x t r :
  push c x = Some (t, r) -> exists t', x = Some (t', r).
Proof. destruct x as [[t' r']|]; [|discriminate]. intros [= _ <-]. eauto. Qed.

Ltac break_match_in H :=
  repeat match type of H with
         | context [match ?x with _ => _ end] => destruct x eqn:?
         | context [if ?x then _ else _] => destruct x eqn:?
         end.

Lemma scanstring_length n : forall s t r,
  (length s <= n)%nat ->
  scanstring s = Some (t, r) -> (length r < length s)%nat.
Proof.
  induction n as [|n IH]; intros s t r Hn H.
  - destruct s; [discriminate|cbn in Hn; lia].
  - destruct s as [|c s]; [discriminate|]. cbn [scanstring] in H.
    cbn [length] in Hn.
    break_match_in H; try discriminate;
      try (injection H as <- <-);
      try (apply push_some in H as [t' H]; apply IH in H);
      subst; cbn [length] in *; lia.
Qed.

Lemma span_digits_length s :
  (length (span_digits s).2 <= length s)%nat.
Proof.
  induction s as [|c s IH]; [reflexivity|].
  cbn [span_digits]. destruct (is_digit c); [|reflexivity].
  destruct (span_digits s). cbn [snd length] in *. lia.
Qed.

Ltac stage H :=
  repeat match type of H with
         | context [span_digits ?x] =>
             pose proof (span_digits_length x);
             destruct (span_digits x) eqn:?; cbn [fst snd] in *
         end;
  break_match_in H;
  repeat match goal with
         | Hs : span_digits ?x = _ |- _ =>
             let L := fresh in
             pose proof (span_digits_length x) as L;
             rewrite Hs in L; cbn [snd] in L; clear Hs
         end;
  try (injection H as ? ?); try discriminate;
  repeat match goal with
         | Hp : _ = (_, _) |- _ =>
             progress (break_match_in Hp); injection Hp as ? ?
         end;
  subst; cbn [length] in *; try lia.

Lemma match_number_length s lit r :
  match_number s = Some (lit, r) -> (length r < length s)%nat.
Proof.
  unfold match_number. intros H.
  destruct (match s with [] => _ | _ => _ end) as [sign s1] eqn:H1.
  destruct s1 as [|d r1]; [discriminate|].
  destruct (negb (is_digit d)); [discriminate|].
  destruct (if d =? 48 then _ else _) as [int s2] eqn:H2.
  destruct (match s2 with [] => _ | _ => _ end) as [frac s3] eqn:H3.
  destruct (match s3 with [] => _ | _ => _ end) as [exp s4] eqn:H4.
  injection H as <- <-.
  assert (length (d :: r1) <= length s)%nat as LH1 by (clear H2 H3 H4; stage H1; fail).
  assert (length s2 <= length r1)%nat as LH2 by (clear H1 H3 H4; stage H2; fail).
  assert (length s3 <= length s2)%nat as LH3 by (clear H1 H2 H4; stage H3; fail).
  assert (length s4 <= length s3)%nat as LH4 by (clear H1 H2 H3; stage H4; fail).
  cbn [length] in *. lia.
Qed.

Lemma startswith_length s w :
  startswith s w = true -> (length w <= length s)%nat.
Proof.
  revert s. induction w as [|p w IH]; intros s H; [cbn; lia|].
  destruct s as [|c s]; [discriminate|]. cbn [startswith] in H.
  apply andb_prop in H as [_ H]. apply IH in H. cbn [length]. lia.
Qed.

Lemma keyword_length w s r :
  keyword w s = Some r -> (length r + length w = length s)%nat.
Proof.
  unfold keyword. destruct (startswith s w) eqn:H; [|discriminate].
  intros [= <-]. apply startswith_length in H. rewrite length_drop. lia.
Qed.

Ltac measure :=
  repeat match goal with
         | H : keyword _ _ = Some _ |- _ =>
             apply keyword_length in H; cbn [length NULL TRUE FALSE NAN
               INFINITY NEG_INFINITY] in H
         | H : scanstring ?s = Some _ |- _ =>
             apply (scanstring_length (length s) s _ _ (le_n _)) in H
         | H : match_number _ = Some _ |- _ => apply match_number_length in H
         | H : skip_ws ?s = _ |- _ =>
             let L := fresh in
             pose proof (skip_ws_length s) as L; rewrite H in L; clear H
         end;
  repeat match goal with
         | H : context [length (skip_ws ?s)] |- _ =>
             lazymatch goal with
             | _ : (length (skip_ws s) <= length s)%nat |- _ => fail
             | _ => pose proof (skip_ws_length s)
             end
         end.

(** What a successful call leaves is shorter than what it was given. *)
Lemma scan_shrinks fuel :
  (forall s v r, scan_once fuel s = Done v r -> (length r < length s)%nat)
  /\ (forall s acc v r,
        object_items fuel s acc = Done v r -> (length r < length s)%nat)
  /\ (forall s acc v r,
        array_items fuel s acc = Done v r -> (length r < length s)%nat).
Proof.
  induction fuel as [|fuel (IHs & IHo & IHa)];
    [repeat split; intros; discriminate|].
  repeat split.
  - intros s v r H. cbn [scan_once] in H.
    break_match_in H; try discriminate;
      try (injection H as <- <-);
      try (apply IHo in H); try (apply IHa in H);
      measure; cbn [length] in *; lia.
  - intros s acc v r H. cbn [object_items] in H.
    break_match_in H; try discriminate;
      try (injection H as <- <-);
      try (apply IHo in H);
      repeat match goal with
             | Hs : scan_once fuel _ = Done _ _ |- _ => apply IHs in Hs
             end;
      measure; cbn [length] in *; lia.
  - intros s acc v r H. cbn [array_items] in H.
    break_match_in H; try discriminate;
      try (injection H as <- <-);
      try (apply IHa in H);
      repeat match goal with
             | Hs : scan_once fuel _ = Done _ _ |- _ => apply IHs in Hs
             end;
      measure; cbn [length] in *; lia.
Qed.

Ltac bound :=
  repeat match goal with
         | |- context [length (skip_ws ?s)] =>
             lazymatch goal with
             | _ : (length (skip_ws s) <= length s)%nat |- _ => fail
             | _ => pose proof (skip_ws_length s)
             end
         end;
  cbn [length] in *; lia.

(** With fuel above twice the length of the text, no call runs out. *)
Lemma scan_fuel fuel :
  (forall s, (2 * length s < fuel)%nat -> scan_once fuel s <> OutOfFuel)
  /\ (forall s acc, (2 * length s + 2 <= fuel)%nat ->
                    object_items fuel s acc <> OutOfFuel)
  /\ (forall s acc, (2 * length s + 2 <= fuel)%nat ->
                    array_items fuel s acc <> OutOfFuel).
Proof.
  induction fuel as [|fuel (IHs & IHo & IHa)];
    [repeat split; intros; lia|].
  destruct (scan_shrinks fuel) as (Ss & So & Sa).
  repeat split.
  - intros s Hf H. cbn [scan_once] in H.
    break_match_in H; try discriminate;
      measure; cbn [length] in *;
      first [ apply IHo in H | apply IHa in H ]; try exact H; bound.
  - intros s acc Hf H. cbn [object_items] in H.
    break_match_in H; try discriminate;
      repeat match goal with
             | Hs : scan_once fuel _ = Done _ _ |- _ => apply Ss in Hs
             end;
      measure; cbn [length] in *;
      first [ apply IHo in H
            | match goal with
              | Hs : scan_once fuel _ = OutOfFuel |- _ => apply IHs in Hs
              end ];
      try contradiction; bound.
  - intros s acc Hf H. cbn [array_items] in H.
    break_match_in H; try discriminate;
      repeat match goal with
             | Hs : scan_once fuel _ = Done _ _ |- _ => apply Ss in Hs
             end;
      measure; cbn [length] in *;
      first [ apply IHa in H
            | match goal with
              | Hs : scan_once fuel _ = OutOfFuel |- _ => apply IHs in Hs
              end ];
      try contradiction; bound.
Qed.

(** The fuel of [loads] is never used up: a [None] of [loads] is a
    malformed text. *)
Lemma scan_once_fuel s :
  scan_once (S (2 * length s)) (skip_ws s) <> OutOfFuel.
Proof.
  apply (proj1 (scan_fuel _)). pose proof (skip_ws_length s). lia.
Qed.






(** *** Into the heap and back *)






(** *** Save, then load *)




Local Open Scope Z_scope.

(* ===================================================================== *)
(** ** Facts about the alarm *)
(* ===================================================================== *)






(* ===================================================================== *)
(** ** More about the durable store *)
(* ===================================================================== *)

Lemma uint_digits_inj u : forall u', uint_digits u = uint_digits u' -> u = u'.
Proof.
  induction u; intros [] H; cbn in H; try discriminate; try reflexivity;
    injection H as H; f_equal; auto.
Qed.

Lemma uint_digits_no_sign u r : uint_digits u <> 45%N :: r.
Proof. destruct u; cbn; congruence. Qed.

(** [str] of two different integers gives two different texts. *)
Lemma str_of_int_inj a b : str_of_int a = str_of_int b -> a = b.
Proof.
  assert (Hnat : forall n m : N,
             uint_digits (N.to_uint n) = uint_digits (N.to_uint m) -> n = m).
  { intros n m H. apply DecimalN.Unsigned.to_uint_inj, uint_digits_inj, H. }
  assert (Hneg : forall (n : N) p,
             uint_digits (N.to_uint n)
             <> 45%N :: uint_digits (Pos.to_uint p)).
  { intros n p. apply uint_digits_no_sign. }
  intros H.
  destruct a as [|p|p], b as [|q|q];
    try reflexivity;
    try (apply (Hnat 0%N (N.pos q)) in H; discriminate);
    try (apply (Hnat (N.pos p) 0%N) in H; discriminate);
    try (apply (Hnat (N.pos p) (N.pos q)) in H; congruence);
    try (exfalso; apply (Hneg 0%N q); exact H);
    try (exfalso; apply (Hneg 0%N p); symmetry; exact H);
    try (exfalso; apply (Hneg (N.pos p) q); exact H);
    try (exfalso; apply (Hneg (N.pos q) p); symmetry; exact H).
  change (45%N :: uint_digits (Pos.to_uint p)
          = 45%N :: uint_digits (Pos.to_uint q)) in H.
  injection H as H. apply uint_digits_inj in H.
  apply DecimalPos.Unsigned.to_uint_inj in H. congruence.
Qed.

Lemma tmp_differs (path : list N) : path ++ lit ".tmp" <> path.
Proof.
  intros H. apply (f_equal length) in H. rewrite length_app in H.
  change (length (lit ".tmp")) with 4%nat in H. lia.
Qed.





(** X3: [atomic_write_json] replaces the file as a whole or not at all: when
    it returns, the file at [path] holds the complete text of the document
    and the temporary file is gone; when it raises, the file at [path] is
    what it was.  No other file than these two is touched, and neither is
    the heap or the journal. *)
Theorem atomic_write_json_all_or_nothing (E : env) (path : list N)
    (data : pydict pyval) (st : state) :
  let r := atomic_write_json E path data st in
  let tmp := path ++ lit ".tmp" in
  (r.1 = Ok tt ->
   exists content,
     Utf8.encode (dumps (to_json (heap st) data)) = Some content
     /\ dict_get path (files r.2) = Some content
     /\ dict_get tmp (files r.2) = None)
  /\ (r.1 <> Ok tt -> dict_get path (files r.2) = dict_get path (files st))
  /\ (forall other, other <> path -> other <> tmp ->
        dict_get other (files r.2) = dict_get other (files st))
  /\ heap r.2 = heap st /\ journal r.2 = journal st.
Proof.
  cbn zeta. unfold atomic_write_json.
  pose proof (tmp_differs path) as Hne.
  assert (Hne' : path <> path ++ lit ".tmp") by congruence.
  destruct (open_fails E _).
  { repeat split; try discriminate; reflexivity. }
  destruct (Utf8.encode _) as [content|].
  2: { cbn. repeat split; try discriminate.
       - intros _. apply dict_get_set_other. exact Hne'.
       - intros other _ Ho. apply dict_get_set_other. exact Ho. }
  destruct (write_fails E _).
  { cbn. repeat split; try discriminate.
    - intros _. apply dict_get_set_other. exact Hne'.
    - intros other _ Ho. apply dict_get_set_other. exact Ho. }
  destruct (replace_fails E _); cbn.
  - repeat split; try discriminate.
    + intros _. apply dict_get_set_other. exact Hne'.
    + intros other _ Ho. apply dict_get_set_other. exact Ho.
  - repeat split.
    + intros _. exists content. split; [reflexivity|]. split.
      * apply dict_get_set_same.
      * rewrite dict_get_set_other by exact Hne. apply dict_get_pop_same.
    + intros H. congruence.
    + intros other Hp Ho. rewrite dict_get_set_other by exact Hp.
      rewrite dict_get_pop_other by exact Ho.
      apply dict_get_set_other. exact Ho.
Qed.

(** X4: [save_bot_data] never raises an [OSError]. It ends in one of three
    ways: the document is in the data file and nothing is printed; or a
    system call failed, one line is printed, the call returns and the data
    file is what it was; or the text cannot be encoded, [UnicodeEncodeError]
    is raised and the data file is what it was. *)
Theorem save_bot_data_outcomes (E : env) (st : state) :
  let r := save_bot_data E st in
  let text := dumps (to_json (heap st) (bound_document st)) in
  (r.1 = Ok tt /\ journal r.2 = journal st
   /\ exists content, Utf8.encode text = Some content
                      /\ dict_get DATA_FILE (files r.2) = Some content)
  \/ (r.1 = Ok tt
      /\ journal r.2
         = journal st ++ [Print (STORAGE_FAILED ++ os_error_text E)]
      /\ dict_get DATA_FILE (files r.2) = dict_get DATA_FILE (files st))
  \/ (r.1 = Raise UnicodeEncodeError /\ journal r.2 = journal st
      /\ Utf8.encode text = None
      /\ dict_get DATA_FILE (files r.2) = dict_get DATA_FILE (files st)).
Proof.
  cbn zeta. unfold save_bot_data. fold (bound_document st).
  set (d := bound_document st). set (st1 := with_bot_data d st).
  pose proof (tmp_differs DATA_FILE) as Hne.
  assert (Hkept : forall (c : list N) (fs : list (list N * list N)),
             dict_get DATA_FILE (dict_set (DATA_FILE ++ lit ".tmp") c fs)
             = dict_get DATA_FILE fs).
  { intros c fs. apply dict_get_set_other. congruence. }
  unfold atomic_write_json. change (heap st1) with (heap st).
  change (files st1) with (files st).
  destruct (open_fails E _).
  { right. left. cbn. repeat split. }
  destruct (Utf8.encode _) as [content|] eqn:Henc.
  2: { right. right. cbn. repeat split; try apply Hkept. }
  destruct (write_fails E _).
  { right. left. cbn. repeat split; try apply Hkept. }
  destruct (replace_fails E _).
  - right. left. cbn. repeat split; try apply Hkept.
  - left. cbn. repeat split. exists content. split; [reflexivity|].
    apply dict_get_set_same.
Qed.

(* ===================================================================== *)
(** ** Preferences and memos, command after command *)
(* ===================================================================== *)

Lemma same_memory_refl st : same_memory st st.
Proof. repeat split. Qed.

Lemma same_memory_trans st1 st2 st3 :
  same_memory st1 st2 -> same_memory st2 st3 -> same_memory st1 st3.
Proof.
  intros (A1 & A2 & A3 & A4 & A5 & A6) (B1 & B2 & B3 & B4 & B5 & B6).
  repeat split; congruence.
Qed.

Lemma same_memory_emit e st : same_memory st (emit e st).
Proof. repeat split. Qed.

Lemma save_bot_data_same_memory E st : same_memory st (save_bot_data E st).2.
Proof.
  destruct (save_bot_data_memory E st) as (H1 & _ & H2 & H3 & H4 & H5 & H6 & _).
  repeat split; assumption.
Qed.

(** Saving and answering leaves the heap and the attributes alone, whether
    the save works, fails or raises. *)
Lemma saved_and_answered E text b st :
  same_memory st ((save_bot_data E ;; respond text b) st).2.
Proof.
  unfold bind. pose proof (save_bot_data_same_memory E st) as H.
  destruct (save_bot_data E st) as [[[]|e] st1]; cbn [snd] in *.
  - eapply same_memory_trans; [exact H|]. apply same_memory_emit.
  - exact H.
Qed.

Lemma get_or_same_memory (sel : state -> pyval) k d st st' :
  heap st' = heap st -> sel st' = sel st ->
  (get_or (sel st') k d st').1 = (get_or (sel st) k d st).1.
Proof. intros Hh Hs. rewrite Hs. unfold get_or. rewrite Hh. destruct (sel st); reflexivity. Qed.

Lemma get_or_ref l k d st :
  get_or (Ref l) k d st = (Ok (default d (dict_get k (deref (heap st) l))), st).
Proof. reflexivity. Qed.

Lemma my_status_refs user st ln lg ls lp :
  nicknames st = Ref ln -> greeting_prefs st = Ref lg ->
  silent_prefs st = Ref ls -> model_prefs st = Ref lp ->
  my_status user st
  = (Ok (default (JStr NOT_YET)
           (dict_get (str_of_int user) (deref (heap st) ln)),
         default (JBool false)
           (dict_get (str_of_int user) (deref (heap st) lg)),
         default (JBool false)
           (dict_get (str_of_int user) (deref (heap st) ls)),
         default (JStr DEFAULT_MODEL)
           (dict_get (str_of_int user) (deref (heap st) lp))), st).
Proof.
  destruct st as [h fs j bd n g s m p ts]. cbn [nicknames greeting_prefs
    silent_prefs model_prefs heap]. intros -> -> -> ->. reflexivity.
Qed.

Lemma user_memos_ref user st lm :
  memos st = Ref lm ->
  user_memos user st
  = (Ok (default (JObj []) (dict_get (str_of_int user) (deref (heap st) lm))),
     st).
Proof. intros Hm. unfold user_memos. rewrite Hm. reflexivity. Qed.

(** X7: [set_name_cmd], then [my_status_cmd]: the user's nickname is the new
    one and the three other settings are what they were; the settings of
    every other user are what they were.  This holds whether or not the save
    worked. *)
Theorem set_name_then_my_status (E : env) (user : Z) (nickname : list N)
    (st : state) (ln lg ls lp : nat) :
  nicknames st = Ref ln -> greeting_prefs st = Ref lg ->
  silent_prefs st = Ref ls -> model_prefs st = Ref lp ->
  (ln < length (heap st))%nat -> ln <> lg -> ln <> ls -> ln <> lp ->
  let st' := (set_name_cmd E user nickname st).2 in
  (exists n g s p,
     (my_status user st).1 = Ok (n, g, s, p)
     /\ (my_status user st').1 = Ok (JStr nickname, g, s, p))
  /\ forall other,
       other <> user -> (my_status other st').1 = (my_status other st).1.
Proof.
  intros Hn Hg Hs Hp Hlt Hlg Hls Hlp. cbn zeta.
  set (uid := str_of_int user).
  set (h1 := <[ln := dict_set uid (JStr nickname) (deref (heap st) ln)]>
               (heap st)).
  assert (Hrun : same_memory (with_heap h1 st)
                             (set_name_cmd E user nickname st).2).
  { unfold set_name_cmd. unfold bind at 1. rewrite Hn. cbn [setitem].
    apply saved_and_answered. }
  destruct Hrun as (Hh & Hn' & Hg' & Hs' & _ & Hp').
  cbn [heap nicknames greeting_prefs silent_prefs model_prefs with_heap] in *.
  assert (Hst' : forall u,
    my_status u (set_name_cmd E user nickname st).2
    = (Ok (default (JStr NOT_YET) (dict_get (str_of_int u) (deref h1 ln)),
           default (JBool false) (dict_get (str_of_int u) (deref h1 lg)),
           default (JBool false) (dict_get (str_of_int u) (deref h1 ls)),
           default (JStr DEFAULT_MODEL) (dict_get (str_of_int u) (deref h1 lp))),
       (set_name_cmd E user nickname st).2)).
  { intros u. rewrite (my_status_refs u _ ln lg ls lp) by congruence.
    rewrite Hh. reflexivity. }
  assert (Hother : forall l, ln <> l -> deref h1 l = deref (heap st) l).
  { intros l Hl. apply deref_insert_other. congruence. }
  assert (Hmine : deref h1 ln
                  = dict_set uid (JStr nickname) (deref (heap st) ln)).
  { apply deref_insert_same. exact Hlt. }
  split.
  - eexists _, _, _, _. split.
    + rewrite (my_status_refs user st ln lg ls lp) by assumption. reflexivity.
    + rewrite Hst'. cbn [fst]. rewrite Hmine, !Hother by assumption.
      fold uid. rewrite dict_get_set_same. reflexivity.
  - intros other Hne. rewrite Hst'.
    rewrite (my_status_refs other st ln lg ls lp) by assumption. cbn [fst].
    rewrite Hmine, !Hother by assumption.
    rewrite dict_get_set_other; [reflexivity|].
    intros Heq. apply Hne. apply str_of_int_inj. exact Heq.
Qed.

Lemma set_name_then_my_status_witness :
  (my_status 42 (set_name_cmd calm 42 (lit "Aki") started).2).1
  = Ok (JStr (lit "Aki"), JBool false, JBool false, JStr DEFAULT_MODEL).
Proof.
  assert (Hlt : (0 < length (heap started))%nat) by (vm_compute; lia).
  destruct (set_name_then_my_status calm 42 (lit "Aki") started
              0%nat 1%nat 2%nat 4%nat eq_refl eq_refl eq_refl eq_refl Hlt
              ltac:(discriminate) ltac:(discriminate) ltac:(discriminate))
    as [(n & g & s & p & Hbefore & Hafter) _].
  rewrite Hafter. vm_compute in Hbefore. injection Hbefore as _ <- <- <-.
  reflexivity.
Defined.

Lemma compose_silent_marker g name text :
  startswith (compose g name true text) SILENT_MARKER = true.
Proof.
  unfold compose. cbn zeta.
  set (greeted := if g then name ++ IDEOGRAPHIC_COMMA :: text else text).
  destruct (startswith greeted SILENT_MARKER) eqn:H; [exact H|].
  apply startswith_marker_app.
Qed.

(** X8: [set_silent_cmd], then a reply to the same user: the text is
    composed as before the command (same greeting, same name), with the
    silent flag of the command; so after "on" every reply to the user starts
    with the silent marker.  The replies to the other users are composed as
    they were. *)
Theorem set_silent_then_reply (E : env) (user : Z) (mode : list N)
    (st : state) (ln lg ls : nat) (display text : list N) :
  nicknames st = Ref ln -> greeting_prefs st = Ref lg ->
  silent_prefs st = Ref ls ->
  (ls < length (heap st))%nat -> ls <> ln -> ls <> lg ->
  let st' := (set_silent_cmd E user mode st).2 in
  let author := str_of_int user in
  (exists g name s,
     final_reply E author display text st = (Ok (compose g name s text), st)
     /\ final_reply E author display text st'
        = (Ok (compose g name (bool_decide (mode = ON)) text), st'))
  /\ (mode = ON ->
      exists reply,
        (final_reply E author display text st').1 = Ok reply
        /\ startswith reply SILENT_MARKER = true)
  /\ forall other,
       other <> user ->
       (final_reply E (str_of_int other) display text st').1
       = (final_reply E (str_of_int other) display text st).1.
Proof.
  intros Hn Hg Hs Hlt Hsn Hsg. cbn zeta.
  set (uid := str_of_int user). set (on := bool_decide (mode = ON)).
  set (h1 := <[ls := dict_set uid (JBool on) (deref (heap st) ls)]> (heap st)).
  assert (Hrun : same_memory (with_heap h1 st) (set_silent_cmd E user mode st).2).
  { unfold set_silent_cmd. cbn zeta. unfold bind at 1. rewrite Hs.
    cbn [setitem]. apply saved_and_answered. }
  destruct Hrun as (Hh & Hn' & Hg' & Hs' & _ & _).
  cbn [heap nicknames greeting_prefs silent_prefs with_heap] in *.
  set (st' := (set_silent_cmd E user mode st).2) in *.
  assert (Hother : forall l, ls <> l -> deref h1 l = deref (heap st) l).
  { intros l Hl. apply deref_insert_other. congruence. }
  assert (Hmine : deref h1 ls = dict_set uid (JBool on) (deref (heap st) ls)).
  { apply deref_insert_same. exact Hlt. }
  assert (Hbefore : forall a,
    final_reply E a display text st
    = (Ok (compose
             (truthy E (default (JBool false) (dict_get a (deref (heap st) lg))))
             (format_value E
                (default (JStr display) (dict_get a (deref (heap st) ln))))
             (truthy E (default (JBool false) (dict_get a (deref (heap st) ls))))
             text), st)).
  { intros a. apply final_reply_compose; rewrite ?Hn, ?Hg, ?Hs; reflexivity. }
  assert (Hafter : forall a,
    final_reply E a display text st'
    = (Ok (compose
             (truthy E (default (JBool false) (dict_get a (deref (heap st) lg))))
             (format_value E
                (default (JStr display) (dict_get a (deref (heap st) ln))))
             (truthy E (default (JBool false)
                          (dict_get a (dict_set uid (JBool on)
                                         (deref (heap st) ls)))))
             text), st')).
  { intros a. apply final_reply_compose; rewrite ?Hn', ?Hg', ?Hs', ?Hn, ?Hg, ?Hs;
      cbn [get_or fst]; rewrite Hh, ?Hmine, ?Hother by assumption; reflexivity. }
  assert (Hflag : truthy E (default (JBool false)
                    (dict_get uid (dict_set uid (JBool on) (deref (heap st) ls))))
                  = on).
  { rewrite dict_get_set_same. reflexivity. }
  split; [|split].
  - eexists _, _, _. split; [apply Hbefore|]. rewrite Hafter, Hflag. reflexivity.
  - intros Hon. eexists. rewrite Hafter, Hflag. cbn [fst]. split; [reflexivity|].
    unfold on. rewrite bool_decide_eq_true_2 by exact Hon.
    apply compose_silent_marker.
  - intros other Hne. rewrite Hafter, Hbefore. cbn [fst].
    rewrite dict_get_set_other; [reflexivity|].
    intros Heq. apply Hne. apply str_of_int_inj. exact Heq.
Qed.

Lemma set_silent_then_reply_witness :
  exists reply,
    (final_reply calm (lit "42") (lit "x") (lit "hello")
       (set_silent_cmd calm 42 ON aki).2).1 = Ok reply
    /\ startswith reply SILENT_MARKER = true.
Proof.
  assert (Hlt : (2 < length (heap aki))%nat) by (vm_compute; lia).
  destruct (set_silent_then_reply calm 42 ON aki 0%nat 1%nat 2%nat
              (lit "x") (lit "hello") eq_refl eq_refl eq_refl Hlt
              ltac:(discriminate) ltac:(discriminate))
    as (_ & Hon & _).
  exact (Hon eq_refl).
Defined.

(* ===================================================================== *)
(** ** Memos *)
(* ===================================================================== *)

Lemma dict_set_nonempty {V} k (v : V) d : dict_set k v d <> [].
Proof. destruct d as [|[k' v'] d]; cbn; [|destruct (decide (k = k'))]; discriminate. Qed.

Lemma dict_keys_set {V} k (v : V) d :
  dict_keys (dict_set k v d)
  = if bool_decide (k ∈ dict_keys d) then dict_keys d else dict_keys d ++ [k].
Proof.
  unfold dict_keys. induction d as [|[k' v'] d IH]; cbn.
  - rewrite bool_decide_eq_false_2; [reflexivity|]. apply not_elem_of_nil.
  - destruct (decide (k = k')) as [->|Hne]; cbn.
    + rewrite bool_decide_eq_true_2; [reflexivity|]. apply list_elem_of_here.
    + rewrite IH. destruct (bool_decide (k ∈ map fst d)) eqn:Hin.
      * apply bool_decide_eq_true in Hin.
        rewrite bool_decide_eq_true_2; [reflexivity|].
        apply list_elem_of_further. exact Hin.
      * apply bool_decide_eq_false in Hin.
        rewrite bool_decide_eq_false_2; [reflexivity|].
        intros Hc. apply elem_of_cons in Hc as [Hc|Hc]; [congruence|auto].
Qed.

(** What [memo_add] does to the memory: the dictionary of the memos holds,
    for the user, the user's memos with the keyword set; the entries of the
    other users are what they were. *)
Lemma memo_add_memory E user keyword content st lm m0 :
  memos st = Ref lm -> (lm < length (heap st))%nat ->
  (user_memos user st).1 = Ok (JObj m0) ->
  let st' := (memo_add E user keyword content st).2 in
  memos st' = Ref lm
  /\ dict_get (str_of_int user) (deref (heap st') lm)
     = Some (JObj (dict_set keyword (JStr content) m0))
  /\ forall k, k <> str_of_int user ->
       dict_get k (deref (heap st') lm) = dict_get k (deref (heap st) lm).
Proof.
  intros Hm Hlt Hum. cbn zeta.
  rewrite (user_memos_ref user st lm Hm) in Hum. cbn [fst] in Hum.
  set (uid := str_of_int user) in *. set (d := deref (heap st) lm) in *.
  assert (Hrun : exists d',
    same_memory (with_heap (<[lm := d']> (heap st)) st)
                (memo_add E user keyword content st).2
    /\ dict_get uid d' = Some (JObj (dict_set keyword (JStr content) m0))
    /\ forall k, k <> uid -> dict_get k d' = dict_get k d).
  { unfold memo_add. cbn zeta. unfold bind at 1. rewrite Hm. fold uid d.
    destruct (dict_get uid d) as [v|] eqn:Hv; cbn [from_option id] in Hum.
    - injection Hum as ->. rewrite Hv. eexists. split; [apply saved_and_answered|].
      split; [apply dict_get_set_same|].
      intros k Hk. apply dict_get_set_other. exact Hk.
    - injection Hum as <-. rewrite dict_get_set_same.
      eexists. split; [apply saved_and_answered|].
      split; [apply dict_get_set_same|].
      intros k Hk. rewrite !dict_get_set_other by exact Hk. reflexivity. }
  destruct Hrun as (d' & (Hh & _ & _ & _ & Hm' & _) & Hmine & Hothers).
  cbn [heap memos with_heap] in *.
  split; [congruence|]. rewrite Hh, deref_insert_same by exact Hlt.
  split; assumption.
Qed.

Lemma memo_show_reads E user keyword st m :
  (user_memos user st).1 = Ok (JObj m) ->
  memo_show E user keyword st
  = (Ok tt,
     emit (Respond
             (match dict_get keyword m with
              | Some content =>
                  if truthy E content
                  then MEMO_ADD_1 ++ keyword ++ MEMO_ADD_2
                       ++ format_value E content ++ MEMO_SHOW_3
                  else MEMO_UNKNOWN_1 ++ keyword ++ MEMO_UNKNOWN_2
              | None => MEMO_UNKNOWN_1 ++ keyword ++ MEMO_UNKNOWN_2
              end) true) st).
Proof.
  unfold user_memos, memo_show, bind. intros H.
  pose proof (get_or_state (memos st) (str_of_int user) (JObj []) st) as Hst.
  destruct (get_or (memos st) (str_of_int user) (JObj []) st) as [r st1].
  cbn [fst snd] in *. subst st1 r. cbn [jget].
  destruct (dict_get keyword m) as [content|]; cbn [from_option id truthy];
    [destruct (truthy E content)|]; reflexivity.
Qed.

(** X9: [memo_add], then [memo_show] with the same keyword: the answer gives
    the content that was added; unless the content is the empty string,
    which is stored and then answered as not known.  The memos of the other
    users are what they were. *)
Theorem memo_add_then_show (E : env) (user : Z) (keyword content : list N)
    (st : state) (lm : nat) (m0 : list (list N * jval)) :
  memos st = Ref lm -> (lm < length (heap st))%nat ->
  (user_memos user st).1 = Ok (JObj m0) ->
  let st' := (memo_add E user keyword content st).2 in
  (user_memos user st').1
  = Ok (JObj (dict_set keyword (JStr content) m0))
  /\ memo_show E user keyword st'
     = (Ok tt,
        emit (Respond
                (if bool_decide (content = [])
                 then MEMO_UNKNOWN_1 ++ keyword ++ MEMO_UNKNOWN_2
                 else MEMO_ADD_1 ++ keyword ++ MEMO_ADD_2 ++ content
                      ++ MEMO_SHOW_3) true) st')
  /\ forall other,
       other <> user -> (user_memos other st').1 = (user_memos other st).1.
Proof.
  intros Hm Hlt Hum. cbn zeta.
  destruct (memo_add_memory E user keyword content st lm m0 Hm Hlt Hum)
    as (Hm' & Hmine & Hothers).
  set (st' := (memo_add E user keyword content st).2) in *.
  assert (Hum' : (user_memos user st').1
                 = Ok (JObj (dict_set keyword (JStr content) m0))).
  { rewrite (user_memos_ref user st' lm Hm'). cbn [fst]. rewrite Hmine.
    reflexivity. }
  split; [exact Hum'|]. split.
  - rewrite (memo_show_reads E user keyword st' _ Hum').
    rewrite dict_get_set_same. cbn [truthy format_value].
    destruct (bool_decide (content = [])); reflexivity.
  - intros other Hne.
    rewrite (user_memos_ref other st' lm Hm'), (user_memos_ref other st lm Hm).
    cbn [fst]. rewrite Hothers; [reflexivity|].
    intros Heq. apply Hne. apply str_of_int_inj. exact Heq.
Qed.

Lemma memo_add_then_show_witness :
  memo_show calm 42 (lit "k") remembering
  = (Ok tt,
     emit (Respond (MEMO_ADD_1 ++ lit "k" ++ MEMO_ADD_2 ++ lit "v"
                    ++ MEMO_SHOW_3) true) remembering).
Proof.
  assert (Hlt : (3 < length (heap aki_silent))%nat) by (vm_compute; lia).
  destruct (memo_add_then_show calm 42 (lit "k") (lit "v") aki_silent
              3%nat [] eq_refl Hlt eq_refl) as (_ & Hshow & _).
  exact Hshow.
Defined.

(** X10: [memo_list] after [memo_add]: the keywords stand in the order in
    which they were first added, one on a line; a keyword that was known
    keeps its place, a new one comes last. *)
Theorem memo_add_then_list (E : env) (user : Z) (keyword content : list N)
    (st : state) (lm : nat) (m0 : list (list N * jval))
    (display_name : list N) :
  memos st = Ref lm -> (lm < length (heap st))%nat ->
  (user_memos user st).1 = Ok (JObj m0) ->
  let st' := (memo_add E user keyword content st).2 in
  let keywords :=
    if bool_decide (keyword ∈ dict_keys m0) then dict_keys m0
    else dict_keys m0 ++ [keyword] in
  memo_list E user display_name st'
  = (Ok (Embedded
           (Embed (display_name ++ MEMO_LIST_TITLE)
                  (Some (str_join [10%N]
                           (map (fun key => [45%N; 32%N] ++ key) keywords)))
                  purple [] None) true), st').
Proof.
  intros Hm Hlt Hum. cbn zeta.
  destruct (memo_add_memory E user keyword content st lm m0 Hm Hlt Hum)
    as (Hm' & Hmine & _).
  set (st' := (memo_add E user keyword content st).2) in *.
  unfold memo_list, bind. rewrite Hm'. cbn [get_or]. rewrite Hmine.
  cbn [from_option id truthy].
  rewrite bool_decide_eq_false_2 by apply dict_set_nonempty.
  cbn [negb]. rewrite dict_keys_set. reflexivity.
Qed.

Lemma memo_add_then_list_witness :
  memo_list calm 42 (lit "Aki") remembering
  = (Ok (Embedded
           (Embed (lit "Aki" ++ MEMO_LIST_TITLE) (Some (lit "- k"))
                  purple [] None) true), remembering).
Proof.
  assert (Hlt : (3 < length (heap aki_silent))%nat) by (vm_compute; lia).
  exact (memo_add_then_list calm 42 (lit "k") (lit "v") aki_silent 3%nat []
           (lit "Aki") eq_refl Hlt eq_refl).
Defined.

(** X11: [memo_forget]: for a keyword that is not among the user's memos it
    only answers; nothing is changed and nothing is saved.  For a keyword
    that is, the user's memos are the same without it, [memo_show] answers
    that the keyword is not known, and the memos of the other users are what
    they were. *)
Theorem memo_forget_then_show (E : env) (user : Z) (keyword : list N)
    (st : state) (lm : nat) (m0 : list (list N * jval)) :
  memos st = Ref lm -> (lm < length (heap st))%nat ->
  (user_memos user st).1 = Ok (JObj m0) ->
  let st' := (memo_forget E user keyword st).2 in
  (dict_get keyword m0 = None ->
   memo_forget E user keyword st
   = (Ok tt,
      emit (Respond (MEMO_UNKNOWN_1 ++ keyword ++ MEMO_NEVER_2) true) st))
  /\ (is_Some (dict_get keyword m0) ->
      (user_memos user st').1 = Ok (JObj (dict_pop keyword m0))
      /\ memo_show E user keyword st'
         = (Ok tt,
            emit (Respond (MEMO_UNKNOWN_1 ++ keyword ++ MEMO_UNKNOWN_2) true)
                 st')
      /\ forall other,
           other <> user ->
           (user_memos other st').1 = (user_memos other st).1).
Proof.
  intros Hm Hlt Hum. cbn zeta.
  rewrite (user_memos_ref user st lm Hm) in Hum. cbn [fst] in Hum.
  set (uid := str_of_int user) in *. set (d := deref (heap st) lm) in *.
  unfold memo_forget. cbn zeta. rewrite Hm. cbn [to_json_value str_in].
  fold uid d.
  destruct (dict_get uid d) as [v|] eqn:Hv; cbn [from_option id] in Hum.
  - injection Hum as ->.
    rewrite bool_decide_eq_true_2 by eauto. cbn [from_option id str_in].
    split.
    + intros Hk. rewrite Hk.
      rewrite bool_decide_eq_false_2; [reflexivity|].
      intros [x Hx]. discriminate.
    + intros Hk. rewrite bool_decide_eq_true_2 by exact Hk.
      set (d' := dict_set uid (JObj (dict_pop keyword m0)) d).
      assert (Hrun : same_memory (with_heap (<[lm := d']> (heap st)) st)
                ((update (with_heap (<[lm := d']> (heap st))) ;;
                  save_bot_data E ;;
                  respond (MEMO_ADD_1 ++ keyword ++ MEMO_FORGET_2) true) st).2).
      { unfold bind at 1. cbn [update]. apply saved_and_answered. }
      set (st' := ((update (with_heap (<[lm := d']> (heap st))) ;; _) st).2) in *.
      destruct Hrun as (Hh & _ & _ & _ & Hm' & _).
      cbn [heap memos with_heap] in *.
      assert (Hm'' : memos st' = Ref lm) by congruence.
      assert (Hd : deref (heap st') lm = d').
      { rewrite Hh. apply deref_insert_same. exact Hlt. }
      assert (Hum' : (user_memos user st').1 = Ok (JObj (dict_pop keyword m0))).
      { rewrite (user_memos_ref user st' lm Hm''). cbn [fst]. rewrite Hd.
        unfold d'. fold uid. rewrite dict_get_set_same. reflexivity. }
      split; [exact Hum'|]. split.
      * rewrite (memo_show_reads E user keyword st' _ Hum').
        rewrite dict_get_pop_same. reflexivity.
      * intros other Hne.
        rewrite (user_memos_ref other st' lm Hm''), (user_memos_ref other st lm Hm).
        cbn [fst]. rewrite Hd. unfold d'.
        rewrite dict_get_set_other; [reflexivity|].
        intros Heq. apply Hne. apply str_of_int_inj. exact Heq.
  - injection Hum as <-.
    rewrite bool_decide_eq_false_2 by (intros [x Hx]; discriminate).
    split; [reflexivity|]. intros [x Hx]. discriminate.
Qed.

Lemma memo_forget_then_show_witness :
  memo_show calm 42 (lit "k") (memo_forget calm 42 (lit "k") remembering).2
  = (Ok tt,
     emit (Respond (MEMO_UNKNOWN_1 ++ lit "k" ++ MEMO_UNKNOWN_2) true)
          (memo_forget calm 42 (lit "k") remembering).2).
Proof.
  assert (Hlt : (3 < length (heap remembering))%nat) by (vm_compute; lia).
  destruct (memo_forget_then_show calm 42 (lit "k") remembering 3%nat
              [(lit "k", JStr (lit "v"))] eq_refl Hlt eq_refl)
    as (_ & Hknown).
  destruct Hknown as (_ & Hshow & _); [|exact Hshow].
  vm_compute. eauto.
Defined.

(* ===================================================================== *)
(** ** The commands of the administrators *)
(* ===================================================================== *)

Lemma deref_cleared (h : list (pydict jval)) l l' :
  l = l' \/ deref h l = [] -> deref (<[l' := []]> h) l = [].
Proof.
  intros H. destruct (decide (l = l')) as [->|Hne].
  - destruct (decide (l' < length h)%nat) as [Hlt|Hge].
    + apply deref_insert_same. exact Hlt.
    + apply deref_out_of_range. rewrite length_insert. lia.
  - rewrite deref_insert_other by assumption.
    destruct H; [contradiction|assumption].
Qed.

(** X12: [all_erase_cmd] erases for the owner of the guild and for a member
    who may manage the guild, and for nobody else: outside a guild, or for
    another member, it only answers.  After it has erased, every setting of
    every user reads as its default and every user's memos are empty. *)
Theorem all_erase_cmd_for_admins_only (E : env) (user : Z) (guild : option Z)
    (manage_guild : bool) (st : state) (ln lg ls lm lp : nat) :
  nicknames st = Ref ln -> greeting_prefs st = Ref lg ->
  silent_prefs st = Ref ls -> memos st = Ref lm -> model_prefs st = Ref lp ->
  let st' := (all_erase_cmd E user guild manage_guild st).2 in
  (is_admin user guild manage_guild = true
   <-> exists owner_id,
         guild = Some owner_id /\ (user = owner_id \/ manage_guild = true))
  /\ (is_admin user guild manage_guild = false ->
      all_erase_cmd E user guild manage_guild st
      = (Ok tt, emit (Respond ADMIN_ONLY true) st))
  /\ (is_admin user guild manage_guild = true ->
      forall u,
        my_status u st'
        = (Ok (JStr NOT_YET, JBool false, JBool false, JStr DEFAULT_MODEL),
           st')
        /\ user_memos u st' = (Ok (JObj []), st')).
Proof.
  intros Hn Hg Hs Hm Hp. cbn zeta. split; [|split].
  - unfold is_admin. destruct guild as [owner_id|].
    + rewrite orb_true_iff, Z.eqb_eq. split.
      * intros H. exists owner_id. split; [reflexivity|exact H].
      * intros (o & [= <-] & H). exact H.
    + split; [discriminate|]. intros (o & Ho & _). discriminate.
  - intros Hno. unfold all_erase_cmd. rewrite Hno. reflexivity.
  - intros Hyes u. unfold all_erase_cmd. rewrite Hyes. cbn [negb].
    set (h5 := <[lp := []]> (<[lm := []]> (<[ls := []]> (<[lg := []]>
                 (<[ln := []]> (heap st)))))).
    assert (Hrun : same_memory (with_heap h5 st)
      (((fun st => clear K_nicknames (nicknames st) with_nicknames st) ;;
        (fun st => clear K_greeting_prefs (greeting_prefs st)
                         with_greeting_prefs st) ;;
        (fun st => clear K_silent_prefs (silent_prefs st) with_silent_prefs st) ;;
        (fun st => clear K_memos (memos st) with_memos st) ;;
        (fun st => clear K_model_prefs (model_prefs st) with_model_prefs st) ;;
        save_bot_data E ;;
        respond ALL_CLEAR true) st).2).
    { destruct st as [h fs j bd n g s m p ts].
      cbn [nicknames greeting_prefs silent_prefs memos model_prefs] in *.
      subst n g s m p. do 5 unfold bind at 1.
      cbn [clear with_heap heap files journal bot_data nicknames
           greeting_prefs silent_prefs memos model_prefs active_timers].
      apply saved_and_answered. }
    match type of Hrun with same_memory _ ?s => set (st' := s) in * end.
    destruct Hrun as (Hh & Hn' & Hg' & Hs' & Hm' & Hp').
    cbn [heap nicknames greeting_prefs silent_prefs memos model_prefs
         with_heap] in *.
    assert (Hempty : forall l, In l [ln; lg; ls; lm; lp] -> deref h5 l = []).
    { intros l Hl. unfold h5. cbn [In] in Hl.
      repeat match goal with
             | |- deref (<[_ := []]> _) _ = [] => apply deref_cleared
             end.
      destruct Hl as [<-|[<-|[<-|[<-|[<-|[]]]]]];
        repeat first
          [ left; reflexivity
          | right; apply deref_cleared ]. }
    split.
    + rewrite (my_status_refs u st' ln lg ls lp) by congruence.
      rewrite Hh, !Hempty by (cbn; tauto). reflexivity.
    + rewrite (user_memos_ref u st' lm) by congruence.
      rewrite Hh, Hempty by (cbn; tauto). reflexivity.
Qed.

Lemma all_erase_cmd_for_admins_only_witness :
  my_status 42 (all_erase_cmd calm 42 (Some 42) false remembering).2
  = (Ok (JStr NOT_YET, JBool false, JBool false, JStr DEFAULT_MODEL),
     (all_erase_cmd calm 42 (Some 42) false remembering).2).
Proof.
  destruct (all_erase_cmd_for_admins_only calm 42 (Some 42) false remembering
              0%nat 1%nat 2%nat 3%nat 4%nat eq_refl eq_refl eq_refl eq_refl
              eq_refl) as (_ & _ & Hyes).
  exact (proj1 (Hyes eq_refl 42)).
Defined.

Lemma bind_ok {A B} (m : M A) (k : A -> M B) st a st' :
  m st = (Ok a, st') -> (x <- m ;; k x) st = k a st'.
Proof. intros H. unfold bind. rewrite H. reflexivity. Qed.

Lemma own_flag_ref l uid st :
  own_flag (Ref l) uid st
  = (Ok (JObj [(uid, default (JBool false)
                       (dict_get uid (deref (heap st) l)))]), st).
Proof. reflexivity. Qed.

Lemma own_entry_ref l uid dflt st :
  own_entry (Ref l) uid dflt st
  = (Ok (match dict_get uid (deref (heap st) l) with
         | Some v => JObj [(uid, v)]
         | None => JObj []
         end), st).
Proof.
  unfold own_entry. cbn [to_json_value str_in].
  destruct (dict_get uid (deref (heap st) l)) as [v|] eqn:Hv.
  - rewrite bool_decide_eq_true_2 by eauto.
    unfold bind, ret. cbn [get_or]. rewrite Hv. reflexivity.
  - rewrite bool_decide_eq_false_2 by (intros [x Hx]; discriminate).
    reflexivity.
Qed.

(** X13: What [memory_read_cmd] shows to a member who is no administrator
    depends on nothing but the member's own entries in the five maps: in two
    states that agree on these, whatever they hold for other users, the
    answer is the same. *)
Theorem memory_read_shows_own_entries_only (user : Z) (guild : option Z)
    (manage_guild : bool) (st1 st2 : state) :
  is_admin user guild manage_guild = false ->
  Forall is_Some (own_entries user st1) ->
  own_entries user st1 = own_entries user st2 ->
  (memory_read_cmd user guild manage_guild st1).1
  = (memory_read_cmd user guild manage_guild st2).1.
Proof.
  intros Hno Hdicts Hsame.
  assert (Hdata : forall st n g s m p,
    own_entries user st = [Some n; Some g; Some s; Some m; Some p] ->
    memory_read_data user guild manage_guild st
    = (Ok (fold_left (fun d kv => dict_set kv.1 kv.2 d)
             [(K_nicknames,
               match n with
               | Some v => JObj [(str_of_int user, v)] | None => JObj []
               end);
              (K_greeting_prefs,
               JObj [(str_of_int user, default (JBool false) g)]);
              (K_silent_prefs,
               JObj [(str_of_int user, default (JBool false) s)]);
              (K_memos,
               match m with
               | Some v => JObj [(str_of_int user, v)] | None => JObj []
               end);
              (K_model_prefs,
               match p with
               | Some v => JObj [(str_of_int user, v)] | None => JObj []
               end)]
             [(K_scope, JStr SCOPE_SELF)]), st)).
  { intros st n g s m p Hst. unfold memory_read_data. rewrite Hno.
    unfold own_entries in Hst. cbn [map] in Hst.
    destruct st as [h fs j bd on og os om op ts].
    cbn [nicknames greeting_prefs silent_prefs memos model_prefs heap] in Hst.
    destruct on as [l1| | | | |]; try discriminate.
    destruct og as [l2| | | | |]; try discriminate.
    destruct os as [l3| | | | |]; try discriminate.
    destruct om as [l4| | | | |]; try discriminate.
    destruct op as [l5| | | | |]; try discriminate.
    injection Hst as <- <- <- <- <-.
    erewrite bind_ok by (cbn [nicknames]; apply own_entry_ref).
    erewrite bind_ok by (cbn [greeting_prefs]; apply own_flag_ref).
    erewrite bind_ok by (cbn [silent_prefs]; apply own_flag_ref).
    erewrite bind_ok by (cbn [memos]; apply own_entry_ref).
    erewrite bind_ok by (cbn [model_prefs]; apply own_entry_ref).
    reflexivity. }
  assert (Hshape : exists n g s m p,
             own_entries user st1 = [Some n; Some g; Some s; Some m; Some p]).
  { unfold own_entries in *. cbn [map] in *.
    repeat match goal with
           | H : Forall _ (_ :: _) |- _ =>
               apply Forall_cons_1 in H as [[? ?] H]
           end.
    repeat match goal with H : _ = Some _ |- _ => rewrite H end.
    eauto 6. }
  destruct Hshape as (n & g & s & m & p & H1).
  assert (H2 : own_entries user st2 = [Some n; Some g; Some s; Some m; Some p])
    by congruence.
  unfold memory_read_cmd, bind.
  rewrite (Hdata st1 n g s m p H1), (Hdata st2 n g s m p H2).
  destruct (1800 <? _)%nat; [destruct (Utf8.encode _)|]; reflexivity.
Qed.

Lemma memory_read_shows_own_entries_only_witness :
  (memory_read_cmd 42 (Some 7) false remembering).1
  = (memory_read_cmd 42 (Some 7) false
       (set_name_cmd calm 43 (lit "Bo") remembering).2).1.
Proof.
  apply (memory_read_shows_own_entries_only 42 (Some 7) false remembering
           (set_name_cmd calm 43 (lit "Bo") remembering).2).
  - reflexivity.
  - vm_compute. repeat constructor; eauto.
  - vm_compute. reflexivity.
Defined.


(* ===================================================================== *)
(** ** Chatting *)
(* ===================================================================== *)

Lemma lstrip_blank s : forallb isspace s = true -> lstrip s = [].
Proof.
  induction s as [|c s IH]; [reflexivity|]. cbn [forallb lstrip].
  intros H. apply andb_prop in H as [Hc Hs]. rewrite Hc. exact (IH Hs).
Qed.

Lemma strip_blank s : forallb isspace s = true -> strip s = [].
Proof. intros H. unfold strip. rewrite (lstrip_blank s H). reflexivity. Qed.

Section IntDictFacts.
Context {V : Type}.

Lemma int_get_set_same k (v : V) d : int_get k (int_set k v d) = Some v.
Proof.
  induction d as [|[k' v'] d IH]; cbn.
  - destruct (decide (k = k)); congruence.
  - destruct (decide (k = k')) as [->|Hne]; cbn.
    + destruct (decide (k' = k')); congruence.
    + destruct (decide (k = k')); [congruence|exact IH].
Qed.

Lemma int_get_set_other k k' (v : V) d :
  k <> k' -> int_get k (int_set k' v d) = int_get k d.
Proof.
  intros Hne. induction d as [|[k2 v2] d IH]; cbn.
  - destruct (decide (k = k')); congruence.
  - destruct (decide (k' = k2)) as [->|H2]; cbn.
    + destruct (decide (k = k2)); congruence.
    + destruct (decide (k = k2)); [reflexivity|exact IH].
Qed.
End IntDictFacts.

Lemma untouched_refl st : untouched st st.
Proof. repeat split. Qed.

Lemma untouched_emit e st : untouched st (emit e st).
Proof. repeat split. Qed.

Lemma untouched_trans st1 st2 st3 :
  untouched st1 st2 -> untouched st2 st3 -> untouched st1 st3.
Proof.
  intros (A1 & A2 & A3 & A4) (B1 & B2 & B3 & B4).
  split; [eapply same_memory_trans; eassumption|]. repeat split; congruence.
Qed.

(** [reply_helper] on a client whose three maps are dictionaries: one
    attempt to send, the text that [final_reply] composes, to the channel
    of the message; the exception of a failed attempt is printed, not
    raised. *)
Lemma reply_helper_once E channel author display text st ln lg ls :
  nicknames st = Ref ln -> greeting_prefs st = Ref lg ->
  silent_prefs st = Ref ls ->
  exists sent st',
    reply_helper E channel author display text st = (Ok tt, st')
    /\ (final_reply E author display text st).1 = Ok sent
    /\ attempts (journal st') = attempts (journal st) ++ [(channel, sent)]
    /\ untouched st st'.
Proof.
  intros Hn Hg Hs.
  assert (Hf : exists sent,
             final_reply E author display text st = (Ok sent, st)).
  { eexists. apply final_reply_compose; rewrite ?Hn, ?Hg, ?Hs; reflexivity. }
  destruct Hf as [sent Hf]. exists sent.
  unfold reply_helper, bind. rewrite Hf.
  destruct (send E (journal st) channel sent) eqn:Hsend; eexists;
    (split; [unfold print, update; reflexivity|]);
    (split; [reflexivity|]); cbn [journal emit with_journal];
    rewrite ?attempts_app; cbn [attempts]; rewrite ?app_nil_r;
    (split; [reflexivity|]); repeat split.
Qed.

(** [ask_gemini_async] returns a text, always; it prints one line at most
    and does nothing else. *)
Lemma ask_gemini_async_quiet E W text memos_of model st :
  exists answer st',
    ask_gemini_async E W text memos_of model st = (Ok answer, st')
    /\ attempts (journal st') = attempts (journal st)
    /\ untouched st st'.
Proof.
  unfold ask_gemini_async.
  assert (Hp : forall (line answer : list N),
    exists a st',
      (print line ;; ret answer) st = (Ok a, st')
      /\ attempts (journal st') = attempts (journal st)
      /\ untouched st st').
  { intros line answer. eexists _, _. split; [reflexivity|].
    cbn [journal emit with_journal]. rewrite attempts_app. cbn [attempts].
    rewrite app_nil_r. split; [reflexivity|]. apply untouched_emit. }
  assert (Hr : forall answer : list N,
    exists a st',
      ret answer st = (Ok a, st')
      /\ attempts (journal st') = attempts (journal st)
      /\ untouched st st').
  { intros answer. eexists _, _. split; [reflexivity|].
    split; [reflexivity|]. apply untouched_refl. }
  destruct (GEMINI_API_KEY W) as [[|c key]|]; try apply Hr. cbn zeta.
  destruct (configure_error W); [apply Hp|].
  destruct (memo_context E memos_of); [|apply Hp].
  destruct (generate W _ _ _); [apply Hr|apply Hp|apply Hp].
Qed.

(** X15: [on_message] does nothing at all for a message of a bot, a message
    outside a guild, a message in a channel that was switched off, and a
    message that is empty or all white space.  When the typing indicator
    cannot be shown, its exception ends the handler before anything is sent. *)
Theorem on_message_ignores (E : env) (W : world) (chat_switch : list (Z * bool))
    (m : incoming) (st : state) :
  (author_bot m = true \/ in_guild m = false
   \/ int_get (msg_channel m) chat_switch = Some false
   \/ forallb isspace (content m) = true ->
   on_message E W chat_switch m st = (Handled (Ok tt), st))
  /\ (author_bot m = false -> in_guild m = true ->
      int_get (msg_channel m) chat_switch <> Some false ->
      strip (content m) <> [] ->
      typing_fails W (msg_channel m) = true ->
      on_message E W chat_switch m st = (TypingFailed, st)).
Proof.
  unfold on_message. split.
  - intros [H|[H|[H|H]]].
    + rewrite H. reflexivity.
    + rewrite H. rewrite orb_true_r. reflexivity.
    + rewrite H. destruct (author_bot m || negb (in_guild m)); reflexivity.
    + rewrite (strip_blank _ H).
      destruct (author_bot m || negb (in_guild m)); [reflexivity|].
      destruct (negb _); reflexivity.
  - intros Hb Hg Hsw Htext Htyping. rewrite Hb, Hg, Htyping. cbn [orb negb].
    destruct (int_get (msg_channel m) chat_switch) as [[|]|];
      try congruence; cbn [from_option id default_chat_on negb];
      rewrite bool_decide_eq_false_2 by exact Htext; reflexivity.
Qed.

Lemma on_message_ignores_witness :
  on_message calm still [] (said (lit "  ")) aki = (Handled (Ok tt), aki).
Proof.
  apply on_message_ignores. right. right. right. reflexivity.
Defined.

(** X16: A message that [on_message] does not ignore, on a client whose five
    maps are dictionaries, is answered once: the handler returns, it has
    made one attempt to send, to the channel of the message, and it has
    changed neither the memory nor the files nor the timers. *)
Theorem on_message_answers_once (E : env) (W : world)
    (chat_switch : list (Z * bool)) (m : incoming) (st : state)
    (ln lg ls lm lp : nat) :
  nicknames st = Ref ln -> greeting_prefs st = Ref lg ->
  silent_prefs st = Ref ls -> memos st = Ref lm -> model_prefs st = Ref lp ->
  author_bot m = false -> in_guild m = true ->
  int_get (msg_channel m) chat_switch <> Some false ->
  strip (content m) <> [] ->
  typing_fails W (msg_channel m) = false ->
  let r := on_message E W chat_switch m st in
  r.1 = Handled (Ok tt)
  /\ (exists sent,
        attempts (journal r.2)
        = attempts (journal st) ++ [(msg_channel m, sent)])
  /\ untouched st r.2.
Proof.
  intros Hn Hg Hs Hm Hp Hb Hgu Hsw Htext Htyping. cbn zeta.
  unfold on_message. rewrite Hb, Hgu, Htyping. cbn [orb negb].
  assert (Hon : negb (default default_chat_on
                        (int_get (msg_channel m) chat_switch)) = false).
  { destruct (int_get (msg_channel m) chat_switch) as [[|]|];
      try congruence; reflexivity. }
  rewrite Hon. rewrite bool_decide_eq_false_2 by exact Htext.
  set (text := strip (content m)).
  assert (Hreply : forall v st0,
    untouched st st0 ->
    exists sent st',
      reply_helper E (msg_channel m) (str_of_int (author_id m))
                   (author_display_name m) v st0 = (Ok tt, st')
      /\ attempts (journal st')
         = attempts (journal st0) ++ [(msg_channel m, sent)]
      /\ untouched st st').
  { intros v st0 Hu.
    destruct Hu as ((Hh0 & Hn0 & Hg0 & Hs0 & Hm0 & Hp0) & Hrest).
    destruct (reply_helper_once E (msg_channel m) (str_of_int (author_id m))
                (author_display_name m) v st0 ln lg ls)
      as (sent & st' & Hrun & _ & Hatt & Hu'); try congruence.
    exists sent, st'. split; [exact Hrun|]. split; [exact Hatt|].
    eapply untouched_trans; [|exact Hu'].
    split; [repeat split; assumption|exact Hrest]. }
  assert (Hanswer : exists sent st',
    on_message_answer E W m text st = (Ok tt, st')
    /\ attempts (journal st')
       = attempts (journal st) ++ [(msg_channel m, sent)]
    /\ untouched st st').
  { unfold on_message_answer. cbn zeta.
    destruct (bool_decide (text = user_name W)
              || bool_decide (text = user_display_name W));
      [apply Hreply, untouched_refl|].
    destruct (List.find _ dict_map) as [[k v]|];
      [apply Hreply, untouched_refl|].
    destruct (below_030 W); [apply Hreply, untouched_refl|].
    unfold bind at 1. rewrite Hm. cbn [get_or].
    unfold bind at 1. rewrite Hp. cbn [get_or].
    unfold bind at 1.
    match goal with
    | |- context [ask_gemini_async E W text ?u ?mo st] =>
        destruct (ask_gemini_async_quiet E W text u mo st)
          as (answer & st1 & Hask & Hatt1 & Hu1)
    end.
    rewrite Hask.
    destruct (Hreply answer st1 Hu1) as (sent & st' & Hrun & Hatt & Hu').
    exists sent, st'. split; [exact Hrun|]. split; [|exact Hu'].
    rewrite Hatt, Hatt1. reflexivity. }
  destruct Hanswer as (sent & st' & Hrun & Hatt & Hu).
  rewrite Hrun. cbn [fst snd]. split; [reflexivity|].
  split; [exists sent; exact Hatt|exact Hu].
Qed.

Lemma on_message_answers_once_witness :
  (on_message calm still [] (said (lit "hi there")) aki).1 = Handled (Ok tt).
Proof.
  apply (on_message_answers_once calm still [] (said (lit "hi there")) aki
           0%nat 1%nat 2%nat 3%nat 4%nat);
    try reflexivity; try discriminate.
Defined.

(** X17: [chat_cmd] switches one channel: after "off" (any mode but "on")
    the messages of the channel are ignored; after "on" they are handled as
    in a channel that was never switched; the messages of every other
    channel are handled as before the command. *)
Theorem chat_cmd_switches_one_channel (E : env) (W : world) (channel : Z)
    (mode : list N) (chat_switch : list (Z * bool)) (st0 : state)
    (m : incoming) (st : state) :
  exists switched,
    (chat_cmd channel mode chat_switch st0).1 = Ok switched
    /\ (msg_channel m = channel -> mode <> ON ->
        on_message E W switched m st = (Handled (Ok tt), st))
    /\ (msg_channel m = channel -> mode = ON ->
        on_message E W switched m st = on_message E W [] m st)
    /\ (msg_channel m <> channel ->
        on_message E W switched m st = on_message E W chat_switch m st).
Proof.
  eexists. split; [reflexivity|]. unfold on_message. split; [|split].
  - intros -> Hmode. rewrite int_get_set_same.
    rewrite bool_decide_eq_false_2 by exact Hmode.
    destruct (author_bot m || negb (in_guild m)); reflexivity.
  - intros -> Hmode. rewrite int_get_set_same.
    rewrite bool_decide_eq_true_2 by exact Hmode. reflexivity.
  - intros Hne. rewrite int_get_set_other by exact Hne. reflexivity.
Qed.

Lemma find_first {A} (p : A -> bool) (l : list A) : forall i x,
  l !! i = Some x -> p x = true ->
  (forall j y, (j < i)%nat -> l !! j = Some y -> p y = false) ->
  List.find p l = Some x.
Proof.
  induction l as [|a l IH]; intros i x Hi Hx Hbefore; [discriminate|].
  destruct i as [|i]; cbn [List.find].
  - injection Hi as ->. rewrite Hx. reflexivity.
  - rewrite (Hbefore 0%nat a) by (cbn; first [lia|reflexivity]).
    apply (IH i x Hi Hx). intros j y Hj Hy.
    apply (Hbefore (S j) y); [lia|exact Hy].
Qed.

Lemma contains_nil k : contains [] k = true -> k = [].
Proof. destruct k; [reflexivity|discriminate]. Qed.

Lemma dict_map_keys i k v : dict_map !! i = Some (k, v) -> k <> [].
Proof.
  intros H.
  assert (Hall : Forall (fun kv => kv.1 <> []) dict_map)
    by (repeat constructor; discriminate).
  rewrite Forall_lookup in Hall. exact (Hall i (k, v) H).
Qed.

(** X18: A text that holds a keyword of the table, and is not the name of
    the client, gets the answer of the first keyword of the table that it
    holds, wherever the keyword stands in the text.  The random draws and
    the language model play no part in it. *)
Theorem on_message_first_keyword (E : env) (W : world)
    (chat_switch : list (Z * bool)) (m : incoming) (st : state)
    (i : nat) (k v : list N) :
  author_bot m = false -> in_guild m = true ->
  int_get (msg_channel m) chat_switch <> Some false ->
  typing_fails W (msg_channel m) = false ->
  strip (content m) <> user_name W ->
  strip (content m) <> user_display_name W ->
  dict_map !! i = Some (k, v) ->
  contains (strip (content m)) k = true ->
  (forall j k' v',
     (j < i)%nat -> dict_map !! j = Some (k', v') ->
     contains (strip (content m)) k' = false) ->
  on_message E W chat_switch m st
  = let '(r, st') :=
      reply_helper E (msg_channel m) (str_of_int (author_id m))
                   (author_display_name m) v st in
    (Handled r, st').
Proof.
  intros Hb Hg Hsw Htyping Hname Hdisplay Hi Hk Hbefore.
  assert (Htext : strip (content m) <> []).
  { intros Hnil. rewrite Hnil in Hk. apply contains_nil in Hk.
    exact (dict_map_keys i k v Hi Hk). }
  unfold on_message. rewrite Hb, Hg, Htyping. cbn [orb negb].
  assert (Hon : negb (default default_chat_on
                        (int_get (msg_channel m) chat_switch)) = false).
  { destruct (int_get (msg_channel m) chat_switch) as [[|]|];
      try congruence; reflexivity. }
  rewrite Hon. rewrite bool_decide_eq_false_2 by exact Htext.
  unfold on_message_answer. cbn zeta.
  rewrite !bool_decide_eq_false_2 by assumption. cbn [orb].
  rewrite (find_first (fun kv => contains (strip (content m)) kv.1)
             dict_map i (k, v) Hi Hk).
  - reflexivity.
  - intros j [k' v'] Hj Hy. exact (Hbefore j k' v' Hj Hy).
Qed.

Lemma on_message_first_keyword_witness :
  on_message calm still [] (said (lit "this")) aki
  = let '(r, st') := reply_helper calm 1 (lit "42") (lit "Aki")
                       (lit "ちわ！") aki in
    (Handled r, st').
Proof.
  apply (on_message_first_keyword calm still [] (said (lit "this")) aki
           14%nat (lit "hi") (lit "ちわ！"));
    try reflexivity; try discriminate; try (vm_compute; discriminate).
  intros j k' v' Hj Hy.
  do 14 (destruct j as [|j]; [injection Hy as <- _; reflexivity|]). lia.
Defined.

(* ===================================================================== *)
(** ** Games *)
(* ===================================================================== *)

Lemma randint_in_range W i a b :
  a <= b -> exists r, randint W i a b = Some r /\ a <= r <= b.
Proof.
  intros Hab. unfold randint.
  destruct (Z.ltb_spec b a) as [Hlt|_]; [lia|].
  eexists. split; [reflexivity|].
  pose proof (Nat.mod_upper_bound (randbelow W i (Z.to_nat (b - a + 1)))
                (Z.to_nat (b - a + 1))) as Hmod.
  lia.
Qed.

Lemma dice_rolls_in_range W sides draws :
  1 <= sides ->
  exists rolls,
    dice_rolls W sides draws = Some rolls
    /\ length rolls = length draws
    /\ Forall (fun r => 1 <= r <= sides) rolls.
Proof.
  intros Hs. induction draws as [|i draws (rolls & Hr & Hlen & Hall)].
  - exists []. repeat split. constructor.
  - destruct (randint_in_range W i 1 sides Hs) as (r & Hri & Hrange).
    exists (r :: rolls). cbn [dice_rolls]. rewrite Hri, Hr.
    split; [reflexivity|]. split; [cbn; lia|].
    constructor; assumption.
Qed.

Lemma sum_from (l : list Z) acc : fold_left Z.add l acc = acc + sum l.
Proof.
  unfold sum. revert acc. induction l as [|x l IH]; intros acc; cbn.
  - lia.
  - rewrite IH, (IH (0 + x)). lia.
Qed.

Lemma sum_cons x l : sum (x :: l) = x + sum l.
Proof. unfold sum at 1. cbn [fold_left]. rewrite sum_from. lia. Qed.

Lemma sum_in_range sides rolls :
  Forall (fun r => 1 <= r <= sides) rolls ->
  Z.of_nat (length rolls) <= sum rolls <= Z.of_nat (length rolls) * sides.
Proof.
  induction 1 as [|r rolls Hr _ IH].
  - cbn. lia.
  - rewrite sum_cons. cbn [length]. nia.
Qed.

(** X19: [dice_cmd] with a number of dice that is not negative and dice of
    one side or more: the total it shows is the sum of as many rolls, each
    from 1 to the number of sides, and the modifier; so it lies between the
    count plus the modifier and the count times the sides plus the modifier. *)
Theorem dice_cmd_total_in_range (W : world) (count sides : Z)
    (plus : option Z) :
  0 <= count -> 1 <= sides ->
  exists rolls formula shown,
    dice_cmd W count sides plus
    = Some (Embedded
              (Embed DICE_TITLE None teal
                 [EmbedField DICE_FORMULA formula true;
                  EmbedField DICE_TOTAL
                    (str_of_int (sum rolls + default 0 plus)) true;
                  EmbedField DICE_ROLLS shown false]
                 None)
              false)
    /\ Z.of_nat (length rolls) = count
    /\ Forall (fun r => 1 <= r <= sides) rolls
    /\ count + default 0 plus <= sum rolls + default 0 plus
       <= count * sides + default 0 plus.
Proof.
  intros Hc Hs.
  destruct (dice_rolls_in_range W sides (seq 0 (Z.to_nat count)) Hs)
    as (rolls & Hr & Hlen & Hall).
  rewrite length_seq in Hlen.
  exists rolls. unfold dice_cmd. rewrite Hr. eexists _, _.
  split; [reflexivity|]. split; [lia|]. split; [exact Hall|].
  pose proof (sum_in_range sides rolls Hall). nia.
Qed.

Lemma dice_cmd_total_in_range_witness :
  exists rolls formula shown,
    dice_cmd still 2 6 (Some 3)
    = Some (Embedded
              (Embed DICE_TITLE None teal
                 [EmbedField DICE_FORMULA formula true;
                  EmbedField DICE_TOTAL (str_of_int (sum rolls + 3)) true;
                  EmbedField DICE_ROLLS shown false]
                 None)
              false)
    /\ 2 + 3 <= sum rolls + 3 <= 2 * 6 + 3.
Proof.
  destruct (dice_cmd_total_in_range still 2 6 (Some 3))
    as (rolls & formula & shown & Hrun & _ & _ & Hrange); [lia|lia|].
  exists rolls, formula, shown. split; [exact Hrun|exact Hrange].
Defined.

Lemma length_str_join_le sep b l :
  l <> [] ->
  Forall (fun x => (length x <= b)%nat) l ->
  (length (str_join sep l) + length sep <= length l * (b + length sep))%nat.
Proof.
  intros Hne Hall. induction Hall as [|x l Hx Hall IH]; [congruence|].
  destruct l as [|y l].
  - cbn. lia.
  - specialize (IH ltac:(discriminate)).
    change (str_join sep (x :: y :: l))
      with (x ++ sep ++ str_join sep (y :: l)).
    rewrite !length_app. cbn [length] in *. nia.
Qed.

Lemma str_join_nonempty sep l :
  l <> [] -> Forall (fun x => x <> []) l -> str_join sep l <> [].
Proof.
  intros Hne Hall. destruct Hall as [|x l Hx Hall]; [congruence|].
  destruct x as [|c x]; [congruence|]. destruct l; discriminate.
Qed.

Lemma length_str_of_roll r :
  1 <= r <= 1000 ->
  (0 < length (str_of_int r) <= 4)%nat.
Proof.
  intros Hr.
  assert (Hall : forallb (fun n => let l := length (str_of_int (Z.of_nat n)) in
                                   (0 <? l)%nat && (l <=? 4)%nat)
                         (seq 1 1000) = true) by (vm_compute; reflexivity).
  rewrite forallb_forall in Hall.
  specialize (Hall (Z.to_nat r)). rewrite Z2Nat.id in Hall by lia.
  cbn zeta in Hall.
  assert (Hin : In (Z.to_nat r) (seq 1 1000)) by (apply in_seq; lia).
  apply Hall in Hin. apply andb_prop in Hin as [H1 H2].
  apply Nat.ltb_lt in H1. apply Nat.leb_le in H2. lia.
Qed.

(** X20: [dice_cmd] within the limits that the command declares (1 to 100
    dice of 2 to 1000 sides): the rolls are shown in full when there are 50
    of them or fewer, and otherwise as the first 25 and the last 25; the
    field that shows them is never empty and never longer than 301
    characters. *)
Theorem dice_cmd_rolls_fit (W : world) (count sides : Z) (plus : option Z) :
  1 <= count <= 100 -> 2 <= sides <= 1000 ->
  exists rolls formula total,
    dice_cmd W count sides plus
    = Some (Embedded
              (Embed DICE_TITLE None teal
                 [EmbedField DICE_FORMULA formula true;
                  EmbedField DICE_TOTAL total true;
                  EmbedField DICE_ROLLS (rolls_text rolls) false]
                 None)
              false)
    /\ Z.of_nat (length rolls) = count
    /\ (count <= 50 ->
        rolls_text rolls = str_join COMMA_SPACE (map str_of_int rolls))
    /\ (50 < count ->
        rolls_text rolls
        = str_join COMMA_SPACE (map str_of_int (take 25 rolls))
          ++ ELLIPSIS
          ++ str_join COMMA_SPACE
               (map str_of_int (drop (length rolls - 25) rolls)))
    /\ (0 < length (rolls_text rolls) <= 301)%nat.
Proof.
  intros Hc Hs.
  destruct (dice_rolls_in_range W sides (seq 0 (Z.to_nat count)))
    as (rolls & Hr & Hlen & Hall); [lia|].
  rewrite length_seq in Hlen.
  assert (Hshort : Forall (fun x => (length x <= 4)%nat)
                          (map str_of_int rolls)).
  { apply Forall_map. eapply Forall_impl; [exact Hall|].
    intros r Hr'. cbn beta in *.
    pose proof (length_str_of_roll r ltac:(lia)). lia. }
  assert (Hfull : Forall (fun x => x <> []) (map str_of_int rolls)).
  { apply Forall_map. eapply Forall_impl; [exact Hall|].
    intros r Hr' Hnil. cbn beta in *.
    pose proof (length_str_of_roll r ltac:(lia)) as Hl.
    rewrite Hnil in Hl. cbn in Hl. lia. }
  assert (Hbound : (0 < length (rolls_text rolls) <= 301)%nat).
  { unfold rolls_text. destruct (50 <? length rolls)%nat eqn:Hmany.
    - apply Nat.ltb_lt in Hmany.
      assert (H1 := length_str_join_le COMMA_SPACE 4
                      (map str_of_int (take 25 rolls))).
      assert (H2 := length_str_join_le COMMA_SPACE 4
                      (map str_of_int (drop (length rolls - 25) rolls))).
      rewrite !length_map, length_take in H1.
      rewrite !length_map, length_drop in H2.
      change (length COMMA_SPACE) with 2%nat in *.
      rewrite !length_app. change (length ELLIPSIS) with 5%nat.
      assert (Hne1 : map str_of_int (take 25 rolls) <> []).
      { destruct rolls; [cbn in Hmany; lia|discriminate]. }
      assert (Hne2 : map str_of_int (drop (length rolls - 25) rolls) <> []).
      { intros Hnil. apply (f_equal length) in Hnil.
        rewrite length_map, length_drop in Hnil. cbn in Hnil. lia. }
      specialize (H1 Hne1). specialize (H2 Hne2).
      apply Forall_map in Hshort.
      specialize (H1 (proj2 (Forall_map _ _ _) (Forall_take _ _ _ Hshort))).
      specialize (H2 (proj2 (Forall_map _ _ _) (Forall_drop _ _ _ Hshort))).
      lia.
    - apply Nat.ltb_ge in Hmany.
      assert (Hne : map str_of_int rolls <> []).
      { destruct rolls; [cbn in Hlen; lia|discriminate]. }
      pose proof (length_str_join_le COMMA_SPACE 4 _ Hne Hshort) as H1.
      rewrite length_map in H1. change (length COMMA_SPACE) with 2%nat in H1.
      pose proof (str_join_nonempty COMMA_SPACE _ Hne Hfull) as H2.
      destruct (str_join COMMA_SPACE (map str_of_int rolls));
        [congruence|cbn [length] in *; lia]. }
  exists rolls. unfold dice_cmd. rewrite Hr. eexists _, _. split.
  - destruct (rolls_text rolls) eqn:Htext; [|reflexivity].
    cbn in Hbound. lia.
  - split; [lia|]. split; [|split; [|exact Hbound]].
    + intros Hle. unfold rolls_text.
      destruct (Nat.ltb_spec 50 (length rolls)); [lia|reflexivity].
    + intros Hgt. unfold rolls_text.
      destruct (Nat.ltb_spec 50 (length rolls)); [reflexivity|lia].
Qed.

Lemma dice_cmd_rolls_fit_witness :
  exists rolls formula total,
    dice_cmd still 60 6 None
    = Some (Embedded
              (Embed DICE_TITLE None teal
                 [EmbedField DICE_FORMULA formula true;
                  EmbedField DICE_TOTAL total true;
                  EmbedField DICE_ROLLS (rolls_text rolls) false]
                 None)
              false)
    /\ (0 < length (rolls_text rolls) <= 301)%nat.
Proof.
  destruct (dice_cmd_rolls_fit still 60 6 None)
    as (rolls & formula & total & Hrun & _ & _ & _ & Hfit); [lia|lia|].
  exists rolls, formula, total. split; [exact Hrun|exact Hfit].
Defined.

(** X21: [rps_cmd] with one of the three hands never fails, and it judges
    fairly: the game is drawn exactly when the two hands are the same; the
    player wins exactly when, with the hands exchanged, the player would
    lose, and loses exactly when, with the hands exchanged, the player would
    win. *)
Theorem rps_cmd_is_fair (W : world) (hand : list N) :
  hand ∈ dict_keys bot_map ->
  exists bot you_sign bot_sign verdict,
    bot ∈ dict_keys bot_map
    /\ rps_cmd W hand
       = Some (Embedded
                 (Embed RPS_TITLE None blurple
                    [EmbedField RPS_YOU (you_sign ++ 32%N :: hand) true;
                     EmbedField RPS_BOT (bot_sign ++ 32%N :: bot) true;
                     EmbedField RPS_RESULT verdict false]
                    None)
                 false)
    /\ rps_result hand bot = Some verdict
    /\ (verdict = RPS_DRAW <-> hand = bot)
    /\ (verdict = RPS_WIN <-> rps_result bot hand = Some RPS_LOSE)
    /\ (verdict = RPS_LOSE <-> rps_result bot hand = Some RPS_WIN).
Proof.
  intros Hhand.
  assert (Hmod : (randbelow W 0 3 mod 3 < 3)%nat)
    by (apply Nat.mod_upper_bound; lia).
  assert (Hcases : hand = ROCK \/ hand = SCISSORS \/ hand = PAPER).
  { change (dict_keys bot_map) with [ROCK; SCISSORS; PAPER] in Hhand.
    repeat (apply elem_of_cons in Hhand as [Hhand|Hhand]; [auto|]).
    apply elem_of_nil in Hhand. contradiction. }
  clear Hhand.
  exists (choice W 0 (dict_keys bot_map) []),
         (default [] (dict_get hand bot_map)),
         (default [] (dict_get (choice W 0 (dict_keys bot_map) []) bot_map)),
         (default [] (rps_result hand (choice W 0 (dict_keys bot_map) []))).
  unfold rps_cmd. cbn zeta. unfold choice.
  change (length (dict_keys bot_map)) with 3%nat.
  change (dict_keys bot_map) with [ROCK; SCISSORS; PAPER].
  destruct (randbelow W 0 3 mod 3)%nat as [|[|[|n]]]; [| | |lia];
    cbn [nth];
    destruct Hcases as [-> | [-> | ->]];
    repeat split; try intros H;
    first [ solve [repeat constructor]
          | solve [vm_compute; reflexivity]
          | solve [vm_compute in H; discriminate H] ].
Qed.

Lemma rps_cmd_is_fair_witness :
  exists bot verdict,
    rps_result PAPER bot = Some verdict
    /\ (verdict = RPS_DRAW <-> PAPER = bot).
Proof.
  destruct (rps_cmd_is_fair still PAPER)
    as (bot & _ & _ & verdict & _ & _ & Hres & Hdraw & _).
  - repeat constructor.
  - exists bot, verdict. split; [exact Hres|exact Hdraw].
Defined.

(** *** The candidates of [which_cmd] *)

Lemma re_split_nonempty s : re_split s <> [].
Proof.
  induction s as [|c s IH]; [discriminate|]. cbn [re_split].
  destruct (re_split s) as [|p ps]; [discriminate|].
  destruct (is_sep c); [|discriminate].
  destruct s as [|c' s]; [discriminate|]. destruct (is_sep c'); discriminate.
Qed.

Lemma re_split_word_app w s :
  sep_free w = true ->
  re_split (w ++ s)
  = match re_split s with
    | p :: ps => (w ++ p) :: ps
    | [] => []
    end.
Proof.
  induction w as [|c w IH]; intros Hw.
  - cbn [app]. destruct (re_split s); reflexivity.
  - cbn [sep_free forallb] in Hw. apply andb_prop in Hw as [Hc Hw].
    apply negb_true_iff in Hc. cbn [app re_split]. rewrite (IH Hw), Hc.
    pose proof (re_split_nonempty s).
    destruct (re_split s); [congruence|reflexivity].
Qed.

(** [s] does not begin with a separator. *)
Lemma re_split_sep_app t s :
  t <> [] -> all_sep t = true ->
  match s with c :: _ => is_sep c = false | [] => True end ->
  re_split (t ++ s) = [] :: re_split s.
Proof.
  intros Hne Ht Hs. induction t as [|c t IH]; [congruence|].
  cbn [all_sep forallb] in Ht. apply andb_prop in Ht as [Hc Ht].
  cbn [app re_split]. rewrite Hc. destruct t as [|c2 t].
  - cbn [app]. pose proof (re_split_nonempty s).
    destruct (re_split s) as [|p ps] eqn:Hp; [congruence|].
    destruct s as [|c' s]; [reflexivity|]. rewrite Hs. reflexivity.
  - rewrite IH by (discriminate || exact Ht). cbn [app].
    cbn [all_sep forallb] in Ht. apply andb_prop in Ht as [Hc2 _].
    rewrite Hc2. reflexivity.
Qed.

Lemma isspace_is_sep c : isspace c = true -> is_sep c = true.
Proof. intros H. unfold is_sep. rewrite H. apply orb_true_r. Qed.

Lemma lstrip_word w : sep_free w = true -> lstrip w = w.
Proof.
  destruct w as [|c w]; [reflexivity|]. cbn [sep_free forallb lstrip].
  intros H. apply andb_prop in H as [Hc _]. apply negb_true_iff in Hc.
  destruct (isspace c) eqn:Hs; [|reflexivity].
  rewrite (isspace_is_sep c Hs) in Hc. discriminate.
Qed.

Lemma sep_free_rev w : sep_free w = true -> sep_free (rev w) = true.
Proof.
  unfold sep_free. rewrite !forallb_forall. intros H c Hc.
  apply H. apply in_rev. exact Hc.
Qed.

Lemma strip_word w : sep_free w = true -> strip w = w.
Proof.
  intros H. unfold strip. rewrite (lstrip_word w H).
  rewrite (lstrip_word _ (sep_free_rev w H)). apply rev_involutive.
Qed.

(** The pieces carry no separator, and together they are the text without
    its separators. *)
Lemma re_split_pieces s :
  Forall (fun p => sep_free p = true) (re_split s)
  /\ concat (re_split s) = List.filter (fun c => negb (is_sep c)) s.
Proof.
  induction s as [|c s [IH1 IH2]].
  - split; [repeat constructor|reflexivity].
  - cbn [re_split List.filter].
    destruct (re_split s) as [|p ps] eqn:Hp.
    { exfalso. exact (re_split_nonempty s Hp). }
    destruct (is_sep c) eqn:Hc; cbn [negb].
    + assert (Hmore : Forall (fun p => sep_free p = true) ([] :: p :: ps)
                      /\ concat ([] :: p :: ps)
                         = List.filter (fun c => negb (is_sep c)) s).
      { split; [constructor; [reflexivity|exact IH1]|exact IH2]. }
      destruct s as [|c' s]; [exact Hmore|].
      destruct (is_sep c'); [split; assumption|exact Hmore].
    + apply Forall_cons_1 in IH1 as [Hp1 Hps]. split.
      * constructor; [|exact Hps]. cbn [sep_free forallb]. rewrite Hc.
        exact Hp1.
      * cbn [concat] in *. rewrite <- IH2. reflexivity.
Qed.

Lemma which_items_pieces pieces :
  Forall (fun p => sep_free p = true) pieces ->
  List.filter (fun s => negb (bool_decide (s = []))) (map strip pieces)
  = List.filter (fun s => negb (bool_decide (s = []))) pieces.
Proof.
  induction 1 as [|p ps Hp _ IH]; [reflexivity|].
  cbn [map List.filter]. rewrite (strip_word p Hp), IH. reflexivity.
Qed.

Lemma concat_filter_nonempty (l : list (list N)) :
  concat (List.filter (fun s => negb (bool_decide (s = []))) l) = concat l.
Proof.
  induction l as [|x l IH]; [reflexivity|]. cbn [List.filter].
  destruct x as [|c x]; cbn [concat]; [exact IH|].
  rewrite bool_decide_eq_false_2 by discriminate. cbn [negb concat].
  rewrite IH. reflexivity.
Qed.

(** X22: The candidates that [which_cmd] reads are words: none is empty and
    none holds a separator (a bar, a comma, an ideographic comma or white
    space); and nothing else is lost: written one after the other, they are
    the text of the option without its separators. *)
Theorem which_items_are_words (options : list N) :
  Forall (fun w => w <> [] /\ sep_free w = true) (which_items options)
  /\ concat (which_items options)
     = List.filter (fun c => negb (is_sep c)) options.
Proof.
  destruct (re_split_pieces options) as [Hfree Hconcat].
  unfold which_items. rewrite (which_items_pieces _ Hfree). split.
  - apply Forall_forall. intros w Hw. apply list_elem_of_In in Hw.
    apply filter_In in Hw as [Hin Hne].
    rewrite Forall_forall in Hfree. split.
    + intros ->. discriminate.
    + apply Hfree. apply list_elem_of_In. exact Hin.
  - rewrite concat_filter_nonempty. exact Hconcat.
Qed.

Lemma str_join_cons2 (sep x y : list N) l :
  str_join sep (x :: y :: l) = x ++ sep ++ str_join sep (y :: l).
Proof. reflexivity. Qed.

Lemma re_split_all_sep t :
  all_sep t = true ->
  List.filter (fun s => negb (bool_decide (s = []))) (re_split t) = [].
Proof.
  intros Ht. destruct t as [|c t]; [reflexivity|].
  rewrite <- (app_nil_r (c :: t)).
  rewrite re_split_sep_app by (discriminate || exact Ht || exact I).
  reflexivity.
Qed.

Lemma re_split_joined sep trail : forall words,
  sep <> [] -> all_sep sep = true -> all_sep trail = true ->
  words <> [] ->
  Forall (fun w => w <> [] /\ sep_free w = true) words ->
  List.filter (fun s => negb (bool_decide (s = [])))
              (re_split (str_join sep words ++ trail))
  = words
  /\ match str_join sep words ++ trail with
     | c :: _ => is_sep c = false
     | [] => True
     end.
Proof.
  intros words Hsep Hall Htrail Hne Hwords.
  induction Hwords as [|w words [Hw Hfree] Hwords IH]; [congruence|].
  assert (Hhead : forall rest,
             match w ++ rest with c :: _ => is_sep c = false | [] => True end).
  { intros rest. destruct w as [|c w]; [congruence|]. cbn [app].
    cbn [sep_free forallb] in Hfree. apply andb_prop in Hfree as [Hc _].
    apply negb_true_iff. exact Hc. }
  destruct words as [|w2 words].
  - cbn [str_join]. split; [|apply Hhead].
    rewrite (re_split_word_app w trail Hfree).
    pose proof (re_split_nonempty trail).
    destruct (re_split trail) as [|p ps] eqn:Hp; [congruence|].
    cbn [List.filter]. destruct trail as [|c trail].
    + injection Hp as <- <-. rewrite app_nil_r.
      rewrite bool_decide_eq_false_2 by exact Hw. reflexivity.
    + pose proof (re_split_all_sep (c :: trail) Htrail) as Hclean.
      rewrite Hp in Hclean.
      rewrite <- (app_nil_r (c :: trail)) in Hp.
      rewrite re_split_sep_app in Hp by (discriminate || exact Htrail || exact I).
      injection Hp as <- <-. rewrite app_nil_r.
      rewrite bool_decide_eq_false_2 by exact Hw. reflexivity.
  - rewrite str_join_cons2, <- !app_assoc. split; [|apply Hhead].
    destruct (IH ltac:(discriminate)) as [IHsplit IHhead].
    rewrite (re_split_word_app w _ Hfree).
    rewrite (re_split_sep_app sep _ Hsep Hall IHhead).
    rewrite app_nil_r. cbn [List.filter].
    rewrite bool_decide_eq_false_2 by exact Hw. cbn [negb].
    rewrite IHsplit. reflexivity.
Qed.

(** X23: Words written one after the other, with separators between them,
    and any separators before the first and after the last, are read back by
    [which_cmd] as the same words in the same order. *)
Theorem which_items_of_joined (words : list (list N))
    (sep lead trail : list N) :
  Forall (fun w => w <> [] /\ sep_free w = true) words ->
  sep <> [] -> all_sep sep = true ->
  all_sep lead = true -> all_sep trail = true ->
  which_items (lead ++ str_join sep words ++ trail) = words.
Proof.
  intros Hwords Hsep Hall Hlead Htrail. unfold which_items.
  rewrite which_items_pieces by apply re_split_pieces.
  destruct words as [|w words].
  - cbn [str_join app]. apply re_split_all_sep.
    unfold all_sep in *. rewrite forallb_app, Hlead, Htrail. reflexivity.
  - destruct (re_split_joined sep trail (w :: words) Hsep Hall Htrail
                ltac:(discriminate) Hwords) as [Hsplit Hhead].
    destruct lead as [|c lead]; [exact Hsplit|].
    rewrite (re_split_sep_app (c :: lead) _ ltac:(discriminate) Hlead Hhead).
    exact Hsplit.
Qed.

Lemma which_items_of_joined_witness :
  which_items (lit " ramen, curry |sushi ")
  = [lit "ramen"; lit "curry"; lit "sushi"]
  /\ which_items (lit ", " ++ str_join (lit " | ") [lit "a"; lit "b"] ++ [])
     = [lit "a"; lit "b"].
Proof.
  split; [reflexivity|].
  apply (which_items_of_joined [lit "a"; lit "b"] (lit " | ") (lit ", ") []);
    try reflexivity; try discriminate.
  repeat constructor; discriminate.
Defined.

Lemma which_dedup_spec items : forall seen,
  NoDup (which_dedup seen items)
  /\ (forall x, x ∈ which_dedup seen items <-> x ∈ items /\ x ∉ seen)
  /\ sublist (which_dedup seen items) items.
Proof.
  induction items as [|a items IH]; intros seen.
  - cbn. split; [constructor|]. split; [|constructor].
    intros x. split; [intros H|intros [H _]]; apply elem_of_nil in H;
      contradiction.
  - cbn [which_dedup]. destruct (bool_decide (a ∈ seen)) eqn:Ha.
    + apply bool_decide_eq_true in Ha.
      destruct (IH seen) as (Hnd & Hin & Hsub).
      split; [exact Hnd|]. split; [|apply sublist_cons; exact Hsub].
      intros x. rewrite Hin, elem_of_cons. split.
      * intros [H1 H2]. auto.
      * intros [[->|H1] H2]; [contradiction|auto].
    + apply bool_decide_eq_false in Ha.
      destruct (IH (a :: seen)) as (Hnd & Hin & Hsub).
      split; [|split; [|apply sublist_skip; exact Hsub]].
      * constructor; [|exact Hnd]. rewrite Hin.
        intros [_ H]. apply H. apply list_elem_of_here.
      * intros x. rewrite !elem_of_cons, Hin, not_elem_of_cons.
        destruct (decide (x = a)) as [->|Hne]; [tauto|]. tauto.
Qed.

Lemma which_dedup_nodup items : forall seen,
  NoDup items -> (forall x, x ∈ items -> x ∉ seen) ->
  which_dedup seen items = items.
Proof.
  induction items as [|a items IH]; intros seen Hnd Hdisj; [reflexivity|].
  apply NoDup_cons in Hnd as [Ha Hnd]. cbn [which_dedup].
  rewrite bool_decide_eq_false_2 by (apply Hdisj, list_elem_of_here).
  f_equal. apply IH; [exact Hnd|].
  intros x Hx. apply not_elem_of_cons. split.
  - intros ->. contradiction.
  - apply Hdisj. apply list_elem_of_further. exact Hx.
Qed.

Lemma which_dedup_snoc items : forall seen x,
  which_dedup seen (items ++ [x])
  = which_dedup seen items
    ++ (if bool_decide (x ∈ seen ++ items) then [] else [x]).
Proof.
  induction items as [|a items IH]; intros seen x.
  - cbn [app which_dedup]. rewrite app_nil_r.
    destruct (bool_decide (x ∈ seen)); reflexivity.
  - cbn [app which_dedup]. destruct (bool_decide (a ∈ seen)) eqn:Ha.
    + rewrite IH. f_equal. apply bool_decide_eq_true in Ha.
      assert (Hsame : x ∈ seen ++ items <-> x ∈ seen ++ a :: items).
      { rewrite !elem_of_app, elem_of_cons. split; [tauto|].
        intros [H|[->|H]]; tauto. }
      destruct (bool_decide (x ∈ seen ++ items)) eqn:Hx.
      * apply bool_decide_eq_true in Hx.
        rewrite bool_decide_eq_true_2 by (apply Hsame; exact Hx). reflexivity.
      * apply bool_decide_eq_false in Hx.
        rewrite bool_decide_eq_false_2 by (rewrite <- Hsame; exact Hx).
        reflexivity.
    + rewrite IH. cbn [app]. do 2 f_equal.
      assert (Hsame : x ∈ a :: seen ++ items <-> x ∈ seen ++ a :: items).
      { rewrite !elem_of_cons, !elem_of_app, elem_of_cons. tauto. }
      destruct (bool_decide (x ∈ a :: seen ++ items)) eqn:Hx.
      * apply bool_decide_eq_true in Hx.
        rewrite bool_decide_eq_true_2 by (apply Hsame; exact Hx). reflexivity.
      * apply bool_decide_eq_false in Hx.
        rewrite bool_decide_eq_false_2 by (rewrite <- Hsame; exact Hx).
        reflexivity.
Qed.

(** X24: The candidates without their repetitions: a candidate is kept where
    it stands for the first time and dropped where it stands again.  So each
    candidate stands once, none is lost and none is new, the order is kept,
    and a list without repetitions is left as it is. *)
Theorem which_dedup_keeps_first_occurrences (items : list (list N)) :
  (forall x,
     which_dedup [] (items ++ [x])
     = which_dedup [] items ++ (if bool_decide (x ∈ items) then [] else [x]))
  /\ NoDup (which_dedup [] items)
  /\ (forall x, x ∈ which_dedup [] items <-> x ∈ items)
  /\ sublist (which_dedup [] items) items
  /\ (NoDup items -> which_dedup [] items = items).
Proof.
  destruct (which_dedup_spec items []) as (Hnd & Hin & Hsub).
  split; [intros x; exact (which_dedup_snoc items [] x)|].
  split; [exact Hnd|]. split; [|split; [exact Hsub|]].
  - intros x. rewrite Hin. split; [tauto|]. intros H. split; [exact H|].
    apply not_elem_of_nil.
  - intros Hitems. apply which_dedup_nodup; [exact Hitems|].
    intros x _. apply not_elem_of_nil.
Qed.

(** X25: [which_cmd] asks for more candidates exactly when the option does
    not hold two different ones: no candidate at all, one, or one written
    several times. *)
Theorem which_cmd_needs_two_candidates (W : world) (options : list N)
    (n : Z) (unique : bool) :
  which_cmd W options n unique = Some (Message WHICH_FEW true)
  <-> forall a b,
        a ∈ which_items options -> b ∈ which_items options -> a = b.
Proof.
  destruct (which_dedup_spec (which_items options) []) as (Hnd & Hseen & _).
  assert (Hin : forall x, x ∈ which_dedup [] (which_items options)
                          <-> x ∈ which_items options).
  { intros x. rewrite Hseen. split; [tauto|]. intros H. split; [exact H|].
    apply not_elem_of_nil. }
  clear Hseen.
  unfold which_cmd. cbn zeta.
  set (dedup := which_dedup [] (which_items options)) in *.
  destruct (Nat.ltb_spec (length dedup) 2) as [Hfew|Hmany].
  - split; [intros _|reflexivity]. intros a b Ha Hb.
    apply Hin in Ha, Hb.
    destruct dedup as [|x [|y dedup]]; [| |cbn in Hfew; lia].
    + apply elem_of_nil in Ha. contradiction.
    + apply list_elem_of_singleton in Ha, Hb. congruence.
  - split.
    + intros H. exfalso.
      destruct (unique && (Z.of_nat (length dedup) <? n)); [discriminate|].
      destruct (unique && (n <? 0)); discriminate.
    + intros Hsame. exfalso.
      destruct dedup as [|x [|y dedup]]; [cbn in Hmany; lia..|].
      apply NoDup_cons in Hnd as [Hx _]. apply Hx.
      rewrite (Hsame x y); [apply list_elem_of_here| |];
        apply Hin; repeat constructor.
Qed.

(* ===================================================================== *)
(** ** More about the scheduler *)
(* ===================================================================== *)

Lemma message_or_nonempty text dflt : dflt <> [] -> message_or text dflt <> [].
Proof. intros H. destruct text as [[|c t]|]; cbn; [exact H|discriminate|exact H]. Qed.

(** X26: Every entry that [timer_cmd] or [alarm_cmd] adds has a text to
    send: a missing or empty text is replaced by the default.
    [check_timers] adds no entry.  So, if no entry has an empty text, none
    has after any of the three. *)
Theorem timers_keep_a_message (E : env) (now channel user a b : Z)
    (text : option (list N)) (st : state) :
  Forall (fun t => message t <> []) (active_timers st) ->
  Forall (fun t => message t <> [])
         (active_timers (timer_cmd now channel user a b text st).2)
  /\ Forall (fun t => message t <> [])
            (active_timers (alarm_cmd E now channel user a b text st).2)
  /\ Forall (fun t => message t <> [])
            (active_timers (check_timers E now st).2).
Proof.
  intros Hall. split; [|split].
  - unfold timer_cmd. destruct ((a =? 0) && (b =? 0)); [exact Hall|].
    cbn. apply Forall_app. split; [exact Hall|].
    constructor; [|constructor]. cbn [message].
    apply message_or_nonempty. discriminate.
  - unfold alarm_cmd. destruct (alarm_target (TZ E) now a b) as [target|];
      [|exact Hall].
    destruct (month_day (target.1 / DAY)) as [mo d].
    cbn. apply Forall_app. split; [exact Hall|].
    constructor; [|constructor]. cbn [message].
    apply message_or_nonempty. discriminate.
  - cbn. rewrite fire_all_timers, remove_all_filter.
    rewrite List.Forall_forall in *. intros t Ht.
    apply filter_In in Ht as [Ht _]. exact (Hall t Ht).
Qed.

Lemma timers_keep_a_message_witness :
  Forall (fun t => message t <> [])
         (active_timers (timer_cmd 0 1 42 0 5 (Some []) started).2).
Proof.
  apply (timers_keep_a_message calm 0 1 42 0 5 (Some []) started).
  constructor.
Defined.





(* ===================================================================== *)
(** ** The client at its start *)
(* ===================================================================== *)









